(** * Register control layer of the Ivy Bridge overclock manager

    A shallow embedding of [overclock.py]: the bit-field codec, the MSR
    device primitives, the RAPL power-limit codec, the turbo-ratio table,
    the fan control file protocol, and the GUI callbacks that drive them. *)

From Stdlib Require Import ZArith QArith Qround List String Ascii Bool Lia.
From Stdlib Require Import Sorting.Sorted Sorting.Permutation DecimalString.
From Stdlib Require Import Lqa.
From coqutil Require Import Z.bitblast Byte Word.LittleEndianList.
Import ListNotations.

Local Open Scope Z_scope.

(** ** MSR addresses and constants *)

Definition MSR_PLATFORM_INFO : Z := 0xCE.
Definition IA32_MISC_ENABLE : Z := 0x1A0.
Definition MSR_TURBO_RATIO_LIMIT : Z := 0x1AD.
Definition IA32_PERF_STATUS : Z := 0x198.
Definition MSR_RAPL_POWER_UNIT : Z := 0x606.
Definition MSR_PKG_POWER_LIMIT : Z := 0x610.

Definition FAN_WATCHDOG_SECONDS : Z := 30.

(** ** Bit-field codec

    Python integers are unbounded and its bitwise operators act on the
    infinite two's-complement representation, which is what [Z.land],
    [Z.lor], [Z.lnot], [Z.shiftl] and [Z.shiftr] do on [Z].  Python raises
    [ValueError] on a negative shift count where [Z.shiftl]/[Z.shiftr] shift
    the other way; [shift_raises] records when that happens, and the
    functions below describe the result otherwise. *)

Definition shift_raises (hi lo : Z) : bool :=
  (lo <? 0) || (hi - lo + 1 <? 0).

(** [bits(value, hi, lo) = (value >> lo) & ((1 << (hi - lo + 1)) - 1)] *)
Definition bits (value hi lo : Z) : Z :=
  Z.land (Z.shiftr value lo) (Z.shiftl 1 (hi - lo + 1) - 1).

(** [set_bits(orig, hi, lo, field)]:
    [mask = ((1 << (hi - lo + 1)) - 1) << lo];
    [(orig & ~mask) | ((field << lo) & mask)] *)
Definition set_bits (orig hi lo field : Z) : Z :=
  let mask := Z.shiftl (Z.shiftl 1 (hi - lo + 1) - 1) lo in
  Z.lor (Z.land orig (Z.lnot mask)) (Z.land (Z.shiftl field lo) mask).

(** ** Exceptions, events and the machine

    Every function that touches a device runs in a state-and-exception
    monad over [World].  A Python exception keeps the effects performed
    before it was raised, so [Raise] carries the updated world too. *)

(** The exception classes the program can meet.  [FileNotFoundError] and
    [PermissionError] are subclasses of [OSError]; all are subclasses of
    [Exception]. *)
Inductive exn : Type :=
| OSError
| FileNotFoundError
| PermissionError
| ValueError
| ZeroDivisionError
| IndexError
| StructError.

Inductive result (A : Type) : Type :=
| Ok (a : A)
| Raise (e : exn).
Arguments Ok {A} a.
Arguments Raise {A} e.

Inductive severity : Type := Warning | Critical.

(** What the program does to the outside, in order: calls of [read_msr] and
    [write_msr] (logged on entry, whether or not the device then fails),
    texts sent to the fan control file, message boxes (by title; the body
    text is not modelled) and the acceptance of the close event. *)
Inductive event : Type :=
| MsrRead (cpu msr : Z)
| MsrWrite (cpu msr value : Z)
| FanWrite (text : string)
| Dialog (s : severity) (title : string)
| CloseAccepted.

Record World : Type := mkWorld {
  (** [os.listdir("/dev/cpu")]; [None] when the directory is absent *)
  dev_cpu : option (list string);
  (** the error of open/lseek/read on [/dev/cpu/<cpu>/msr], if any *)
  msr_read_err : Z -> Z -> option exn;
  (** the bytes the device holds at (cpu, address) *)
  msr_data : Z -> Z -> list byte;
  (** the error of [os.open(path, os.O_WRONLY)], if any *)
  msr_open_err : Z -> option exn;
  (** the error of lseek/write at (cpu, address), if any *)
  msr_write_err : Z -> Z -> option exn;
  (** the error of writing a text to the fan file, given what was done so far *)
  fan_write_err : list event -> string -> option exn;
  (** the fan level and watchdog timeout the firmware currently holds *)
  fan_level : string;
  fan_watchdog : Z;
  (** the operator's answer to a Yes/No message box *)
  confirm_yes : bool;
  log : list event
}.

Definition emit (e : event) (w : World) : World :=
  mkWorld (dev_cpu w) (msr_read_err w) (msr_data w) (msr_open_err w)
          (msr_write_err w) (fan_write_err w) (fan_level w) (fan_watchdog w)
          (confirm_yes w) (log w ++ [e]).

Definition store_msr (cpu msr : Z) (bs : list byte) (w : World) : World :=
  mkWorld (dev_cpu w) (msr_read_err w)
          (fun c a => if (c =? cpu) && (a =? msr) then bs else msr_data w c a)
          (msr_open_err w) (msr_write_err w) (fan_write_err w) (fan_level w)
          (fan_watchdog w) (confirm_yes w) (log w).

Definition set_fan_level (level : string) (w : World) : World :=
  mkWorld (dev_cpu w) (msr_read_err w) (msr_data w) (msr_open_err w)
          (msr_write_err w) (fan_write_err w) level (fan_watchdog w)
          (confirm_yes w) (log w).

Definition set_fan_watchdog (timeout : Z) (w : World) : World :=
  mkWorld (dev_cpu w) (msr_read_err w) (msr_data w) (msr_open_err w)
          (msr_write_err w) (fan_write_err w) (fan_level w) timeout
          (confirm_yes w) (log w).

Definition M (A : Type) : Type := World -> result A * World.

Definition ret {A} (a : A) : M A := fun w => (Ok a, w).

Definition bind {A B} (m : M A) (k : A -> M B) : M B :=
  fun w => match m w with
           | (Ok a, w') => k a w'
           | (Raise e, w') => (Raise e, w')
           end.

Definition raise {A} (e : exn) : M A := fun w => (Raise e, w).

(** [try: m  except Exception as e: h e] *)
Definition try_except {A} (m : M A) (h : exn -> M A) : M A :=
  fun w => match m w with
           | (Ok a, w') => (Ok a, w')
           | (Raise e, w') => h e w'
           end.

Definition tell (e : event) : M unit := fun w => (Ok tt, emit e w).

Notation "x <- c1 ;; c2" := (bind c1 (fun x => c2))
  (at level 61, c1 at next level, right associativity).
Notation "c1 ;; c2" := (bind c1 (fun _ => c2))
  (at level 61, right associativity).

(** [for x in l: body x] *)
Fixpoint for_each {A} (l : list A) (body : A -> M unit) : M unit :=
  match l with
  | [] => ret tt
  | x :: rest => body x ;; for_each rest body
  end.

(** ** Strings and numbers of the Python run-time *)

Definition nl : string := String (ascii_of_nat 10) EmptyString.

(** [str(n)] for an integer *)
Definition str (n : Z) : string := NilZero.string_of_int (Z.to_int n).

(** Directory entry names are taken to be ASCII, as the msr driver creates
    them; on such names [isdigit] asks for a non-empty run of ['0'..'9']
    and [int] reads it in base ten. *)
Definition is_digit_char (c : ascii) : bool :=
  let n := Z.of_N (N_of_ascii c) in (48 <=? n) && (n <=? 57).

Fixpoint all_digits (s : string) : bool :=
  match s with
  | EmptyString => true
  | String c rest => is_digit_char c && all_digits rest
  end.

Definition isdigit (s : string) : bool :=
  match s with
  | EmptyString => false
  | _ => all_digits s
  end.

Fixpoint int_digits (acc : Z) (s : string) : Z :=
  match s with
  | EmptyString => acc
  | String c rest => int_digits (10 * acc + (Z.of_N (N_of_ascii c) - 48)) rest
  end.

Definition py_int (s : string) : Z := int_digits 0 s.

(** [sorted] on integers: the ascending rearrangement *)
Fixpoint insert_sorted (x : Z) (l : list Z) : list Z :=
  match l with
  | [] => [x]
  | y :: rest => if x <=? y then x :: l else y :: insert_sorted x rest
  end.

Fixpoint sorted (l : list Z) : list Z :=
  match l with
  | [] => []
  | x :: rest => insert_sorted x (sorted rest)
  end.

(** Floats are modelled by the rationals they denote.  The power and time
    units of a session are [1 / 2^k] (see [read_rapl_units]); multiplying or
    dividing a float by such a unit is exact, so the rational result is the
    float result.  [round] with one argument rounds half to even and yields
    an integer; float division raises on a zero divisor. *)
Definition py_round (q : Q) : Z :=
  let f := Qfloor q in
  match Qcompare (q - inject_Z f) (1 # 2) with
  | Lt => f
  | Gt => f + 1
  | Eq => if Z.even f then f else f + 1
  end.

Definition py_div (a b : Q) : M Q :=
  if Qeq_bool b 0 then raise ZeroDivisionError else ret (a / b)%Q.

(** [struct.unpack("<Q", buf)] and [struct.pack("<Q", value)] *)
Definition unpack_Q (buf : list byte) : M Z :=
  if (List.length buf =? 8)%nat then ret (le_combine buf) else raise StructError.

Definition pack_Q (value : Z) : M (list byte) :=
  if (0 <=? value) && (value <? 2 ^ 64) then ret (le_split 8 value)
  else raise StructError.

(** ** Low-level MSR helpers *)

Definition read_msr (msr cpu : Z) : M Z :=
  tell (MsrRead cpu msr) ;;
  fun w =>
    match msr_read_err w cpu msr with
    | Some e => (Raise e, w)
    | None => unpack_Q (firstn 8 (msr_data w cpu msr)) w
    end.

Definition write_msr (msr value cpu : Z) : M unit :=
  tell (MsrWrite cpu msr value) ;;
  fun w =>
    match msr_open_err w cpu with
    | Some e => (Raise e, w)
    | None =>
        (buf <- pack_Q value ;;
         fun w1 => match msr_write_err w1 cpu msr with
                   | Some e => (Raise e, w1)
                   | None => (Ok tt, store_msr cpu msr buf w1)
                   end) w
    end.

Definition online_cpus : M (list Z) :=
  fun w =>
    match dev_cpu w with
    | None => (Raise FileNotFoundError, w)
    | Some entries =>
        let cpus :=
          fold_left (fun cpus entry =>
                       if isdigit entry then cpus ++ [py_int entry] else cpus)
                    entries [] in
        (Ok (sorted cpus), w)
    end.

Definition write_msr_all_cpus (msr value : Z) : M unit :=
  cpus <- online_cpus ;;
  for_each cpus (fun cpu => write_msr msr value cpu).

(** ** Turbo ratio table *)

Definition read_turbo_ratios : M (list Z) :=
  raw <- read_msr MSR_TURBO_RATIO_LIMIT 0 ;;
  ret (map (fun i => bits raw (i * 8 + 7) (i * 8)) [0; 1; 2; 3; 4; 5; 6; 7]).

(** the loop [for i, r in enumerate(ratios): val = set_bits(...)] from index [i] on *)
Fixpoint encode_ratios (i : Z) (ratios : list Z) (val : Z) : Z :=
  match ratios with
  | [] => val
  | r :: rest => encode_ratios (i + 1) rest (set_bits val (i * 8 + 7) (i * 8) r)
  end.

Definition write_turbo_ratios (ratios : list Z) : M unit :=
  write_msr_all_cpus MSR_TURBO_RATIO_LIMIT (encode_ratios 0 ratios 0).

(** ** RAPL power limits *)

Definition read_rapl_units : M (Q * Q) :=
  val <- read_msr MSR_RAPL_POWER_UNIT 0 ;;
  let power_unit := (1 / inject_Z (Z.shiftl 1 (bits val 3 0)))%Q in
  let time_unit := (1 / inject_Z (Z.shiftl 1 (bits val 19 16)))%Q in
  ret (power_unit, time_unit).

Definition _decode_time_window (field : Z) (time_unit : Q) : Q :=
  let y := Z.land field 0x1F in
  let z := Z.land (Z.shiftr field 5) 0x3 in
  (inject_Z (2 ^ y) * (1 + inject_Z z / 4) * time_unit)%Q.

Record PowerLimits : Type := mkPowerLimits {
  pl1_w : Q;
  pl1_enabled : bool;
  pl1_time : Q;
  pl2_w : Q;
  pl2_enabled : bool;
  pl2_time : Q;
  locked : bool
}.

(** [bool(n)] for an integer *)
Definition py_bool (n : Z) : bool := negb (n =? 0).

(** the dictionary [read_power_limits] builds from the raw register value *)
Definition decode_power_limits (raw : Z) (power_unit time_unit : Q) : PowerLimits :=
  mkPowerLimits
    (inject_Z (bits raw 14 0) * power_unit)%Q
    (py_bool (bits raw 15 15))
    (_decode_time_window (bits raw 23 17) time_unit)
    (inject_Z (bits raw 46 32) * power_unit)%Q
    (py_bool (bits raw 47 47))
    (_decode_time_window (bits raw 55 49) time_unit)
    (py_bool (bits raw 63 63)).

Definition read_power_limits (power_unit time_unit : Q) : M PowerLimits :=
  raw <- read_msr MSR_PKG_POWER_LIMIT 0 ;;
  ret (decode_power_limits raw power_unit time_unit).

(** the part of [write_pl_watts] between the read and the broadcast *)
Definition encode_pl_watts (raw : Z) (pl1_w pl2_w : option Q) (power_unit : Q)
  : M Z :=
  raw <- match pl1_w with
         | Some w =>
             q <- py_div w power_unit ;;
             let raw := set_bits raw 14 0 (py_round q) in
             ret (set_bits raw 15 15 1)
         | None => ret raw
         end ;;
  raw <- match pl2_w with
         | Some w =>
             q <- py_div w power_unit ;;
             let raw := set_bits raw 46 32 (py_round q) in
             ret (set_bits raw 47 47 1)
         | None => ret raw
         end ;;
  ret (set_bits raw 63 63 0).

Definition write_pl_watts (pl1_w pl2_w : option Q) (power_unit : Q) : M unit :=
  raw <- read_msr MSR_PKG_POWER_LIMIT 0 ;;
  raw <- encode_pl_watts raw pl1_w pl2_w power_unit ;;
  write_msr_all_cpus MSR_PKG_POWER_LIMIT raw.

(** ** ThinkPad fan control file *)

(** [with open(FAN_PROC_PATH, "w") as f: f.write(text)]; [applied] is what
    the firmware does with the text once the write has gone through *)
Definition fan_write (text : string) (applied : World -> World) : M unit :=
  fun w =>
    let w' := emit (FanWrite text) w in
    match fan_write_err w (log w) text with
    | Some e => (Raise e, w')
    | None => (Ok tt, applied w')
    end.

Definition write_fan_level (level : string) : M unit :=
  fan_write ("level " ++ level ++ nl)%string (set_fan_level level).

Definition write_fan_watchdog (timeout : Z) : M unit :=
  fan_write ("watchdog " ++ str timeout ++ nl)%string (set_fan_watchdog timeout).

(** ** The window *)

(** What a ratio line edit holds, as [_apply_ratios] looks at it: text that
    strips to nothing, text that [int] reads as [n], or text on which [int]
    raises [ValueError]. *)
Inductive ratio_text : Type :=
| TextEmpty
| TextInt (n : Z)
| TextNotInt.

Record Gui : Type := mkGui {
  power_unit : Q;
  time_unit : Q;
  fan_available : bool;
  ratio_inputs : list ratio_text;
  fan_mode_index : Z;        (** [fan_mode_combo.currentIndex()] *)
  fan_level_slider : Z       (** [fan_level_slider.value()] *)
}.

(** [new_ratios[i]] and [current[i] = x] *)
Definition list_index (l : list Z) (i : nat) : M Z :=
  match nth_error l i with
  | Some x => ret x
  | None => raise IndexError
  end.

Definition list_assign (l : list Z) (i : nat) (x : Z) : M (list Z) :=
  if (i <? List.length l)%nat then ret (firstn i l ++ x :: skipn (S i) l)
  else raise IndexError.

(** The first loop of [_apply_ratios]; [None] stands for the early [return]
    after a warning box. *)
Fixpoint collect_ratios (edits : list ratio_text) (new_ratios : list Z)
  : M (option (list Z)) :=
  match edits with
  | [] => ret (Some new_ratios)
  | TextEmpty :: _ => tell (Dialog Warning "Input Error") ;; ret None
  | TextNotInt :: _ => raise ValueError
  | TextInt ratio :: rest =>
      if (ratio <? 20) || (ratio >? 42)
      then tell (Dialog Warning "Input Error") ;; ret None
      else collect_ratios rest (new_ratios ++ [ratio])
  end.

(** The second loop: is there an [i] with [new_ratios[i] < new_ratios[i + 1]]? *)
Fixpoint order_violated (new_ratios : list Z) : bool :=
  match new_ratios with
  | a :: (b :: _) as rest => (a <? b) || order_violated rest
  | _ => false
  end.

(** [for i in idx: current[i] = new_ratios[i]] *)
Fixpoint replace_entries (idx : list nat) (current new_ratios : list Z)
  : M (list Z) :=
  match idx with
  | [] => ret current
  | i :: rest =>
      x <- list_index new_ratios i ;;
      current <- list_assign current i x ;;
      replace_entries rest current new_ratios
  end.

Definition _apply_ratios (self : Gui) : M unit :=
  checked <- collect_ratios (ratio_inputs self) [] ;;
  match checked with
  | None => ret tt
  | Some new_ratios =>
      if order_violated new_ratios
      then tell (Dialog Warning "Input Error")
      else
        try_except
          (current <- read_turbo_ratios ;;
           current <- replace_entries [0; 1; 2; 3]%nat current new_ratios ;;
           write_turbo_ratios current)
          (fun _ => tell (Dialog Critical "Error"))
  end.

Definition _apply_fan_setting (self : Gui) : M unit :=
  let index := fan_mode_index self in
  let level_str : option string :=
    if index =? 0 then Some "auto"%string
    else if index =? 1 then Some (str (fan_level_slider self))
    else if index =? 2 then Some "full-speed"%string
    else if index =? 3 then Some "disengaged"%string
    else None in
  match level_str with
  | None => ret tt
  | Some level_str =>
      proceed <- (if index =? 3
                  then tell (Dialog Warning "Confirm Disengaged Mode") ;;
                       fun w => (Ok (confirm_yes w), w)
                  else ret true) ;;
      if negb proceed then ret tt
      else
        try_except
          (write_fan_level level_str ;;
           if negb (String.eqb level_str "auto")
           then write_fan_watchdog FAN_WATCHDOG_SECONDS
           else write_fan_watchdog 0)
          (fun e => match e with
                    | PermissionError => tell (Dialog Critical "Permission Error")
                    | _ => tell (Dialog Critical "Error")
                    end)
  end.

Definition closeEvent (self : Gui) : M unit :=
  (if fan_available self
   then try_except (write_fan_level "auto" ;; write_fan_watchdog 0)
                   (fun _ => ret tt)
   else ret tt) ;;
  tell CloseAccepted.

(** ** Reading the log *)

(** the events a run has added to the log *)
Definition new_events (w w' : World) : list event :=
  skipn (List.length (log w)) (log w').

(** the texts sent to the fan file, oldest first *)
Fixpoint fan_writes (evs : list event) : list string :=
  match evs with
  | [] => []
  | FanWrite text :: rest => text :: fan_writes rest
  | _ :: rest => fan_writes rest
  end.

(** the values handed to [write_msr] for register [msr], oldest first *)
Fixpoint written_values (msr : Z) (evs : list event) : list Z :=
  match evs with
  | [] => []
  | MsrWrite _ a v :: rest =>
      if a =? msr then v :: written_values msr rest else written_values msr rest
  | _ :: rest => written_values msr rest
  end.

(** the values a run of [m] from [w] hands to [write_msr] for the package
    power-limit register *)
Definition broadcasts (m : M unit) (w : World) : list Z :=
  written_values MSR_PKG_POWER_LIMIT (new_events w (snd (m w))).

(** the 64-bit value CPU 0's power-limit register holds in [w] *)
Definition pkg_limit_cpu0 (w : World) : Z :=
  le_combine (firstn 8 (msr_data w 0 MSR_PKG_POWER_LIMIT)).

(** [w] with other register contents *)
Definition with_msr_data (d : Z -> Z -> list byte) (w : World) : World :=
  mkWorld (dev_cpu w) (msr_read_err w) d (msr_open_err w) (msr_write_err w)
          (fan_write_err w) (fan_level w) (fan_watchdog w) (confirm_yes w)
          (log w).

(** ** Closed forms used in the statements *)

(** what [write_pl_watts] does to the raw value for one limit whose field
    is [lo..hi] and whose enable bit is [en]: nothing when the wattage is
    absent, field and enable bit when it is present *)
Definition apply_limit (raw hi lo en : Z) (field : option Z) : Z :=
  match field with
  | Some f => set_bits (set_bits raw hi lo f) en en 1
  | None => raw
  end.

(** the raw field of an optional wattage, [int(round(w / power_unit))] *)
Definition pl_field (w : option Q) (power_unit : Q) : result (option Z) :=
  match w with
  | None => Ok None
  | Some a =>
      if Qeq_bool power_unit 0 then Raise ZeroDivisionError
      else Ok (Some (py_round (a / power_unit)))
  end.

(** every [write_msr] among [evs] targets the package power-limit register
    with a value that satisfies [P] *)
Definition writes_satisfy (P : Z -> Prop) (evs : list event) : Prop :=
  Forall (fun e => match e with
                   | MsrWrite _ a v => a = MSR_PKG_POWER_LIMIT /\ P v
                   | _ => True
                   end) evs.

Definition is_msr_read (e : event) : bool :=
  match e with
  | MsrRead _ _ => true
  | _ => false
  end.

(** ** Example machines *)

(** A machine on which nothing fails: [/dev/cpu] lists [entries], every
    register of every CPU holds [raw], the fan is in [level]. *)
Definition quiet_world (entries : list string) (raw : Z) (level : string)
  : World :=
  mkWorld (Some entries) (fun _ _ => None) (fun _ _ => le_split 8 raw)
          (fun _ => None) (fun _ _ => None) (fun _ _ => None)
          level 0 true [].

(** The same machine without the msr module: [/dev/cpu] is absent. *)
Definition no_msr_world : World :=
  mkWorld None (fun _ _ => Some FileNotFoundError) (fun _ _ => [])
          (fun _ => Some FileNotFoundError) (fun _ _ => Some FileNotFoundError)
          (fun _ _ => None) "auto" 0 true [].

(** A machine whose fan control file rejects every write. *)
Definition fan_locked_world (level : string) : World :=
  mkWorld (Some []) (fun _ _ => None) (fun _ _ => le_split 8 0)
          (fun _ => None) (fun _ _ => None) (fun _ _ => Some PermissionError)
          level 0 true [].

(** the range test of [_apply_ratios], [not (ratio < 20 or ratio > 42)] *)
Definition ratio_in_range (ratio : Z) : bool :=
  negb ((ratio <? 20) || (ratio >? 42)).

(** a machine on which no MSR access fails and every register is 8 bytes *)
Definition msr_io_works (w : World) : Prop :=
  (forall c a, msr_read_err w c a = None) /\
  (forall c, msr_open_err w c = None) /\
  (forall c a, msr_write_err w c a = None) /\
  (forall c a, List.length (msr_data w c a) = 8%nat).

(** the [except] clauses of [_apply_fan_setting] *)
Definition fan_error_box (e : exn) : M unit :=
  match e with
  | PermissionError => tell (Dialog Critical "Permission Error")
  | _ => tell (Dialog Critical "Error")
  end.

(** the level text and watchdog timeout that go with a combo-box index *)
Definition level_of_index (index slider : Z) : string :=
  if index =? 0 then "auto"
  else if index =? 1 then str slider
  else if index =? 2 then "full-speed"
  else "disengaged".

Definition timeout_of_index (index : Z) : Z :=
  if index =? 0 then 0 else FAN_WATCHDOG_SECONDS.

(** ** Turbo enable, performance status *)

Definition read_turbo_enabled : M bool :=
  val <- read_msr IA32_MISC_ENABLE 0 ;;
  ret (negb (py_bool (bits val 38 38))).

Definition set_turbo_enabled (enable : bool) : M unit :=
  cpus <- online_cpus ;;
  for_each cpus (fun cpu =>
    val <- read_msr IA32_MISC_ENABLE cpu ;;
    let val := if enable then set_bits val 38 38 0 else set_bits val 38 38 1 in
    write_msr IA32_MISC_ENABLE val cpu).

Definition read_perf_status (cpu : Z) : M Z :=
  val <- read_msr IA32_PERF_STATUS cpu ;;
  ret (bits val 15 8).

(** ** Power-limit callbacks of the window *)

(** [_apply_power_limits]; the two slider values are passed in, and
    [float(n)] of a slider value is the integer itself *)
Definition _apply_power_limits (self : Gui) (pl1_slider pl2_slider : Z) : M unit :=
  let pl1 := inject_Z pl1_slider in
  let pl2 := inject_Z pl2_slider in
  try_except (write_pl_watts (Some pl1) (Some pl2) (power_unit self))
             (fun _ => tell (Dialog Critical "Error")).

(** the slider position [_load_current_values] derives from a decoded
    wattage, [max(20, min(60, int(round(w))))] *)
Definition pl_clamped (w : Q) : Z := Z.max 20 (Z.min 60 (py_round w)).

(** ** Fan status file *)

(** A dictionary with string keys, in insertion order; assigning to a key
    that is present replaces its value in place. *)
Definition dict : Type := list (string * string).

Fixpoint dict_set (d : dict) (k v : string) : dict :=
  match d with
  | [] => [(k, v)]
  | (k', v') :: rest =>
      if String.eqb k' k then (k', v) :: rest else (k', v') :: dict_set rest k v
  end.

Fixpoint dict_get (d : dict) (k : string) : option string :=
  match d with
  | [] => None
  | (k', v') :: rest => if String.eqb k' k then Some v' else dict_get rest k
  end.

(** [d.get(k, default)] *)
Definition dict_get_default (d : dict) (k default : string) : string :=
  match dict_get d k with
  | Some v => v
  | None => default
  end.

(** The file is taken to be ASCII text; the characters [str.strip()]
    removes are then tab to carriage return, the four separators 28..31
    and the space. *)
Definition is_space (c : ascii) : bool :=
  let n := Z.of_N (N_of_ascii c) in
  ((9 <=? n) && (n <=? 13)) || ((28 <=? n) && (n <=? 32)).

Fixpoint lstrip (s : string) : string :=
  match s with
  | EmptyString => EmptyString
  | String c rest => if is_space c then lstrip rest else s
  end.

Fixpoint rstrip (s : string) : string :=
  match s with
  | EmptyString => EmptyString
  | String c rest =>
      match rstrip rest with
      | EmptyString => if is_space c then EmptyString else String c EmptyString
      | kept => String c kept
      end
  end.

Definition strip (s : string) : string := rstrip (lstrip s).

Definition colon : ascii := ":"%char.

(** [":" in line] *)
Fixpoint has_colon (s : string) : bool :=
  match s with
  | EmptyString => false
  | String c rest => Ascii.eqb c colon || has_colon rest
  end.

(** [key, _, value = line.partition(":")] *)
Fixpoint partition_colon (s : string) : string * string :=
  match s with
  | EmptyString => (EmptyString, EmptyString)
  | String c rest =>
      if Ascii.eqb c colon then (EmptyString, rest)
      else let (key, value) := partition_colon rest in (String c key, value)
  end.

(** the body of the loop over the lines of the file *)
Definition fan_status_line (result : dict) (line : string) : dict :=
  if String.prefix "commands:" line then result
  else if has_colon line then
         let (key, value) := partition_colon line in
         dict_set result (strip key) (strip value)
       else result.

(** [read_fan_status]; [file] is what opening and reading the fan file
    gives: the lines, each with its line end, or the error raised *)
Definition read_fan_status (file : result (list string)) : M dict :=
  match file with
  | Raise e => raise e
  | Ok lines => ret (fold_left fan_status_line lines [])
  end.

(** [_refresh_fan_status]; the result is the text of the RPM and level
    labels as the call leaves them, [None] when it leaves them alone *)
Definition _refresh_fan_status (self : Gui) (file : result (list string))
  : M (option (string * string)) :=
  if negb (fan_available self) then ret None
  else
    try_except
      (status <- read_fan_status file ;;
       let speed := dict_get_default status "speed" "?" in
       let level := dict_get_default status "level" "?" in
       (if negb (String.eqb level "auto")
        then write_fan_watchdog FAN_WATCHDOG_SECONDS
        else ret tt) ;;
       ret (Some ((speed ++ " RPM")%string, level)))
      (fun _ => ret (Some ("read error"%string, "read error"%string))).

(** the combo-box index and manual slider value [_load_current_values]
    selects for a level read from the fan file *)
Definition fan_selection (level : string) : Z * option Z :=
  if String.eqb level "auto" then (0, None)
  else if String.eqb level "full-speed" then (2, None)
  else if String.eqb level "disengaged" then (3, None)
  else if isdigit level && (0 <=? py_int level) && (py_int level <=? 7)
       then (1, Some (py_int level))
       else (0, None).

(** does a stretch of the log contain a register access? *)
Definition touches_msr (evs : list event) : bool :=
  existsb (fun e => match e with
                    | MsrRead _ _ | MsrWrite _ _ _ => true
                    | _ => false
                    end) evs.

(** only characters [strip] removes *)
Fixpoint all_space (s : string) : bool :=
  match s with
  | EmptyString => true
  | String c rest => is_space c && all_space rest
  end.

(** [_on_turbo_toggled]; [state] is the check state passed by the signal
    ([Qt.Checked] is 2).  The result is the value the [except] branch
    passes to [setChecked], [None] when the checkbox is left as it is. *)
Definition _on_turbo_toggled (state : Z) : M (option bool) :=
  let enable := state =? 2 in
  try_except
    (set_turbo_enabled enable ;; ret None)
    (fun _ =>
       tell (Dialog Critical "Error") ;;
       try_except (actual <- read_turbo_enabled ;; ret (Some actual))
                  (fun _ => ret None)).

(** ** Bit-level facts about the codec *)

Lemma mask_ones (n : Z) : Z.shiftl 1 n - 1 = Z.ones n.
Proof. unfold Z.ones. apply Z.sub_1_r. Qed.

Lemma testbit_bits (v hi lo i : Z) :
  0 <= lo -> lo <= hi + 1 -> 0 <= i ->
  Z.testbit (bits v hi lo) i = (i <? hi - lo + 1) && Z.testbit v (i + lo).
Proof.
  intros Hlo Hhi Hi. unfold bits. rewrite mask_ones.
  rewrite Z.land_spec, Z.shiftr_spec by lia.
  rewrite Z.testbit_ones_nonneg by lia.
  apply andb_comm.
Qed.

Lemma testbit_set_bits (v hi lo f i : Z) :
  0 <= lo -> lo <= hi + 1 -> 0 <= i ->
  Z.testbit (set_bits v hi lo f) i =
  if (lo <=? i) && (i <=? hi) then Z.testbit f (i - lo) else Z.testbit v i.
Proof.
  intros Hlo Hhi Hi. unfold set_bits. rewrite mask_ones.
  rewrite Z.lor_spec, !Z.land_spec, Z.lnot_spec by lia.
  rewrite !Z.shiftl_spec by lia.
  destruct (Z.leb_spec lo i) as [Hl | Hl]; cbn [andb].
  - rewrite Z.testbit_ones_nonneg by lia.
    destruct (Z.leb_spec i hi), (Z.ltb_spec (i - lo) (hi - lo + 1)); try lia;
      cbn; now rewrite ?andb_false_r, ?andb_true_r, ?orb_false_r.
  - rewrite (Z.testbit_neg_r _ (i - lo)) by lia.
    rewrite (Z.testbit_neg_r f (i - lo)) by lia.
    cbn. now rewrite andb_true_r, orb_false_r.
Qed.

Lemma bits_range (v hi lo : Z) :
  0 <= lo -> lo <= hi + 1 -> 0 <= bits v hi lo < 2 ^ (hi - lo + 1).
Proof.
  intros Hlo Hhi. unfold bits. rewrite mask_ones, Z.land_ones by lia.
  apply Z.mod_pos_bound. apply Z.pow_pos_nonneg; lia.
Qed.

Lemma set_bits_nonneg (v hi lo f : Z) :
  0 <= lo -> lo <= hi + 1 -> 0 <= v -> 0 <= set_bits v hi lo f.
Proof.
  intros Hlo Hhi Hv. unfold set_bits. rewrite mask_ones.
  apply Z.lor_nonneg. split.
  - apply Z.land_nonneg. now left.
  - apply Z.land_nonneg. right. apply Z.shiftl_nonneg.
    rewrite Z.ones_equiv. pose proof (Z.pow_pos_nonneg 2 (hi - lo + 1)). lia.
Qed.

Lemma testbit_high_false (v n i : Z) :
  0 <= v < 2 ^ n -> 0 <= n -> n <= i -> Z.testbit v i = false.
Proof.
  intros Hv Hn Hi. rewrite <- (Z.mod_small v (2 ^ n)) by assumption.
  apply Z.mod_pow2_bits_high. lia.
Qed.

Lemma range_of_bits (v n : Z) :
  0 <= n -> 0 <= v -> (forall i, n <= i -> Z.testbit v i = false) ->
  0 <= v < 2 ^ n.
Proof.
  intros Hn Hv Hbits. split; [assumption|].
  destruct (Z.eq_dec v 0) as [-> | Hne]; [apply Z.pow_pos_nonneg; lia|].
  assert (Hpos : 0 < v) by lia.
  apply Z.log2_lt_pow2; [assumption|].
  destruct (Z.lt_ge_cases (Z.log2 v) n) as [Hlt | Hge]; [assumption|].
  specialize (Hbits (Z.log2 v) Hge).
  rewrite Z.bit_log2 in Hbits by assumption. discriminate.
Qed.

Lemma set_bits_u64 (v hi lo f : Z) :
  0 <= lo -> lo <= hi + 1 -> hi <= 63 ->
  0 <= v < 2 ^ 64 -> 0 <= set_bits v hi lo f < 2 ^ 64.
Proof.
  intros Hlo Hhi H63 Hv. apply range_of_bits; [lia | apply set_bits_nonneg; lia |].
  intros i Hi. rewrite testbit_set_bits by lia.
  destruct (Z.leb_spec lo i), (Z.leb_spec i hi); cbn; try lia;
    apply (testbit_high_false v 64); lia.
Qed.


Lemma bits_of_set_bits (v f hi lo : Z) :
  0 <= lo -> lo <= hi ->
  bits (set_bits v hi lo f) hi lo = Z.land f (Z.shiftl 1 (hi - lo + 1) - 1).
Proof.
  intros Hlo Hhi. apply Z.bits_inj'. intros i Hi.
  rewrite testbit_bits, testbit_set_bits by lia.
  rewrite mask_ones, Z.land_spec, Z.testbit_ones_nonneg by lia.
  replace (i + lo - lo) with i by lia.
  destruct (Z.ltb_spec i (hi - lo + 1)); cbn [andb].
  - replace ((lo <=? i + lo) && (i + lo <=? hi)) with true.
    + now rewrite andb_true_r.
    + symmetry. apply andb_true_iff. split; apply Z.leb_le; lia.
  - now rewrite andb_false_r.
Qed.

Lemma bits_set_bits_other (v f hi lo hi' lo' : Z) :
  0 <= lo -> lo <= hi -> 0 <= lo' -> lo' <= hi' ->
  hi' < lo \/ hi < lo' ->
  bits (set_bits v hi' lo' f) hi lo = bits v hi lo.
Proof.
  intros Hlo Hhi Hlo' Hhi' Hdisj. apply Z.bits_inj'. intros i Hi.
  rewrite !testbit_bits, testbit_set_bits by lia.
  destruct (Z.ltb_spec i (hi - lo + 1)); cbn [andb]; [|reflexivity].
  destruct (Z.leb_spec lo' (i + lo)), (Z.leb_spec (i + lo) hi');
    cbn [andb]; try reflexivity; lia.
Qed.

Lemma set_bits_same_field (v hi lo : Z) :
  0 <= lo -> lo <= hi -> set_bits v hi lo (bits v hi lo) = v.
Proof.
  intros Hlo Hhi. apply Z.bits_inj'. intros i Hi.
  rewrite testbit_set_bits by lia.
  destruct (Z.leb_spec lo i), (Z.leb_spec i hi); cbn [andb]; try reflexivity.
  rewrite testbit_bits by lia. replace (i - lo + lo) with i by lia.
  destruct (Z.ltb_spec (i - lo) (hi - lo + 1)); [reflexivity | lia].
Qed.

(** C5. For every bit range [0 <= lo <= hi <= 63], every base value [v] and
    every field [f], neither call raises and extracting the range that
    [set_bits] has just written returns [f] truncated to the width of the
    range, [f & ((1 << (hi - lo + 1)) - 1)], whatever [v] is. *)
Theorem bits_set_bits_same (v f hi lo : Z) :
  0 <= lo -> lo <= hi -> hi <= 63 ->
  shift_raises hi lo = false /\
  bits (set_bits v hi lo f) hi lo = Z.land f (Z.shiftl 1 (hi - lo + 1) - 1).
Proof.
  intros Hlo Hhi H63. split.
  - unfold shift_raises. apply orb_false_iff. split; apply Z.ltb_ge; lia.
  - now apply bits_of_set_bits.
Qed.

Lemma bits_set_bits_same_witness :
  (0 <= 0 /\ 0 <= 14 /\ 14 <= 63) /\
  shift_raises 14 0 = false /\
  bits (set_bits 0xFFFFFFFFFFFFFFFF 14 0 0x12345) 14 0
  = Z.land 0x12345 (Z.shiftl 1 (14 - 0 + 1) - 1).
Proof.
  split; [lia | apply (bits_set_bits_same 0xFFFFFFFFFFFFFFFF 0x12345 14 0); lia].
Defined.

(** ** Time-window decoding *)

Lemma field_exponent (y z : Z) :
  0 <= y < 32 -> Z.land (y + 32 * z) 0x1F = y.
Proof.
  intros Hy. change 0x1F with (Z.ones 5). rewrite Z.land_ones by lia.
  change (2 ^ 5) with 32. rewrite Z.mul_comm, Z.mod_add by lia.
  apply Z.mod_small. lia.
Qed.

Lemma field_fraction (y z : Z) :
  0 <= y < 32 -> 0 <= z < 4 -> Z.land (Z.shiftr (y + 32 * z) 5) 0x3 = z.
Proof.
  intros Hy Hz. rewrite Z.shiftr_div_pow2 by lia. change (2 ^ 5) with 32.
  rewrite Z.mul_comm, Z.div_add by lia. rewrite (Z.div_small y 32) by lia.
  change 0x3 with (Z.ones 2). rewrite Z.land_ones by lia.
  apply Z.mod_small. cbn. lia.
Qed.

Lemma decode_time_window_eq (y z : Z) (tu : Q) :
  0 <= y < 32 -> 0 <= z < 4 ->
  (_decode_time_window (y + 32 * z) tu
   == inject_Z (2 ^ y) * (1 + inject_Z z / 4) * tu)%Q.
Proof.
  intros Hy Hz. unfold _decode_time_window.
  rewrite field_exponent, field_fraction by assumption. reflexivity.
Qed.

Lemma fraction_factor_pos (z : Z) : 0 <= z -> (0 < 1 + inject_Z z / 4)%Q.
Proof.
  intros Hz. apply Qlt_le_trans with 1%Q; [reflexivity|].
  rewrite <- (Qplus_0_r 1) at 1. apply Qplus_le_r.
  apply Qmult_le_0_compat; [|discriminate].
  change 0%Q with (inject_Z 0). now rewrite <- Zle_Qle.
Qed.

(** C4. A 7-bit time-window field with exponent [y] in bits 0-4 and
    fraction selector [z] in bits 5-6 decodes to [2^y * (1 + z/4) * tu] for
    every time unit [tu]; so the field with [y = 0], [z = 0] decodes to 1 at
    time unit 1, and for a fixed [z] and a (positive) time unit the decoded
    window grows strictly with [y]. *)
Theorem decode_time_window_spec :
  (forall (y z : Z) (tu : Q), 0 <= y < 32 -> 0 <= z < 4 ->
     (_decode_time_window (y + 32 * z) tu
      == inject_Z (2 ^ y) * (1 + inject_Z z / 4) * tu)%Q) /\
  (_decode_time_window 0 1 == 1)%Q /\
  (forall (y1 y2 z : Z) (tu : Q),
     0 <= y1 -> y1 < y2 -> y2 < 32 -> 0 <= z < 4 -> (0 < tu)%Q ->
     (_decode_time_window (y1 + 32 * z) tu
      < _decode_time_window (y2 + 32 * z) tu)%Q).
Proof.
  split; [exact decode_time_window_eq | split; [reflexivity|]].
  intros y1 y2 z tu H1 H12 H2 Hz Htu.
  rewrite !decode_time_window_eq by lia.
  rewrite <- !Qmult_assoc.
  apply Qmult_lt_r.
  - apply Qmult_lt_0_compat; [apply fraction_factor_pos; lia | exact Htu].
  - rewrite <- Zlt_Qlt. apply Z.pow_lt_mono_r; lia.
Qed.

Lemma decode_time_window_spec_witness :
  (_decode_time_window (3 + 32 * 2) (1 # 1024)
   == inject_Z (2 ^ 3) * (1 + inject_Z 2 / 4) * (1 # 1024))%Q /\
  (_decode_time_window (3 + 32 * 2) (1 # 1024)
   < _decode_time_window (4 + 32 * 2) (1 # 1024))%Q.
Proof.
  destruct decode_time_window_spec as [Hf [_ Hm]]. split.
  - apply Hf; lia.
  - apply Hm; try lia. reflexivity.
Defined.

(** ** Power-limit encoding *)

Lemma py_round_inject_Z (q : Q) (n : Z) : (q == inject_Z n)%Q -> py_round q = n.
Proof.
  intros H. unfold py_round.
  rewrite (Qfloor_comp _ _ H), Qfloor_Z.
  assert (E : (q - inject_Z n == 0)%Q).
  { setoid_rewrite H. unfold Qminus. apply Qplus_opp_r. }
  rewrite (Qcompare_comp _ _ E _ _ (Qeq_refl (1 # 2))). reflexivity.
Qed.

Lemma Qeq_bool_pos (pu : Q) : (0 < pu)%Q -> Qeq_bool pu 0 = false.
Proof.
  intros H. destruct (Qeq_bool pu 0) eqn:E; [|reflexivity].
  apply Qeq_bool_eq in E. rewrite E in H. discriminate.
Qed.

Lemma round_trip_field (n : Z) (pu : Q) :
  (0 < pu)%Q -> py_round (inject_Z n * pu / pu) = n.
Proof.
  intros H. apply py_round_inject_Z. apply Qdiv_mult_l.
  intros E. rewrite E in H. discriminate.
Qed.

Lemma encode_pl_watts_eq (raw : Z) (pl1 pl2 : option Q) (pu : Q) (w : World) :
  encode_pl_watts raw pl1 pl2 pu w =
  match pl_field pl1 pu with
  | Raise e => (Raise e, w)
  | Ok f1 =>
      match pl_field pl2 pu with
      | Raise e => (Raise e, w)
      | Ok f2 =>
          (Ok (set_bits (apply_limit (apply_limit raw 14 0 15 f1) 46 32 47 f2)
                        63 63 0), w)
      end
  end.
Proof.
  unfold encode_pl_watts, pl_field, py_div, bind, ret, raise, apply_limit.
  destruct pl1, pl2; destruct (Qeq_bool pu 0); reflexivity.
Qed.

Lemma lock_bit_cleared (x : Z) : Z.testbit (set_bits x 63 63 0) 63 = false.
Proof. rewrite testbit_set_bits by lia. reflexivity. Qed.

Lemma encode_pl_watts_lock (raw : Z) (pl1 pl2 : option Q) (pu : Q) (w : World)
      (v : Z) :
  fst (encode_pl_watts raw pl1 pl2 pu w) = Ok v -> Z.testbit v 63 = false.
Proof.
  rewrite encode_pl_watts_eq.
  destruct (pl_field pl1 pu); [|discriminate].
  destruct (pl_field pl2 pu); [|discriminate].
  cbn. intros [= <-]. apply lock_bit_cleared.
Qed.

Lemma apply_limit_u64 (raw hi lo : Z) (f : option Z) :
  0 <= lo -> lo <= hi -> hi + 1 <= 63 ->
  0 <= raw < 2 ^ 64 -> 0 <= apply_limit raw hi lo (hi + 1) f < 2 ^ 64.
Proof.
  intros Hlo Hhi H63 Hraw. destruct f as [f|]; [|exact Hraw].
  unfold apply_limit. apply set_bits_u64; try lia. apply set_bits_u64; lia.
Qed.

Lemma encode_pl_watts_u64 (raw : Z) (pl1 pl2 : option Q) (pu : Q) (w : World)
      (v : Z) :
  0 <= raw < 2 ^ 64 ->
  fst (encode_pl_watts raw pl1 pl2 pu w) = Ok v -> 0 <= v < 2 ^ 64.
Proof.
  intros Hraw. rewrite encode_pl_watts_eq.
  destruct (pl_field pl1 pu) as [f1|]; [|discriminate].
  destruct (pl_field pl2 pu) as [f2|]; [|discriminate].
  cbn. intros [= <-]. apply set_bits_u64; try lia.
  apply (apply_limit_u64 _ 46 32); try lia.
  apply (apply_limit_u64 _ 14 0); lia.
Qed.

Lemma encode_pl_watts_state (raw : Z) (pl1 pl2 : option Q) (pu : Q) (w : World) :
  snd (encode_pl_watts raw pl1 pl2 pu w) = w.
Proof.
  rewrite encode_pl_watts_eq.
  destruct (pl_field pl1 pu); [|reflexivity].
  destruct (pl_field pl2 pu); reflexivity.
Qed.

Lemma encode_pl_watts_any_world (raw : Z) (pl1 pl2 : option Q) (pu : Q)
      (w1 w2 : World) :
  fst (encode_pl_watts raw pl1 pl2 pu w1) = fst (encode_pl_watts raw pl1 pl2 pu w2).
Proof.
  rewrite !encode_pl_watts_eq.
  destruct (pl_field pl1 pu); [|reflexivity].
  destruct (pl_field pl2 pu); reflexivity.
Qed.

(** an absent PL2 leaves bits 32..47 as they were; an absent PL1 leaves
    bits 0..15 as they were *)
Lemma encode_keeps_pl2 (raw : Z) (pl1 : option Q) (pu : Q) (w : World) (v : Z) :
  fst (encode_pl_watts raw pl1 None pu w) = Ok v ->
  bits v 46 32 = bits raw 46 32 /\ bits v 47 47 = bits raw 47 47.
Proof.
  rewrite encode_pl_watts_eq.
  destruct (pl_field pl1 pu) as [f1|]; [|discriminate].
  cbn. intros [= <-]. unfold apply_limit.
  destruct f1 as [f1|]; rewrite ?bits_set_bits_other by lia; split; reflexivity.
Qed.

Lemma encode_keeps_pl1 (raw : Z) (pl2 : option Q) (pu : Q) (w : World) (v : Z) :
  fst (encode_pl_watts raw None pl2 pu w) = Ok v ->
  bits v 14 0 = bits raw 14 0 /\ bits v 15 15 = bits raw 15 15.
Proof.
  rewrite encode_pl_watts_eq. cbn [pl_field].
  destruct (pl_field pl2 pu) as [f2|]; [|discriminate].
  cbn. intros [= <-]. unfold apply_limit.
  destruct f2 as [f2|]; rewrite ?bits_set_bits_other by lia; split; reflexivity.
Qed.

Lemma encode_45_watts (raw : Z) (w : World) :
  exists v, encode_pl_watts raw (Some 45%Q) None (1 # 8) w = (Ok v, w) /\
            bits v 14 0 = 360 /\ bits v 15 15 = 1 /\
            bits v 46 32 = bits raw 46 32 /\ bits v 47 47 = bits raw 47 47.
Proof.
  eexists. split; [rewrite encode_pl_watts_eq; reflexivity|].
  cbn [apply_limit].
  change (py_round (45 / (1 # 8))) with 360.
  repeat split.
  - rewrite !bits_set_bits_other, bits_of_set_bits by lia. reflexivity.
  - rewrite bits_set_bits_other, bits_of_set_bits by lia. reflexivity.
  - now rewrite !bits_set_bits_other by lia.
  - now rewrite !bits_set_bits_other by lia.
Qed.

Lemma round_trip_value (r : Z) (pu tu : Q) (w : World) :
  (0 < pu)%Q ->
  let d := decode_power_limits r pu tu in
  encode_pl_watts r (Some (pl1_w d)) (Some (pl2_w d)) pu w =
  (Ok (set_bits (set_bits (set_bits r 15 15 1) 47 47 1) 63 63 0), w).
Proof.
  intros Hpu d. rewrite encode_pl_watts_eq. unfold pl_field.
  rewrite (Qeq_bool_pos pu Hpu). subst d. cbn [pl1_w pl2_w decode_power_limits].
  rewrite !round_trip_field by assumption. unfold apply_limit.
  rewrite set_bits_same_field by lia.
  replace (set_bits (set_bits r 15 15 1) 46 32 (bits r 46 32))
    with (set_bits r 15 15 1); [reflexivity|].
  rewrite <- (bits_set_bits_other r 1 46 32 15 15) by lia.
  symmetry. apply set_bits_same_field; lia.
Qed.

(** ** Running the MSR helpers *)

Lemma new_events_app (w w' : World) (evs : list event) :
  log w' = log w ++ evs -> new_events w w' = evs.
Proof.
  intros H. unfold new_events. rewrite H. clear H.
  induction (log w) as [|e l IH]; [reflexivity | exact IH].
Qed.

Lemma read_msr_eq (msr cpu : Z) (w : World) :
  read_msr msr cpu w =
  let w0 := emit (MsrRead cpu msr) w in
  match msr_read_err w cpu msr with
  | Some e => (Raise e, w0)
  | None =>
      if (List.length (firstn 8 (msr_data w cpu msr)) =? 8)%nat
      then (Ok (le_combine (firstn 8 (msr_data w cpu msr))), w0)
      else (Raise StructError, w0)
  end.
Proof.
  unfold read_msr, bind, tell, unpack_Q, ret, raise, emit.
  cbn [msr_read_err msr_data].
  destruct (msr_read_err w cpu msr); [reflexivity|].
  destruct (List.length (firstn 8 (msr_data w cpu msr)) =? 8)%nat; reflexivity.
Qed.

Lemma write_msr_eq (msr value cpu : Z) (w : World) :
  write_msr msr value cpu w =
  let w0 := emit (MsrWrite cpu msr value) w in
  match msr_open_err w cpu with
  | Some e => (Raise e, w0)
  | None =>
      if (0 <=? value) && (value <? 2 ^ 64)
      then match msr_write_err w cpu msr with
           | Some e => (Raise e, w0)
           | None => (Ok tt, store_msr cpu msr (le_split 8 value) w0)
           end
      else (Raise StructError, w0)
  end.
Proof.
  unfold write_msr, bind, tell, pack_Q, ret, raise, emit.
  cbn [msr_open_err msr_write_err].
  destruct (msr_open_err w cpu); [reflexivity|].
  destruct ((0 <=? value) && (value <? 2 ^ 64)); [|reflexivity].
  cbn [msr_write_err]. destruct (msr_write_err w cpu msr); reflexivity.
Qed.

Lemma le_combine_u64 (bs : list byte) :
  List.length bs = 8%nat -> 0 <= le_combine bs < 2 ^ 64.
Proof.
  intros H. pose proof (le_combine_bound bs) as B. rewrite H in B. exact B.
Qed.

Lemma read_msr_u64 (msr cpu : Z) (w : World) (v : Z) :
  fst (read_msr msr cpu w) = Ok v -> 0 <= v < 2 ^ 64.
Proof.
  rewrite read_msr_eq. cbn zeta.
  destruct (msr_read_err w cpu msr); [discriminate|].
  destruct (List.length (firstn 8 (msr_data w cpu msr)) =? 8)%nat eqn:E;
    [|discriminate].
  cbn. intros [= <-]. apply le_combine_u64. now apply Nat.eqb_eq.
Qed.

(** The broadcast loop: what it logs, what it leaves in the registers. *)
Lemma broadcast_loop (msr v : Z) (cpus : list Z) :
  forall w res w',
    for_each cpus (fun cpu => write_msr msr v cpu) w = (res, w') ->
    (exists done, log w' = log w ++ map (fun c => MsrWrite c msr v) done /\
                  (res = Ok tt -> done = cpus)) /\
    dev_cpu w' = dev_cpu w /\
    (forall c a, msr_data w' c a = msr_data w c a \/
                 (a = msr /\ msr_data w' c a = le_split 8 v)) /\
    (res = Ok tt -> forall c, In c cpus -> msr_data w' c msr = le_split 8 v).
Proof.
  induction cpus as [|x rest IH]; intros w res w' Hrun.
  - cbn in Hrun. injection Hrun as <- <-. repeat split.
    + exists []. split; [cbn; now rewrite app_nil_r | reflexivity].
    + intros c a. now left.
    + intros _ c [].
  - cbn [for_each] in Hrun. unfold bind in Hrun. rewrite write_msr_eq in Hrun.
    cbn zeta in Hrun.
    assert (Hfail : forall e,
               (res, w') = (Raise e, emit (MsrWrite x msr v) w) ->
               (exists done, log w' = log w ++ map (fun c => MsrWrite c msr v) done /\
                             (res = Ok tt -> done = x :: rest)) /\
               dev_cpu w' = dev_cpu w /\
               (forall c a, msr_data w' c a = msr_data w c a \/
                            (a = msr /\ msr_data w' c a = le_split 8 v)) /\
               (res = Ok tt -> forall c, In c (x :: rest) ->
                                         msr_data w' c msr = le_split 8 v)).
    { intros e [= -> ->]. repeat split.
      - exists [x]. split; [reflexivity | discriminate].
      - intros c a. now left.
      - discriminate. }
    destruct (msr_open_err w x); [symmetry in Hrun; eauto|].
    destruct ((0 <=? v) && (v <? 2 ^ 64)); [|symmetry in Hrun; eauto].
    destruct (msr_write_err w x msr); [symmetry in Hrun; eauto|].
    clear Hfail. apply IH in Hrun.
    destruct Hrun as [[done [Hlog Hdone]] [Hdev [Hframe Hall]]].
    cbn in Hlog, Hdev, Hframe. repeat split.
    + exists (x :: done). split.
      * rewrite Hlog, <- app_assoc. reflexivity.
      * intros Hok. now rewrite Hdone.
    + exact Hdev.
    + intros c a. destruct (Hframe c a) as [Hsame | Hnew]; [|now right].
      destruct ((c =? x) && (a =? msr)) eqn:E; [|now left].
      right. apply andb_true_iff in E. destruct E as [_ Ea].
      apply Z.eqb_eq in Ea. now split.
    + intros Hok c [<- | Hin]; [|now apply Hall].
      destruct (Hframe x msr) as [Hsame | [_ Hnew]]; [|exact Hnew].
      rewrite Hsame, !Z.eqb_refl. reflexivity.
Qed.

Lemma write_msr_all_cpus_eq (msr v : Z) (w : World) :
  write_msr_all_cpus msr v w =
  match fst (online_cpus w) with
  | Raise e => (Raise e, w)
  | Ok cpus => for_each cpus (fun cpu => write_msr msr v cpu) w
  end.
Proof.
  unfold write_msr_all_cpus, bind, online_cpus.
  destruct (dev_cpu w); reflexivity.
Qed.

Lemma write_pl_watts_eq (pl1 pl2 : option Q) (pu : Q) (w : World) :
  write_pl_watts pl1 pl2 pu w =
  let w0 := emit (MsrRead 0 MSR_PKG_POWER_LIMIT) w in
  match fst (read_msr MSR_PKG_POWER_LIMIT 0 w) with
  | Raise e => (Raise e, w0)
  | Ok raw =>
      match fst (encode_pl_watts raw pl1 pl2 pu w) with
      | Raise e => (Raise e, w0)
      | Ok v => write_msr_all_cpus MSR_PKG_POWER_LIMIT v w0
      end
  end.
Proof.
  unfold write_pl_watts, bind at 1. rewrite read_msr_eq. cbn zeta.
  destruct (msr_read_err w 0 MSR_PKG_POWER_LIMIT); [reflexivity|].
  destruct (List.length _ =? 8)%nat; [|reflexivity].
  cbn [fst]. unfold bind.
  rewrite (surjective_pairing (encode_pl_watts _ pl1 pl2 pu _)).
  rewrite encode_pl_watts_state.
  rewrite (encode_pl_watts_any_world _ pl1 pl2 pu _ w).
  destruct (fst (encode_pl_watts _ pl1 pl2 pu w)); reflexivity.
Qed.

Lemma read_msr_cpu0 (w : World) (raw : Z) :
  fst (read_msr MSR_PKG_POWER_LIMIT 0 w) = Ok raw -> raw = pkg_limit_cpu0 w.
Proof.
  rewrite read_msr_eq. cbn zeta.
  destruct (msr_read_err w 0 MSR_PKG_POWER_LIMIT); [discriminate|].
  destruct (List.length _ =? 8)%nat; [|discriminate].
  cbn. now intros [= <-].
Qed.

(** What a run of [write_pl_watts] adds to the log: the read of CPU 0, then
    either nothing or one and the same encoded value for a run of CPUs. *)
Lemma write_pl_watts_log (pl1 pl2 : option Q) (pu : Q) (w : World) :
  let w' := snd (write_pl_watts pl1 pl2 pu w) in
  new_events w w' = [MsrRead 0 MSR_PKG_POWER_LIMIT] \/
  exists v done,
    0 <= pkg_limit_cpu0 w < 2 ^ 64 /\
    fst (encode_pl_watts (pkg_limit_cpu0 w) pl1 pl2 pu w) = Ok v /\
    new_events w w' =
    MsrRead 0 MSR_PKG_POWER_LIMIT
    :: map (fun c => MsrWrite c MSR_PKG_POWER_LIMIT v) done.
Proof.
  cbn zeta. rewrite write_pl_watts_eq. cbn zeta.
  destruct (fst (read_msr MSR_PKG_POWER_LIMIT 0 w)) as [raw|e] eqn:Hread;
    [|left; now apply new_events_app].
  pose proof (read_msr_u64 _ _ _ _ Hread) as Hrange.
  apply read_msr_cpu0 in Hread. subst raw.
  destruct (fst (encode_pl_watts _ pl1 pl2 pu w)) as [v|e] eqn:Henc;
    [|left; now apply new_events_app].
  rewrite write_msr_all_cpus_eq.
  destruct (fst (online_cpus _)) as [cpus|e]; [|left; now apply new_events_app].
  destruct (for_each cpus _ _) as [res w'] eqn:Hrun.
  apply broadcast_loop in Hrun. destruct Hrun as [[done [Hlog _]] _].
  right. exists v, done. repeat split; try assumption; try apply Hrange.
  apply new_events_app. cbn [snd]. rewrite Hlog. cbn. now rewrite <- app_assoc.
Qed.

Lemma written_values_map (msr v : Z) (cs : list Z) :
  written_values msr (map (fun c => MsrWrite c msr v) cs) = map (fun _ => v) cs.
Proof.
  induction cs as [|c cs IH]; [reflexivity|].
  cbn. rewrite Z.eqb_refl. now rewrite IH.
Qed.

Lemma broadcasts_write_pl_watts (P : Z -> Prop) (pl1 pl2 : option Q) (pu : Q)
      (w : World) :
  (forall v, 0 <= pkg_limit_cpu0 w < 2 ^ 64 ->
             fst (encode_pl_watts (pkg_limit_cpu0 w) pl1 pl2 pu w) = Ok v -> P v) ->
  Forall P (broadcasts (write_pl_watts pl1 pl2 pu) w).
Proof.
  intros HP. unfold broadcasts.
  destruct (write_pl_watts_log pl1 pl2 pu w) as [-> | [v [done [Hr [Henc ->]]]]].
  - constructor.
  - cbn [written_values]. rewrite written_values_map.
    apply Forall_forall. intros x Hx. apply in_map_iff in Hx.
    destruct Hx as [_ [<- _]]. now apply HP.
Qed.

Lemma writes_satisfy_write_pl_watts (P : Z -> Prop) (pl1 pl2 : option Q) (pu : Q)
      (w : World) :
  (forall v, 0 <= pkg_limit_cpu0 w < 2 ^ 64 ->
             fst (encode_pl_watts (pkg_limit_cpu0 w) pl1 pl2 pu w) = Ok v -> P v) ->
  writes_satisfy P (new_events w (snd (write_pl_watts pl1 pl2 pu w))).
Proof.
  intros HP. unfold writes_satisfy.
  destruct (write_pl_watts_log pl1 pl2 pu w) as [-> | [v [done [Hr [Henc ->]]]]].
  - repeat constructor.
  - constructor; [exact I|]. apply Forall_forall. intros e He.
    apply in_map_iff in He. destruct He as [c [<- _]]. split; [reflexivity|].
    now apply HP.
Qed.

(** The units of a session are positive: both are [1 / 2^k]. *)
Lemma unit_positive (k : Z) : 0 <= k -> (0 < 1 / inject_Z (Z.shiftl 1 k))%Q.
Proof.
  intros Hk. rewrite Z.shiftl_1_l. unfold Qdiv. rewrite Qmult_1_l.
  apply Qinv_lt_0_compat. change 0%Q with (inject_Z 0). rewrite <- Zlt_Qlt.
  apply Z.pow_pos_nonneg; lia.
Qed.

Lemma read_rapl_units_positive (w w' : World) (pu tu : Q) :
  read_rapl_units w = (Ok (pu, tu), w') -> (0 < pu)%Q /\ (0 < tu)%Q.
Proof.
  unfold read_rapl_units, bind. rewrite read_msr_eq. cbn zeta.
  destruct (msr_read_err w 0 MSR_RAPL_POWER_UNIT); [discriminate|].
  destruct (List.length _ =? 8)%nat; [|discriminate].
  unfold ret. intros [= <- <- _].
  split; apply unit_positive; apply bits_range; lia.
Qed.

(** ** Claims about the power-limit write *)

(** C1. Whatever CPU 0's register held and whatever wattages are passed,
    every value [write_pl_watts] hands to [write_msr] goes to the package
    power-limit register, is a 64-bit value and has bit 63 (the lock bit)
    clear; so has the value it computes from any pre-read value, also one
    with bit 63 set. *)
Theorem write_pl_watts_never_locks (pl1 pl2 : option Q) (pu : Q) (w : World) :
  writes_satisfy (fun v => Z.testbit v 63 = false /\ 0 <= v < 2 ^ 64)
                 (new_events w (snd (write_pl_watts pl1 pl2 pu w))) /\
  (forall raw v, fst (encode_pl_watts raw pl1 pl2 pu w) = Ok v ->
                 Z.testbit v 63 = false).
Proof.
  split.
  - apply writes_satisfy_write_pl_watts. intros v Hr Henc. split.
    + eapply encode_pl_watts_lock; eassumption.
    + eapply encode_pl_watts_u64; eassumption.
  - intros raw v. apply encode_pl_watts_lock.
Qed.

Lemma write_pl_watts_never_locks_witness :
  Z.testbit 0xFFFFFFFFFFFFFFFF 63 = true /\
  fst (encode_pl_watts 0xFFFFFFFFFFFFFFFF (Some 45%Q) (Some 55%Q) (1 # 8)
                       (quiet_world ["0"%string] 0 "auto"))
  = Ok 0x7FFF81B8FFFF8168 /\
  Z.testbit 0x7FFF81B8FFFF8168 63 = false.
Proof.
  split; [reflexivity|]. split; [vm_compute; reflexivity|].
  apply (proj2 (write_pl_watts_never_locks
                  (Some 45%Q) (Some 55%Q) (1 # 8)
                  (quiet_world ["0"%string] 0 "auto")) 0xFFFFFFFFFFFFFFFF).
  vm_compute. reflexivity.
Defined.

(** On a machine with two CPUs whose registers have the lock bit set, the
    broadcast happens and carries the bit cleared. *)
Example write_pl_watts_locked_register :
  broadcasts (write_pl_watts (Some 45%Q) None (1 # 8))
             (quiet_world ["1"; "0"; "microcode"]%string 0x8000000000000000 "auto")
  = [0x8168; 0x8168].
Proof. vm_compute. reflexivity. Qed.

Lemma read_power_limits_eq (pu tu : Q) (w : World) (d : PowerLimits)
      (w1 : World) :
  read_power_limits pu tu w = (Ok d, w1) ->
  d = decode_power_limits (pkg_limit_cpu0 w) pu tu /\
  w1 = emit (MsrRead 0 MSR_PKG_POWER_LIMIT) w.
Proof.
  unfold read_power_limits, bind at 1. rewrite read_msr_eq. cbn zeta.
  destruct (msr_read_err w 0 MSR_PKG_POWER_LIMIT); [discriminate|].
  destruct (List.length _ =? 8)%nat; [|discriminate].
  unfold ret. intros [= <- <-]. split; reflexivity.
Qed.

Lemma round_trip_bits (r i : Z) :
  0 <= i ->
  Z.testbit (set_bits (set_bits (set_bits r 15 15 1) 47 47 1) 63 63 0) i =
  if i =? 63 then false
  else if (i =? 15) || (i =? 47) then true else Z.testbit r i.
Proof.
  intros Hi. rewrite !testbit_set_bits by lia.
  destruct (Z.eqb_spec i 63) as [-> | H63]; [reflexivity|].
  destruct (Z.eqb_spec i 47) as [-> | H47]; [reflexivity|].
  destruct (Z.eqb_spec i 15) as [-> | H15]; [reflexivity|].
  destruct (Z.leb_spec 63 i), (Z.leb_spec i 63); cbn [andb orb]; try lia;
    destruct (Z.leb_spec 47 i), (Z.leb_spec i 47); cbn [andb orb]; try lia;
      destruct (Z.leb_spec 15 i), (Z.leb_spec i 15); cbn [andb orb]; try lia;
        reflexivity.
Qed.

(** C2 (as the code has it). Decoding a power-limit register value [r] and
    writing the decoded wattages back with the same (positive) power unit
    yields a value that agrees with [r] on every bit except bit 63, which
    is 0, and bits 15 and 47 (the PL1 and PL2 enable bits), which are 1. *)
Theorem power_limits_round_trip (r : Z) (pu tu : Q) (w : World) :
  (0 < pu)%Q ->
  (let d := decode_power_limits r pu tu in
   exists v,
     encode_pl_watts r (Some (pl1_w d)) (Some (pl2_w d)) pu w = (Ok v, w) /\
     forall i, 0 <= i ->
               Z.testbit v i =
               if i =? 63 then false
               else if (i =? 15) || (i =? 47) then true else Z.testbit r i) /\
  (forall d w1,
     read_power_limits pu tu w = (Ok d, w1) ->
     Forall (fun v =>
               forall i, 0 <= i ->
                         Z.testbit v i =
                         if i =? 63 then false
                         else if (i =? 15) || (i =? 47) then true
                              else Z.testbit (pkg_limit_cpu0 w) i)
            (broadcasts (write_pl_watts (Some (pl1_w d)) (Some (pl2_w d)) pu) w1)).
Proof.
  intros Hpu. split.
  - cbn zeta. eexists. split; [now apply round_trip_value|].
    intros i Hi. now apply round_trip_bits.
  - intros d w1 Hread. apply read_power_limits_eq in Hread.
    destruct Hread as [-> ->].
    apply broadcasts_write_pl_watts. intros v _.
    change (pkg_limit_cpu0 (emit (MsrRead 0 MSR_PKG_POWER_LIMIT) w))
      with (pkg_limit_cpu0 w).
    rewrite round_trip_value by assumption. cbn [fst]. intros [= <-] i Hi.
    now apply round_trip_bits.
Qed.

Lemma power_limits_round_trip_witness :
  (0 < 1 # 8)%Q /\
  exists v,
    encode_pl_watts 0x00DD8000005F8168
      (Some (pl1_w (decode_power_limits 0x00DD8000005F8168 (1 # 8) (1 # 1024))))
      (Some (pl2_w (decode_power_limits 0x00DD8000005F8168 (1 # 8) (1 # 1024))))
      (1 # 8) (quiet_world ["0"%string] 0x00DD8000005F8168 "auto")
    = (Ok v, quiet_world ["0"%string] 0x00DD8000005F8168 "auto") /\
    forall i, 0 <= i ->
              Z.testbit v i =
              if i =? 63 then false
              else if (i =? 15) || (i =? 47) then true
                   else Z.testbit 0x00DD8000005F8168 i.
Proof.
  split; [reflexivity|].
  apply (proj1 (power_limits_round_trip
                  0x00DD8000005F8168 (1 # 8) (1 # 1024)
                  (quiet_world ["0"%string] 0x00DD8000005F8168 "auto")
                  eq_refl)).
Defined.

(** C2 as stated fails: a register with both limits disabled (here the
    all-zero value) comes back with bits 15 and 47 set, so the written
    value differs from the original in more than bit 63. *)
Lemma round_trip_sets_enable_bits :
  let r := 0 in
  let d := decode_power_limits r (1 # 8) (1 # 1024) in
  fst (encode_pl_watts r (Some (pl1_w d)) (Some (pl2_w d)) (1 # 8)
                       (quiet_world ["0"%string] r "auto"))
  = Ok 0x800000008000 /\
  Z.testbit 0x800000008000 15 <> Z.testbit r 15 /\
  Z.testbit 0x800000008000 47 <> Z.testbit r 47.
Proof. vm_compute. repeat split; discriminate. Qed.

(** The 45 W write on a machine whose register holds PL2 = 55 W enabled. *)
Example write_45_watts_run :
  broadcasts (write_pl_watts (Some 45%Q) None (1 # 8))
             (quiet_world ["0"; "1"]%string 0x81B800000118 "auto")
  = [0x81B800008168; 0x81B800008168] /\
  bits 0x81B800008168 46 32 = bits 0x81B800000118 46 32.
Proof. vm_compute. split; reflexivity. Qed.

(** ** The value broadcast depends on CPU 0 only *)

Lemma write_msr_with_data (msr v c : Z) (d : Z -> Z -> list byte) (w : World) :
  exists d',
    write_msr msr v c (with_msr_data d w) =
    (fst (write_msr msr v c w), with_msr_data d' (snd (write_msr msr v c w))).
Proof.
  rewrite !write_msr_eq. cbn zeta.
  change (msr_open_err (with_msr_data d w) c) with (msr_open_err w c).
  change (msr_write_err (with_msr_data d w) c msr) with (msr_write_err w c msr).
  destruct (msr_open_err w c); [exists d; reflexivity|].
  destruct ((0 <=? v) && (v <? 2 ^ 64)); [|exists d; reflexivity].
  destruct (msr_write_err w c msr); [exists d; reflexivity|].
  exists (fun c' a => if (c' =? c) && (a =? msr) then le_split 8 v else d c' a).
  reflexivity.
Qed.

Lemma broadcast_with_data (msr v : Z) (cpus : list Z) :
  forall (d : Z -> Z -> list byte) (w : World),
  exists d',
    for_each cpus (fun cpu => write_msr msr v cpu) (with_msr_data d w) =
    (fst (for_each cpus (fun cpu => write_msr msr v cpu) w),
     with_msr_data d' (snd (for_each cpus (fun cpu => write_msr msr v cpu) w))).
Proof.
  induction cpus as [|x rest IH]; intros d w.
  - exists d. reflexivity.
  - cbn [for_each]. unfold bind.
    destruct (write_msr_with_data msr v x d w) as [d1 H1]. rewrite H1.
    destruct (write_msr msr v x w) as [[[]|e] w1]; cbn [fst snd].
    + apply IH.
    + exists d1. reflexivity.
Qed.

Lemma online_cpus_dev (w1 w2 : World) :
  dev_cpu w1 = dev_cpu w2 -> fst (online_cpus w1) = fst (online_cpus w2).
Proof.
  intros H. unfold online_cpus. rewrite H. destruct (dev_cpu w2); reflexivity.
Qed.

Lemma write_pl_watts_with_data (pl1 pl2 : option Q) (pu : Q)
      (d : Z -> Z -> list byte) (w : World) :
  d 0 MSR_PKG_POWER_LIMIT = msr_data w 0 MSR_PKG_POWER_LIMIT ->
  exists d',
    write_pl_watts pl1 pl2 pu (with_msr_data d w) =
    (fst (write_pl_watts pl1 pl2 pu w),
     with_msr_data d' (snd (write_pl_watts pl1 pl2 pu w))).
Proof.
  intros Hd. rewrite !write_pl_watts_eq. cbn zeta.
  assert (Hread : fst (read_msr MSR_PKG_POWER_LIMIT 0 (with_msr_data d w))
                  = fst (read_msr MSR_PKG_POWER_LIMIT 0 w)).
  { rewrite !read_msr_eq. cbn zeta.
    change (msr_read_err (with_msr_data d w) 0 MSR_PKG_POWER_LIMIT)
      with (msr_read_err w 0 MSR_PKG_POWER_LIMIT).
    change (msr_data (with_msr_data d w) 0 MSR_PKG_POWER_LIMIT)
      with (d 0 MSR_PKG_POWER_LIMIT).
    rewrite Hd.
    destruct (msr_read_err w 0 MSR_PKG_POWER_LIMIT); [reflexivity|].
    destruct (List.length _ =? 8)%nat; reflexivity. }
  rewrite Hread.
  destruct (fst (read_msr MSR_PKG_POWER_LIMIT 0 w)) as [raw|e];
    [|exists d; reflexivity].
  rewrite (encode_pl_watts_any_world raw pl1 pl2 pu (with_msr_data d w) w).
  destruct (fst (encode_pl_watts raw pl1 pl2 pu w)) as [v|e];
    [|exists d; reflexivity].
  rewrite !write_msr_all_cpus_eq.
  change (emit (MsrRead 0 MSR_PKG_POWER_LIMIT) (with_msr_data d w))
    with (with_msr_data d (emit (MsrRead 0 MSR_PKG_POWER_LIMIT) w)).
  rewrite (online_cpus_dev
             (with_msr_data d (emit (MsrRead 0 MSR_PKG_POWER_LIMIT) w))
             (emit (MsrRead 0 MSR_PKG_POWER_LIMIT) w) eq_refl).
  destruct (fst (online_cpus _)) as [cpus|e]; [|exists d; reflexivity].
  apply broadcast_with_data.
Qed.

Lemma write_pl_watts_reads (pl1 pl2 : option Q) (pu : Q) (w : World) :
  filter is_msr_read (new_events w (snd (write_pl_watts pl1 pl2 pu w)))
  = [MsrRead 0 MSR_PKG_POWER_LIMIT].
Proof.
  destruct (write_pl_watts_log pl1 pl2 pu w) as [-> | [v [done [_ [_ ->]]]]];
    [reflexivity|].
  cbn [filter is_msr_read]. f_equal.
  induction done as [|c cs IH]; [reflexivity | exact IH].
Qed.

(** C10. [write_pl_watts] reads one register, CPU 0's; two machines that
    differ only in the power-limit registers of other CPUs see the same
    outcome and the same calls with the same values; and after a call that
    returns normally every online CPU's power-limit register holds the same
    eight bytes, those of the value encoded from CPU 0's register. *)
Theorem write_pl_watts_from_cpu0 (pl1 pl2 : option Q) (pu : Q) (w : World) :
  filter is_msr_read (new_events w (snd (write_pl_watts pl1 pl2 pu w)))
  = [MsrRead 0 MSR_PKG_POWER_LIMIT] /\
  (forall d,
      (forall c a, c = 0 \/ a <> MSR_PKG_POWER_LIMIT -> d c a = msr_data w c a) ->
      fst (write_pl_watts pl1 pl2 pu (with_msr_data d w))
      = fst (write_pl_watts pl1 pl2 pu w) /\
      new_events (with_msr_data d w)
                 (snd (write_pl_watts pl1 pl2 pu (with_msr_data d w)))
      = new_events w (snd (write_pl_watts pl1 pl2 pu w)) /\
      broadcasts (write_pl_watts pl1 pl2 pu) (with_msr_data d w)
      = broadcasts (write_pl_watts pl1 pl2 pu) w) /\
  (forall w',
      write_pl_watts pl1 pl2 pu w = (Ok tt, w') ->
      exists v,
        fst (encode_pl_watts (pkg_limit_cpu0 w) pl1 pl2 pu w) = Ok v /\
        forall cpus, fst (online_cpus w') = Ok cpus ->
                     forall c, In c cpus ->
                               msr_data w' c MSR_PKG_POWER_LIMIT = le_split 8 v).
Proof.
  split; [apply write_pl_watts_reads|]. split.
  - intros d Hd.
    destruct (write_pl_watts_with_data pl1 pl2 pu d w) as [d' Hrun].
    { apply Hd. now left. }
    assert (Hev : new_events (with_msr_data d w)
                             (snd (write_pl_watts pl1 pl2 pu (with_msr_data d w)))
                  = new_events w (snd (write_pl_watts pl1 pl2 pu w))).
    { rewrite Hrun. reflexivity. }
    split; [now rewrite Hrun|]. split; [exact Hev|].
    unfold broadcasts. now rewrite Hev.
  - intros w' Hrun. rewrite write_pl_watts_eq in Hrun. cbn zeta in Hrun.
    destruct (fst (read_msr MSR_PKG_POWER_LIMIT 0 w)) as [raw|e] eqn:Hread;
      [|discriminate].
    apply read_msr_cpu0 in Hread. subst raw.
    destruct (fst (encode_pl_watts _ pl1 pl2 pu w)) as [v|e]; [|discriminate].
    exists v. split; [reflexivity|].
    rewrite write_msr_all_cpus_eq in Hrun.
    destruct (fst (online_cpus _)) as [cpus0|e] eqn:Hon; [|discriminate].
    apply broadcast_loop in Hrun. destruct Hrun as [_ [Hdev [_ Hall]]].
    intros cpus Hcpus c Hin.
    rewrite (online_cpus_dev _ _ Hdev), Hon in Hcpus. injection Hcpus as <-.
    now apply Hall.
Qed.

Lemma write_pl_watts_from_cpu0_witness :
  let w := quiet_world ["0"; "1"; "2"; "3"]%string 0x00DD8000005F8118 "auto" in
  let d := fun c a => if (c =? 2) && (a =? MSR_PKG_POWER_LIMIT)
                      then le_split 8 0x42 else msr_data w c a in
  (forall c a, c = 0 \/ a <> MSR_PKG_POWER_LIMIT -> d c a = msr_data w c a) /\
  broadcasts (write_pl_watts (Some 45%Q) None (1 # 8)) (with_msr_data d w)
  = broadcasts (write_pl_watts (Some 45%Q) None (1 # 8)) w.
Proof.
  intros w d.
  assert (Hd : forall c a, c = 0 \/ a <> MSR_PKG_POWER_LIMIT ->
                           d c a = msr_data w c a).
  { intros c a H. unfold d.
    destruct (Z.eqb_spec c 2) as [-> | _]; [|reflexivity].
    destruct (Z.eqb_spec a MSR_PKG_POWER_LIMIT) as [-> | _]; [|reflexivity].
    destruct H as [H | H]; [discriminate H | now elim H]. }
  split; [exact Hd|].
  apply (proj1 (proj2 (write_pl_watts_from_cpu0 (Some 45%Q) None (1 # 8) w)) d Hd).
Defined.

(** After the broadcast on a four-CPU machine, all four registers agree. *)
Example write_pl_watts_all_cpus_agree :
  let w := quiet_world ["0"; "1"; "2"; "3"]%string 0x00DD8000005F8118 "auto" in
  let w' := snd (write_pl_watts (Some 45%Q) None (1 # 8) w) in
  fst (write_pl_watts (Some 45%Q) None (1 # 8) w) = Ok tt /\
  map (fun c => le_combine (msr_data w' c MSR_PKG_POWER_LIMIT)) [0; 1; 2; 3]
  = [0x00DD8000005F8168; 0x00DD8000005F8168;
     0x00DD8000005F8168; 0x00DD8000005F8168].
Proof. vm_compute. split; reflexivity. Qed.

(** ** Topology enumerator *)

Lemma collect_loop (entries : list string) :
  forall acc,
    fold_left (fun cpus entry =>
                 if isdigit entry then cpus ++ [py_int entry] else cpus)
              entries acc
    = acc ++ map py_int (filter isdigit entries).
Proof.
  induction entries as [|e rest IH]; intros acc; cbn [fold_left filter map].
  - now rewrite app_nil_r.
  - rewrite IH. destruct (isdigit e); [|reflexivity].
    cbn [map]. now rewrite <- app_assoc.
Qed.

Lemma insert_sorted_perm (x : Z) (l : list Z) :
  Permutation (insert_sorted x l) (x :: l).
Proof.
  induction l as [|y rest IH]; cbn [insert_sorted]; [reflexivity|].
  destruct (x <=? y); [reflexivity|].
  apply perm_trans with (y :: x :: rest); [now constructor | apply perm_swap].
Qed.

Lemma sorted_perm (l : list Z) : Permutation (sorted l) l.
Proof.
  induction l as [|x rest IH]; cbn [sorted]; [constructor|].
  apply perm_trans with (x :: sorted rest);
    [apply insert_sorted_perm | now constructor].
Qed.

Lemma insert_sorted_hd (x a : Z) (l : list Z) :
  a <= x -> HdRel Z.le a l -> HdRel Z.le a (insert_sorted x l).
Proof.
  intros Hax Hl. destruct l as [|y rest]; cbn [insert_sorted].
  - now constructor.
  - destruct (x <=? y); constructor; [assumption|]. now inversion Hl.
Qed.

Lemma insert_sorted_sorted (x : Z) (l : list Z) :
  Sorted Z.le l -> Sorted Z.le (insert_sorted x l).
Proof.
  induction 1 as [|y rest Hrest IH Hhd]; cbn [insert_sorted].
  - repeat constructor.
  - destruct (Z.leb_spec x y) as [Hxy | Hyx].
    + constructor; [now constructor | now constructor].
    + constructor; [exact IH|]. apply insert_sorted_hd; [lia | exact Hhd].
Qed.

Lemma sorted_sorted (l : list Z) : Sorted Z.le (sorted l).
Proof.
  induction l as [|x rest IH]; cbn [sorted]; [constructor|].
  now apply insert_sorted_sorted.
Qed.

Lemma online_cpus_listing (w : World) (entries : list string) :
  dev_cpu w = Some entries ->
  online_cpus w = (Ok (sorted (map py_int (filter isdigit entries))), w).
Proof.
  intros H. unfold online_cpus. rewrite H, collect_loop. reflexivity.
Qed.

(** C9 (as the code has it). When [/dev/cpu] exists, [online_cpus] returns
    the purely numeric entry names read as integers, in ascending order
    (nothing dropped, nothing added), and the empty list for an empty
    directory; when [/dev/cpu] is absent, [os.listdir] raises and
    [online_cpus] raises [FileNotFoundError] with it. *)
Theorem online_cpus_spec (w : World) :
  (forall entries,
      dev_cpu w = Some entries ->
      exists cpus,
        online_cpus w = (Ok cpus, w) /\
        Sorted Z.le cpus /\
        Permutation cpus (map py_int (filter isdigit entries))) /\
  (dev_cpu w = Some [] -> online_cpus w = (Ok [], w)) /\
  (dev_cpu w = None -> online_cpus w = (Raise FileNotFoundError, w)).
Proof.
  repeat split.
  - intros entries H. eexists. split; [exact (online_cpus_listing w entries H)|].
    split; [apply sorted_sorted | apply sorted_perm].
  - intros H. now rewrite (online_cpus_listing w [] H).
  - intros H. unfold online_cpus. now rewrite H.
Qed.

Lemma online_cpus_spec_witness :
  let w := quiet_world ["3"; "0"; "microcode"; "10"; "2"; "cpu1"; ""]%string
                       0 "auto" in
  dev_cpu w = Some ["3"; "0"; "microcode"; "10"; "2"; "cpu1"; ""]%string /\
  online_cpus w = (Ok [0; 2; 3; 10], w) /\
  dev_cpu no_msr_world = None /\
  online_cpus no_msr_world = (Raise FileNotFoundError, no_msr_world).
Proof.
  intros w. split; [reflexivity|]. split; [reflexivity|].
  split; [reflexivity|].
  apply (proj2 (proj2 (online_cpus_spec no_msr_world))). reflexivity.
Defined.

(** C9 as stated fails: with [/dev/cpu] absent the call does not return the
    empty list, it raises. *)
Lemma online_cpus_absent_directory_raises :
  dev_cpu no_msr_world = None /\
  fst (online_cpus no_msr_world) = Raise FileNotFoundError /\
  fst (online_cpus no_msr_world) <> Ok [].
Proof. repeat split. discriminate. Qed.

(** ** Turbo-ratio validation *)

Lemma collect_ratios_ints (ns : list Z) :
  forall acc w,
    collect_ratios (map TextInt ns) acc w =
    if forallb ratio_in_range ns
    then (Ok (Some (acc ++ ns)), w)
    else (Ok None, emit (Dialog Warning "Input Error") w).
Proof.
  induction ns as [|n rest IH]; intros acc w; cbn [map collect_ratios forallb].
  - unfold ret. now rewrite app_nil_r.
  - unfold ratio_in_range at 1.
    destruct ((n <? 20) || (n >? 42)); cbn [negb andb].
    + reflexivity.
    + rewrite IH. now rewrite <- app_assoc.
Qed.

Lemma apply_ratios_rejects (self : Gui) (ns : list Z) (w : World) :
  ratio_inputs self = map TextInt ns ->
  forallb ratio_in_range ns && negb (order_violated ns) = false ->
  _apply_ratios self w = (Ok tt, emit (Dialog Warning "Input Error") w).
Proof.
  intros Hin Hbad. unfold _apply_ratios, bind at 1.
  rewrite Hin, collect_ratios_ints. cbn [app].
  destruct (forallb ratio_in_range ns); [|reflexivity].
  cbn [andb] in Hbad. apply negb_false_iff in Hbad. rewrite Hbad. reflexivity.
Qed.

Lemma four_entries_bad (e0 e1 e2 e3 : Z) :
  (e0 < 20 \/ 42 < e0) \/ (e1 < 20 \/ 42 < e1) \/
  (e2 < 20 \/ 42 < e2) \/ (e3 < 20 \/ 42 < e3) \/
  e0 < e1 \/ e1 < e2 \/ e2 < e3 ->
  forallb ratio_in_range [e0; e1; e2; e3]
  && negb (order_violated [e0; e1; e2; e3]) = false.
Proof.
  intros H. cbn [forallb order_violated]. unfold ratio_in_range.
  rewrite !Z.gtb_ltb.
  destruct (Z.ltb_spec e0 20), (Z.ltb_spec 42 e0); cbn [orb negb andb];
    try reflexivity;
  destruct (Z.ltb_spec e1 20), (Z.ltb_spec 42 e1); cbn [orb negb andb];
    try reflexivity;
  destruct (Z.ltb_spec e2 20), (Z.ltb_spec 42 e2); cbn [orb negb andb];
    try reflexivity;
  destruct (Z.ltb_spec e3 20), (Z.ltb_spec 42 e3); cbn [orb negb andb];
    try reflexivity;
  destruct (Z.ltb_spec e0 e1); cbn [orb negb andb]; try reflexivity;
  destruct (Z.ltb_spec e1 e2); cbn [orb negb andb]; try reflexivity;
  destruct (Z.ltb_spec e2 e3); cbn [orb negb andb]; try reflexivity;
  lia.
Qed.

Lemma four_entries_good (e0 e1 e2 e3 : Z) :
  20 <= e0 <= 42 -> 20 <= e1 <= 42 -> 20 <= e2 <= 42 -> 20 <= e3 <= 42 ->
  e0 >= e1 -> e1 >= e2 -> e2 >= e3 ->
  forallb ratio_in_range [e0; e1; e2; e3] = true /\
  order_violated [e0; e1; e2; e3] = false.
Proof.
  intros H0 H1 H2 H3 H01 H12 H23.
  cbn [forallb order_violated]. unfold ratio_in_range. rewrite !Z.gtb_ltb.
  repeat match goal with
         | |- context [?a <? ?b] =>
             destruct (Z.ltb_spec a b); [lia|]; cbn [orb negb andb]
         end.
  split; reflexivity.
Qed.

Lemma read_msr_works (msr cpu : Z) (w : World) :
  msr_io_works w ->
  read_msr msr cpu w =
  (Ok (le_combine (msr_data w cpu msr)), emit (MsrRead cpu msr) w).
Proof.
  intros [Hr [_ [_ Hlen]]]. rewrite read_msr_eq. cbn zeta. rewrite Hr.
  rewrite firstn_all2 by (rewrite Hlen; lia). rewrite Hlen. reflexivity.
Qed.

Lemma broadcast_works (msr v : Z) (cpus : list Z) :
  0 <= v < 2 ^ 64 ->
  forall w, msr_io_works w ->
            exists w',
              for_each cpus (fun cpu => write_msr msr v cpu) w = (Ok tt, w') /\
              msr_io_works w'.
Proof.
  intros Hv. induction cpus as [|x rest IH]; intros w Hw.
  - exists w. split; [reflexivity | exact Hw].
  - cbn [for_each]. unfold bind. rewrite write_msr_eq. cbn zeta.
    destruct Hw as [Hr [Ho [Hwr Hlen]]]. rewrite Ho, Hwr.
    replace ((0 <=? v) && (v <? 2 ^ 64)) with true
      by (symmetry; apply andb_true_iff; split;
          [apply Z.leb_le | apply Z.ltb_lt]; lia).
    apply IH. repeat split; try assumption.
    intros c a. cbn [store_msr emit msr_data].
    destruct ((c =? x) && (a =? msr)); [apply length_le_split | apply Hlen].
Qed.

Lemma land_byte_small (t : Z) : 0 <= t < 256 -> Z.land t 255 = t.
Proof.
  intros H. change 255 with (Z.ones 8). rewrite Z.land_ones by lia.
  apply Z.mod_small. exact H.
Qed.

Lemma land_byte_bits (x hi lo : Z) :
  hi - lo + 1 = 8 -> Z.land (bits x hi lo) 255 = bits x hi lo.
Proof.
  intros H. unfold bits. rewrite H. change (Z.shiftl 1 8 - 1) with 255.
  now rewrite <- Z.land_assoc, Z.land_diag.
Qed.

Lemma encode_ratios_table (t0 t1 t2 t3 t4 t5 t6 t7 : Z) :
  let v := encode_ratios 0 [t0; t1; t2; t3; t4; t5; t6; t7] 0 in
  0 <= v < 2 ^ 64 /\
  map (fun i => bits v (i * 8 + 7) (i * 8)) [0; 1; 2; 3; 4; 5; 6; 7]
  = map (fun t => Z.land t 255) [t0; t1; t2; t3; t4; t5; t6; t7].
Proof.
  cbn -[set_bits bits Z.pow Z.land]. split.
  - repeat (apply set_bits_u64; try lia).
  - repeat (apply (f_equal2 (@cons Z));
            [rewrite ?bits_set_bits_other by lia;
             rewrite bits_of_set_bits by lia; reflexivity|]).
    reflexivity.
Qed.

Lemma apply_ratios_accepts (self : Gui) (e0 e1 e2 e3 : Z) (w : World)
      (entries : list string) :
  ratio_inputs self = map TextInt [e0; e1; e2; e3] ->
  20 <= e0 <= 42 -> 20 <= e1 <= 42 -> 20 <= e2 <= 42 -> 20 <= e3 <= 42 ->
  e0 >= e1 -> e1 >= e2 -> e2 >= e3 ->
  msr_io_works w -> dev_cpu w = Some entries ->
  let raw := le_combine (msr_data w 0 MSR_TURBO_RATIO_LIMIT) in
  let cpus := sorted (map py_int (filter isdigit entries)) in
  exists v w',
    _apply_ratios self w = (Ok tt, w') /\
    new_events w w' =
    MsrRead 0 MSR_TURBO_RATIO_LIMIT
    :: map (fun c => MsrWrite c MSR_TURBO_RATIO_LIMIT v) cpus /\
    map (fun i => bits v (i * 8 + 7) (i * 8)) [0; 1; 2; 3; 4; 5; 6; 7]
    = [e0; e1; e2; e3; bits raw 39 32; bits raw 47 40; bits raw 55 48;
       bits raw 63 56] /\
    forall c, In c cpus -> msr_data w' c MSR_TURBO_RATIO_LIMIT = le_split 8 v.
Proof.
  intros Hin H0 H1 H2 H3 H01 H12 H23 Hw Hdev raw cpus.
  destruct (four_entries_good e0 e1 e2 e3) as [Hrange Hord]; try assumption.
  set (v := encode_ratios 0 [e0; e1; e2; e3; bits raw 39 32; bits raw 47 40;
                             bits raw 55 48; bits raw 63 56] 0).
  destruct (encode_ratios_table e0 e1 e2 e3 (bits raw 39 32) (bits raw 47 40)
                                (bits raw 55 48) (bits raw 63 56))
    as [Hv Htable].
  fold v in Hv, Htable.
  destruct (broadcast_works MSR_TURBO_RATIO_LIMIT v cpus Hv
                            (emit (MsrRead 0 MSR_TURBO_RATIO_LIMIT) w) Hw)
    as [w' [Hrun _]].
  exists v, w'.
  assert (Happly : _apply_ratios self w = (Ok tt, w')).
  { unfold _apply_ratios, bind at 1. rewrite Hin, collect_ratios_ints, Hrange.
    cbn [app]. rewrite Hord.
    unfold try_except, bind at 1. unfold read_turbo_ratios, bind at 1.
    rewrite (read_msr_works _ _ _ Hw). fold raw.
    unfold ret at 1. unfold bind at 1.
    cbn [replace_entries map]. unfold bind, list_index, list_assign, ret.
    cbn [nth_error List.length Nat.ltb Nat.leb firstn skipn app].
    unfold write_turbo_ratios. rewrite write_msr_all_cpus_eq.
    rewrite (online_cpus_listing (emit (MsrRead 0 MSR_TURBO_RATIO_LIMIT) w)
                                 entries Hdev).
    cbn [fst].
    fold cpus. change (encode_ratios 0 _ 0) with v. now rewrite Hrun. }
  split; [exact Happly|].
  apply broadcast_loop in Hrun.
  destruct Hrun as [[done [Hlog Hdone]] [_ [_ Hall]]].
  rewrite (Hdone eq_refl) in Hlog. repeat split.
  - apply new_events_app. rewrite Hlog. cbn. now rewrite <- app_assoc.
  - rewrite Htable. cbn [map].
    rewrite !land_byte_small by lia. rewrite !land_byte_bits by reflexivity.
    reflexivity.
  - now apply Hall.
Qed.

(** C6. [_apply_ratios] validates the four entries before it touches any
    register: when an entry lies outside 20..42, or some entry is smaller
    than the next one, the call only shows the "Input Error" warning and
    returns, with no [read_msr] or [write_msr]; on entries within range and
    in non-increasing order (and a machine whose MSR devices work) it reads
    the table from CPU 0 and writes to every online CPU the table with
    entries 0-3 replaced and entries 4-7 as read.  In particular
    [30, 32, 28, 26] is rejected and [36, 35, 34, 33] is written. *)
Theorem apply_ratios_validates :
  (forall self e0 e1 e2 e3 w,
      ratio_inputs self = map TextInt [e0; e1; e2; e3] ->
      (e0 < 20 \/ 42 < e0) \/ (e1 < 20 \/ 42 < e1) \/
      (e2 < 20 \/ 42 < e2) \/ (e3 < 20 \/ 42 < e3) \/
      e0 < e1 \/ e1 < e2 \/ e2 < e3 ->
      _apply_ratios self w = (Ok tt, emit (Dialog Warning "Input Error") w) /\
      new_events w (snd (_apply_ratios self w))
      = [Dialog Warning "Input Error"]) /\
  (forall self w,
      ratio_inputs self = map TextInt [30; 32; 28; 26] ->
      _apply_ratios self w = (Ok tt, emit (Dialog Warning "Input Error") w)) /\
  (forall self w entries,
      ratio_inputs self = map TextInt [36; 35; 34; 33] ->
      msr_io_works w -> dev_cpu w = Some entries ->
      let raw := le_combine (msr_data w 0 MSR_TURBO_RATIO_LIMIT) in
      let cpus := sorted (map py_int (filter isdigit entries)) in
      exists v w',
        _apply_ratios self w = (Ok tt, w') /\
        new_events w w' =
        MsrRead 0 MSR_TURBO_RATIO_LIMIT
        :: map (fun c => MsrWrite c MSR_TURBO_RATIO_LIMIT v) cpus /\
        map (fun i => bits v (i * 8 + 7) (i * 8)) [0; 1; 2; 3; 4; 5; 6; 7]
        = [36; 35; 34; 33; bits raw 39 32; bits raw 47 40; bits raw 55 48;
           bits raw 63 56] /\
        forall c, In c cpus ->
                  msr_data w' c MSR_TURBO_RATIO_LIMIT = le_split 8 v).
Proof.
  split; [|split].
  - intros self e0 e1 e2 e3 w Hin Hbad.
    assert (Hrun : _apply_ratios self w
                   = (Ok tt, emit (Dialog Warning "Input Error") w)).
    { apply (apply_ratios_rejects self [e0; e1; e2; e3] w Hin).
      now apply four_entries_bad. }
    split; [exact Hrun|]. rewrite Hrun. now apply new_events_app.
  - intros self w Hin.
    now apply (apply_ratios_rejects self [30; 32; 28; 26] w Hin).
  - intros self w entries Hin Hw Hdev.
    apply (apply_ratios_accepts self 36 35 34 33 w entries); try assumption; lia.
Qed.

Lemma apply_ratios_validates_witness :
  let self := mkGui (1 # 8) (1 # 1024) true
                    (map TextInt [30; 32; 28; 26]) 0 0 in
  let w := quiet_world ["0"; "1"]%string 0x2424242424252627 "auto" in
  ratio_inputs self = map TextInt [30; 32; 28; 26] /\
  _apply_ratios self w = (Ok tt, emit (Dialog Warning "Input Error") w).
Proof.
  intros self w. split; [reflexivity|].
  apply (proj1 (proj2 apply_ratios_validates) self w). reflexivity.
Defined.

(** The accepted table on a two-CPU machine: one read, two writes. *)
Example apply_ratios_accepted_run :
  let self := mkGui (1 # 8) (1 # 1024) true
                    (map TextInt [36; 35; 34; 33]) 0 0 in
  let w := quiet_world ["0"; "1"]%string 0x2424242424252627 "auto" in
  log (snd (_apply_ratios self w))
  = [MsrRead 0 MSR_TURBO_RATIO_LIMIT;
     MsrWrite 0 MSR_TURBO_RATIO_LIMIT 0x2424242421222324;
     MsrWrite 1 MSR_TURBO_RATIO_LIMIT 0x2424242421222324].
Proof. vm_compute. reflexivity. Qed.

(** ** Fan control *)

Lemma str_not_auto (n : Z) : String.eqb (str n) "auto" = false.
Proof.
  unfold str. destruct (Z.to_int n) as [d | d]; destruct d; reflexivity.
Qed.

(** [write_fan_level level] followed by [write_fan_watchdog timeout] *)
Lemma fan_sequence_eq (level : string) (timeout : Z) (w : World) :
  (write_fan_level level ;; write_fan_watchdog timeout) w =
  let t1 := ("level " ++ level ++ nl)%string in
  let t2 := ("watchdog " ++ str timeout ++ nl)%string in
  let w1 := emit (FanWrite t1) w in
  match fan_write_err w (log w) t1 with
  | Some e => (Raise e, w1)
  | None =>
      let w2 := emit (FanWrite t2) (set_fan_level level w1) in
      match fan_write_err w (log w ++ [FanWrite t1]) t2 with
      | Some e => (Raise e, w2)
      | None => (Ok tt, set_fan_watchdog timeout w2)
      end
  end.
Proof.
  unfold bind, write_fan_level, write_fan_watchdog, fan_write. cbn zeta.
  destruct (fan_write_err w (log w) _); [reflexivity|].
  cbn [fan_write_err log set_fan_level emit].
  destruct (fan_write_err w (log w ++ _) _); reflexivity.
Qed.

Ltac new_events_by_log :=
  apply new_events_app;
  cbn [log emit set_fan_level set_fan_watchdog];
  rewrite <- ?app_assoc; reflexivity.

Lemma closeEvent_eq (self : Gui) (w : World) :
  fan_available self = true ->
  closeEvent self w =
  let t1 := ("level auto" ++ nl)%string in
  let t2 := ("watchdog 0" ++ nl)%string in
  let w1 := emit (FanWrite t1) w in
  match fan_write_err w (log w) t1 with
  | Some _ => (Ok tt, emit CloseAccepted w1)
  | None =>
      let w2 := emit (FanWrite t2) (set_fan_level "auto" w1) in
      match fan_write_err w (log w ++ [FanWrite t1]) t2 with
      | Some _ => (Ok tt, emit CloseAccepted w2)
      | None => (Ok tt, emit CloseAccepted (set_fan_watchdog 0 w2))
      end
  end.
Proof.
  intros Hfan. unfold closeEvent. rewrite Hfan. unfold bind at 1, try_except.
  rewrite fan_sequence_eq. cbn zeta.
  change ("level " ++ "auto" ++ nl)%string with ("level auto" ++ nl)%string.
  change ("watchdog " ++ str 0 ++ nl)%string with ("watchdog 0" ++ nl)%string.
  destruct (fan_write_err w (log w) _); [reflexivity|].
  destruct (fan_write_err w (log w ++ _) _); reflexivity.
Qed.

(** C7 (as the code has it). With the fan interface available,
    [closeEvent] never raises and accepts the close event whatever the fan
    file does, in whatever mode the fan is.  It sends [level auto] first
    and, when that write went through, [watchdog 0] second, and nothing
    else.  When the [level auto] write fails the failure is swallowed,
    [watchdog 0] is not attempted (both writes share one [try] block) and
    the fan level and watchdog stay as they were.  When no write fails the
    fan is left at level [auto] with the watchdog at 0. *)
Theorem closeEvent_restores_fan (self : Gui) (w : World) :
  fan_available self = true ->
  let r := closeEvent self w in
  let issued := fan_writes (new_events w (snd r)) in
  let t1 := ("level auto" ++ nl)%string in
  let t2 := ("watchdog 0" ++ nl)%string in
  fst r = Ok tt /\
  (exists evs, new_events w (snd r) = evs ++ [CloseAccepted]) /\
  (issued = [t1; t2] \/
   (fan_write_err w (log w) t1 <> None /\ issued = [t1])) /\
  (fan_write_err w (log w) t1 = None -> issued = [t1; t2]) /\
  (fan_write_err w (log w) t1 <> None ->
   issued = [t1] /\
   fan_level (snd r) = fan_level w /\ fan_watchdog (snd r) = fan_watchdog w) /\
  ((forall h t, fan_write_err w h t = None) ->
   fan_level (snd r) = "auto"%string /\ fan_watchdog (snd r) = 0).
Proof.
  intros Hfan. cbn zeta. rewrite (closeEvent_eq self w Hfan). cbn zeta.
  destruct (fan_write_err w (log w) ("level auto" ++ nl)) as [e1|] eqn:E1.
  - cbn [fst snd].
    assert (Hev : new_events w
                    (emit CloseAccepted (emit (FanWrite ("level auto" ++ nl)) w))
                  = [FanWrite ("level auto" ++ nl)%string] ++ [CloseAccepted])
      by new_events_by_log.
    rewrite Hev.
    split; [reflexivity|]. split; [eexists; reflexivity|].
    split; [right; split; [discriminate | reflexivity]|].
    split; [discriminate|].
    split; [intros _; repeat split|].
    intros Hno. rewrite Hno in E1. discriminate.
  - destruct (fan_write_err w (log w ++ _) ("watchdog 0" ++ nl)) as [e2|] eqn:E2;
      cbn [fst snd].
    + assert (Hev : new_events w
                      (emit CloseAccepted
                         (emit (FanWrite ("watchdog 0" ++ nl))
                            (set_fan_level "auto"
                               (emit (FanWrite ("level auto" ++ nl)) w))))
                    = [FanWrite ("level auto" ++ nl)%string;
                       FanWrite ("watchdog 0" ++ nl)%string] ++ [CloseAccepted])
        by new_events_by_log.
      rewrite Hev.
      split; [reflexivity|]. split; [eexists; reflexivity|].
      split; [now left|]. split; [reflexivity|].
      split; [intros H; now elim H|].
      intros Hno. rewrite Hno in E2. discriminate.
    + assert (Hev : new_events w
                      (emit CloseAccepted
                         (set_fan_watchdog 0
                            (emit (FanWrite ("watchdog 0" ++ nl))
                               (set_fan_level "auto"
                                  (emit (FanWrite ("level auto" ++ nl)) w)))))
                    = [FanWrite ("level auto" ++ nl)%string;
                       FanWrite ("watchdog 0" ++ nl)%string] ++ [CloseAccepted])
        by new_events_by_log.
      rewrite Hev.
      split; [reflexivity|]. split; [eexists; reflexivity|].
      split; [now left|]. split; [reflexivity|].
      split; [intros H; now elim H|].
      intros _. split; reflexivity.
Qed.

Lemma closeEvent_restores_fan_witness :
  let self := mkGui (1 # 8) (1 # 1024) true [] 3 0 in
  let w := quiet_world ["0"%string] 0 "disengaged" in
  fan_available self = true /\
  fst (closeEvent self w) = Ok tt /\
  fan_writes (new_events w (snd (closeEvent self w)))
  = [("level auto" ++ nl)%string; ("watchdog 0" ++ nl)%string] /\
  fan_level (snd (closeEvent self w)) = "auto"%string /\
  fan_watchdog (snd (closeEvent self w)) = 0.
Proof.
  intros self w.
  pose proof (closeEvent_restores_fan self w eq_refl) as [Hok [_ [_ [Hseq [_ Hend]]]]].
  split; [reflexivity|]. split; [exact Hok|].
  split; [apply Hseq; reflexivity|].
  apply Hend. intros h t. reflexivity.
Defined.

(** Shutdown in disengaged mode on a machine whose fan file rejects every
    write: nothing is raised, the close event is accepted. *)
Example closeEvent_swallows_failures :
  let self := mkGui (1 # 8) (1 # 1024) true [] 3 0 in
  closeEvent self (fan_locked_world "disengaged")
  = (Ok tt,
     emit CloseAccepted
          (emit (FanWrite ("level auto" ++ nl)) (fan_locked_world "disengaged"))).
Proof. reflexivity. Qed.

(** C7, the spec's wording refuted: shutdown in disengaged mode on a
    machine whose fan file rejects every write, and on one (watchdog
    armed at 30 s) whose fan file refuses [level] commands but would take
    a [watchdog] command.  On both [closeEvent] returns normally, but
    [level auto] is the only text it sends: [watchdog 0] does not follow;
    on the second the fan stays disengaged with the watchdog armed. *)
Lemma closeEvent_skips_watchdog_after_failed_level :
  let self := mkGui (1 # 8) (1 # 1024) true [] 3 0 in
  let t1 := ("level auto" ++ nl)%string in
  let t2 := ("watchdog 0" ++ nl)%string in
  let w1 := fan_locked_world "disengaged" in
  let w2 := mkWorld (Some ["0"%string]) (fun _ _ => None)
                    (fun _ _ => le_split 8 0) (fun _ => None) (fun _ _ => None)
                    (fun _ text => if String.prefix "level" text
                                   then Some OSError else None)
                    "disengaged" 30 true [] in
  fan_available self = true /\
  (fst (closeEvent self w1) = Ok tt /\
   fan_writes (new_events w1 (snd (closeEvent self w1))) = [t1] /\
   fan_writes (new_events w1 (snd (closeEvent self w1))) <> [t1; t2]) /\
  (fst (closeEvent self w2) = Ok tt /\
   fan_writes (new_events w2 (snd (closeEvent self w2))) = [t1] /\
   fan_writes (new_events w2 (snd (closeEvent self w2))) <> [t1; t2] /\
   fst (write_fan_watchdog 0 w2) = Ok tt /\
   fan_level (snd (closeEvent self w2)) = "disengaged"%string /\
   fan_watchdog (snd (closeEvent self w2)) = 30).
Proof.
  vm_compute.
  split; [reflexivity|]. split.
  - split; [reflexivity|]. split; [reflexivity | discriminate].
  - split; [reflexivity|]. split; [reflexivity|]. split; [discriminate|].
    split; [reflexivity|]. split; reflexivity.
Qed.

Lemma fan_error_box_run (e : exn) (w : World) :
  exists title, fan_error_box e w = (Ok tt, emit (Dialog Critical title) w).
Proof. destruct e; eexists; reflexivity. Qed.

Lemma fan_apply_run (level : string) (timeout : Z) (w0 : World) :
  let t1 := ("level " ++ level ++ nl)%string in
  let t2 := ("watchdog " ++ str timeout ++ nl)%string in
  let r := try_except (write_fan_level level ;; write_fan_watchdog timeout)
                      fan_error_box w0 in
  fst r = Ok tt /\
  exists evs,
    log (snd r) = log w0 ++ evs /\
    (fan_writes evs = [t1; t2] \/ fan_writes evs = [t1]) /\
    ((forall h s, fan_write_err w0 h s = None) ->
     fan_writes evs = [t1; t2] /\
     fan_level (snd r) = level /\ fan_watchdog (snd r) = timeout).
Proof.
  cbn zeta. unfold try_except. rewrite fan_sequence_eq. cbn zeta.
  destruct (fan_write_err w0 (log w0) _) as [e1|] eqn:E1.
  - destruct (fan_error_box_run e1 (emit (FanWrite ("level " ++ level ++ nl)) w0))
      as [title ->].
    split; [reflexivity|]. eexists. split.
    + cbn [snd log emit]. rewrite <- app_assoc. reflexivity.
    + split; [now right|]. intros Hno. rewrite Hno in E1. discriminate.
  - destruct (fan_write_err w0 (log w0 ++ _) _) as [e2|] eqn:E2.
    + destruct (fan_error_box_run
                  e2 (emit (FanWrite ("watchdog " ++ str timeout ++ nl))
                           (set_fan_level level
                              (emit (FanWrite ("level " ++ level ++ nl)) w0))))
        as [title ->].
      split; [reflexivity|]. eexists. split.
      * cbn [snd log emit set_fan_level]. rewrite <- !app_assoc. reflexivity.
      * split; [now left|]. intros Hno. rewrite Hno in E2. discriminate.
    + split; [reflexivity|]. eexists. split.
      * cbn [snd log emit set_fan_level set_fan_watchdog].
        rewrite <- !app_assoc. reflexivity.
      * split; [now left|]. intros _. repeat split.
Qed.

Lemma fan_apply_sharp (level : string) (timeout : Z) (w0 : World) :
  let t1 := ("level " ++ level ++ nl)%string in
  let t2 := ("watchdog " ++ str timeout ++ nl)%string in
  let r := try_except (write_fan_level level ;; write_fan_watchdog timeout)
                      fan_error_box w0 in
  exists evs,
    log (snd r) = log w0 ++ evs /\
    match fan_write_err w0 (log w0) t1 with
    | Some _ =>
        fan_writes evs = [t1] /\
        fan_level (snd r) = fan_level w0 /\
        fan_watchdog (snd r) = fan_watchdog w0
    | None =>
        fan_writes evs = [t1; t2] /\
        fan_level (snd r) = level /\
        (fan_write_err w0 (log w0 ++ [FanWrite t1]) t2 = None ->
         fan_watchdog (snd r) = timeout)
    end.
Proof.
  cbn zeta. unfold try_except. rewrite fan_sequence_eq. cbn zeta.
  destruct (fan_write_err w0 (log w0) _) as [e1|] eqn:E1.
  - destruct (fan_error_box_run e1 (emit (FanWrite ("level " ++ level ++ nl)) w0))
      as [title ->].
    eexists. split.
    + cbn [snd log emit]. rewrite <- app_assoc. reflexivity.
    + repeat split.
  - destruct (fan_write_err w0 (log w0 ++ _) _) as [e2|] eqn:E2.
    + destruct (fan_error_box_run
                  e2 (emit (FanWrite ("watchdog " ++ str timeout ++ nl))
                           (set_fan_level level
                              (emit (FanWrite ("level " ++ level ++ nl)) w0))))
        as [title ->].
      eexists. split.
      * cbn [snd log emit set_fan_level]. rewrite <- !app_assoc. reflexivity.
      * split; [reflexivity|]. split; [reflexivity|]. discriminate.
    + eexists. split.
      * cbn [snd log emit set_fan_level set_fan_watchdog].
        rewrite <- !app_assoc. reflexivity.
      * split; [reflexivity|]. split; [reflexivity|]. reflexivity.
Qed.

Lemma apply_fan_setting_eq (self : Gui) (w : World) :
  let index := fan_mode_index self in
  0 <= index <= 3 ->
  (index = 3 -> confirm_yes w = true) ->
  _apply_fan_setting self w =
  try_except (write_fan_level (level_of_index index (fan_level_slider self)) ;;
              write_fan_watchdog (timeout_of_index index))
             fan_error_box
             (if index =? 3
              then emit (Dialog Warning "Confirm Disengaged Mode") w else w).
Proof.
  cbn zeta. intros Hidx Hyes.
  unfold _apply_fan_setting, level_of_index, timeout_of_index.
  assert (Hcases : fan_mode_index self = 0 \/ fan_mode_index self = 1 \/
                   fan_mode_index self = 2 \/ fan_mode_index self = 3) by lia.
  destruct Hcases as [H | [H | [H | H]]]; rewrite H in *; cbn [Z.eqb Pos.eqb].
  - reflexivity.
  - unfold bind at 1, ret at 1. cbn [negb].
    rewrite str_not_auto. reflexivity.
  - reflexivity.
  - unfold bind at 1, tell at 1. unfold bind at 1. cbn [confirm_yes emit].
    rewrite (Hyes eq_refl). reflexivity.
Qed.

Lemma apply_fan_setting_total (self : Gui) (w : World) :
  fst (_apply_fan_setting self w) = Ok tt.
Proof.
  destruct (Z.leb_spec 0 (fan_mode_index self)) as [Hlo | Hlo];
    [destruct (Z.leb_spec (fan_mode_index self) 3) as [Hhi | Hhi]|].
  - destruct (Z.eqb_spec (fan_mode_index self) 3) as [H3 | H3];
      [destruct (confirm_yes w) eqn:Hyes|].
    + rewrite apply_fan_setting_eq by (try lia; intros _; exact Hyes).
      apply fan_apply_run.
    + unfold _apply_fan_setting. rewrite H3. cbn [Z.eqb Pos.eqb].
      unfold bind at 1, tell at 1. unfold bind at 1. cbn [confirm_yes emit].
      rewrite Hyes. reflexivity.
    + rewrite apply_fan_setting_eq by (try lia; intros H; contradiction).
      apply fan_apply_run.
  - unfold _apply_fan_setting.
    repeat match goal with
           | |- context [fan_mode_index self =? ?k] =>
               destruct (Z.eqb_spec (fan_mode_index self) k); [lia|]
           end.
    reflexivity.
  - unfold _apply_fan_setting.
    repeat match goal with
           | |- context [fan_mode_index self =? ?k] =>
               destruct (Z.eqb_spec (fan_mode_index self) k); [lia|]
           end.
    reflexivity.
Qed.

Lemma fan_writes_new_events (index : Z) (w w' : World) (evs : list event) :
  log w' = log (if index =? 3
                then emit (Dialog Warning "Confirm Disengaged Mode") w else w)
           ++ evs ->
  fan_writes (new_events w w') = fan_writes evs.
Proof.
  intros H. destruct (index =? 3).
  - cbn [log emit] in H. rewrite <- app_assoc in H.
    rewrite (new_events_app _ _ _ H). reflexivity.
  - now rewrite (new_events_app _ _ _ H).
Qed.

(** C8. Applying a fan setting (index 0 auto, 1 manual level, 2 full-speed,
    3 disengaged once confirmed) never raises; it sends [level <value>]
    first and, that write having gone through, [watchdog <seconds>] next,
    where the seconds are the fixed non-zero [FAN_WATCHDOG_SECONDS] for every
    mode but auto, manual level 0 included, and 0 for auto.  The second
    text follows exactly when the [level] write went through: then the fan
    is at the level written, and the watchdog at the seconds written once
    that write went through too; a refused [level] write is followed by
    no [watchdog] write and leaves level and watchdog as they were.
    Nothing is written when the operator declines the disengaged mode or
    the index is none of the four. *)
Theorem apply_fan_setting_watchdog (self : Gui) (w : World) :
  let index := fan_mode_index self in
  let level := level_of_index index (fan_level_slider self) in
  let timeout := timeout_of_index index in
  let t1 := ("level " ++ level ++ nl)%string in
  let t2 := ("watchdog " ++ str timeout ++ nl)%string in
  let r := _apply_fan_setting self w in
  let h0 := log (if index =? 3
                 then emit (Dialog Warning "Confirm Disengaged Mode") w
                 else w) in
  fst r = Ok tt /\
  FAN_WATCHDOG_SECONDS <> 0 /\
  (index = 0 -> timeout = 0) /\
  (index <> 0 -> timeout = FAN_WATCHDOG_SECONDS) /\
  (0 <= index <= 3 -> (index = 3 -> confirm_yes w = true) ->
   (fan_writes (new_events w (snd r)) = [t1; t2] \/
    fan_writes (new_events w (snd r)) = [t1]) /\
   ((forall h s, fan_write_err w h s = None) ->
    fan_writes (new_events w (snd r)) = [t1; t2] /\
    fan_level (snd r) = level /\ fan_watchdog (snd r) = timeout) /\
   (fan_write_err w h0 t1 = None ->
    fan_writes (new_events w (snd r)) = [t1; t2] /\
    fan_level (snd r) = level /\
    (fan_write_err w (h0 ++ [FanWrite t1]) t2 = None ->
     fan_watchdog (snd r) = timeout)) /\
   (fan_write_err w h0 t1 <> None ->
    fan_writes (new_events w (snd r)) = [t1] /\
    fan_level (snd r) = fan_level w /\
    fan_watchdog (snd r) = fan_watchdog w)) /\
  (index = 3 -> confirm_yes w = false ->
   fan_writes (new_events w (snd r)) = []) /\
  (index < 0 \/ 3 < index -> snd r = w).
Proof.
  cbn zeta. split; [apply apply_fan_setting_total|].
  split; [discriminate|].
  split; [intros H; unfold timeout_of_index; now rewrite H|].
  split.
  { intros H. unfold timeout_of_index.
    destruct (Z.eqb_spec (fan_mode_index self) 0); [contradiction | reflexivity]. }
  split; [|split].
  - intros Hidx Hyes. rewrite (apply_fan_setting_eq self w Hidx Hyes).
    set (w0 := if fan_mode_index self =? 3
               then emit (Dialog Warning "Confirm Disengaged Mode") w else w).
    assert (Herr : fan_write_err w0 = fan_write_err w)
      by (unfold w0; destruct (fan_mode_index self =? 3); reflexivity).
    assert (Hlev : fan_level w0 = fan_level w)
      by (unfold w0; destruct (fan_mode_index self =? 3); reflexivity).
    assert (Hdog : fan_watchdog w0 = fan_watchdog w)
      by (unfold w0; destruct (fan_mode_index self =? 3); reflexivity).
    destruct (fan_apply_run
                (level_of_index (fan_mode_index self) (fan_level_slider self))
                (timeout_of_index (fan_mode_index self)) w0)
      as [_ [evs [Hlog [Hshape Hgood]]]].
    destruct (fan_apply_sharp
                (level_of_index (fan_mode_index self) (fan_level_slider self))
                (timeout_of_index (fan_mode_index self)) w0)
      as [evs' [Hlog' Hsharp]].
    cbn zeta in Hsharp. rewrite Herr, Hlev, Hdog in Hsharp.
    split; [|split; [|split]].
    + rewrite (fan_writes_new_events _ _ _ _ Hlog). exact Hshape.
    + rewrite (fan_writes_new_events _ _ _ _ Hlog).
      intros Hno. apply Hgood. intros h s. rewrite Herr. apply Hno.
    + rewrite (fan_writes_new_events _ _ _ _ Hlog').
      intros Hok. rewrite Hok in Hsharp. exact Hsharp.
    + rewrite (fan_writes_new_events _ _ _ _ Hlog').
      intros Hbad. destruct (fan_write_err w (log w0) _); [exact Hsharp|].
      now elim Hbad.
  - intros H3 Hno. unfold _apply_fan_setting. rewrite H3. cbn [Z.eqb Pos.eqb].
    unfold bind at 1, tell at 1. unfold bind at 1. cbn [confirm_yes emit].
    rewrite Hno. cbn [negb]. unfold ret. cbn [snd].
    rewrite (new_events_app w _ [Dialog Warning "Confirm Disengaged Mode"]);
      reflexivity.
  - intros Hout. unfold _apply_fan_setting.
    repeat match goal with
           | |- context [fan_mode_index self =? ?k] =>
               destruct (Z.eqb_spec (fan_mode_index self) k); [lia|]
           end.
    reflexivity.
Qed.

Lemma apply_fan_setting_watchdog_witness :
  let self := mkGui (1 # 8) (1 # 1024) true [] 1 0 in
  let w := quiet_world ["0"%string] 0 "auto" in
  (0 <= fan_mode_index self <= 3) /\
  fan_writes (new_events w (snd (_apply_fan_setting self w)))
  = [("level 0" ++ nl)%string; ("watchdog 30" ++ nl)%string] /\
  fan_level (snd (_apply_fan_setting self w)) = "0"%string /\
  fan_watchdog (snd (_apply_fan_setting self w)) = 30.
Proof.
  intros self w. split; [cbn; lia|].
  pose proof (apply_fan_setting_watchdog self w) as [_ [_ [_ [_ [H _]]]]].
  assert (Hidx : 0 <= fan_mode_index self <= 3) by (cbn; lia).
  assert (Hyes : fan_mode_index self = 3 -> confirm_yes w = true)
    by (intros H3; discriminate H3).
  destruct (H Hidx Hyes) as [_ [_ [Hsharp _]]].
  destruct (Hsharp eq_refl) as [Hseq [Hlev Hdog]].
  split; [exact Hseq|]. split; [exact Hlev|]. exact (Hdog eq_refl).
Defined.

(** Selecting auto disarms the watchdog; disengaged, once confirmed, arms it. *)
Example apply_fan_setting_runs :
  fan_writes (log (snd (_apply_fan_setting
                          (mkGui (1 # 8) (1 # 1024) true [] 0 5)
                          (quiet_world ["0"%string] 0 "7"))))
  = [("level auto" ++ nl)%string; ("watchdog 0" ++ nl)%string] /\
  fan_writes (log (snd (_apply_fan_setting
                          (mkGui (1 # 8) (1 # 1024) true [] 3 5)
                          (quiet_world ["0"%string] 0 "auto"))))
  = [("level disengaged" ++ nl)%string; ("watchdog 30" ++ nl)%string].
Proof. split; reflexivity. Qed.

(** ** The power-limit write, seen in the registers *)

Lemma write_pl_watts_run (pl1 pl2 : option Q) (pu : Q) (w : World)
      (entries : list string) :
  msr_io_works w -> dev_cpu w = Some entries ->
  let cpus := sorted (map py_int (filter isdigit entries)) in
  let raw := le_combine (msr_data w 0 MSR_PKG_POWER_LIMIT) in
  match fst (encode_pl_watts raw pl1 pl2 pu w) with
  | Raise e =>
      write_pl_watts pl1 pl2 pu w
      = (Raise e, emit (MsrRead 0 MSR_PKG_POWER_LIMIT) w)
  | Ok v =>
      exists w',
        write_pl_watts pl1 pl2 pu w = (Ok tt, w') /\
        0 <= v < 2 ^ 64 /\
        new_events w w'
        = MsrRead 0 MSR_PKG_POWER_LIMIT
          :: map (fun c => MsrWrite c MSR_PKG_POWER_LIMIT v) cpus /\
        forall c, In c cpus -> msr_data w' c MSR_PKG_POWER_LIMIT = le_split 8 v
  end.
Proof.
  intros Hw Hdev. cbn zeta. rewrite write_pl_watts_eq. cbn zeta.
  rewrite (read_msr_works _ _ _ Hw). cbn [fst].
  destruct (fst (encode_pl_watts _ pl1 pl2 pu w)) as [v|e] eqn:Henc;
    [|reflexivity].
  assert (Hv : 0 <= v < 2 ^ 64).
  { apply (encode_pl_watts_u64
             (le_combine (msr_data w 0 MSR_PKG_POWER_LIMIT)) pl1 pl2 pu w v);
      [|exact Henc].
    destruct Hw as [_ [_ [_ Hlen]]]. apply le_combine_u64, Hlen. }
  set (w0 := emit (MsrRead 0 MSR_PKG_POWER_LIMIT) w).
  assert (Hw0 : msr_io_works w0) by exact Hw.
  rewrite write_msr_all_cpus_eq.
  rewrite (online_cpus_dev w0 w eq_refl), (online_cpus_listing w entries Hdev).
  cbn [fst].
  destruct (broadcast_works MSR_PKG_POWER_LIMIT v
              (sorted (map py_int (filter isdigit entries))) Hv w0 Hw0)
    as [w' [Hrun _]].
  exists w'. split; [exact Hrun|]. split; [exact Hv|].
  apply broadcast_loop in Hrun.
  destruct Hrun as [[done [Hlog Hdone]] [_ [_ Hall]]].
  rewrite (Hdone eq_refl) in Hlog. split.
  - apply new_events_app. rewrite Hlog. unfold w0. cbn [log emit].
    now rewrite <- app_assoc.
  - exact (Hall eq_refl).
Qed.

Lemma register_after_write (pl1 pl2 : option Q) (pu : Q) (w : World)
      (entries : list string) (c : Z) :
  msr_io_works w -> dev_cpu w = Some entries ->
  In c (sorted (map py_int (filter isdigit entries))) ->
  let reg := fun (w : World) (c : Z) =>
               le_combine (msr_data w c MSR_PKG_POWER_LIMIT) in
  let w' := snd (write_pl_watts pl1 pl2 pu w) in
  match fst (encode_pl_watts (reg w 0) pl1 pl2 pu w) with
  | Raise _ => reg w' c = reg w c
  | Ok v => reg w' c = v
  end.
Proof.
  intros Hw Hdev Hin. cbn beta zeta.
  pose proof (write_pl_watts_run pl1 pl2 pu w entries Hw Hdev) as Hrun.
  cbn zeta in Hrun.
  destruct (fst (encode_pl_watts _ pl1 pl2 pu w)) as [v|e].
  - destruct Hrun as [w' [Hrun [Hv [_ Hall]]]]. rewrite Hrun. cbn [snd].
    rewrite (Hall c Hin), le_combine_split. now apply Z.mod_small.
  - rewrite Hrun. reflexivity.
Qed.

(** C3. With [pl1_w = 45.0], [pl2_w = None] and power unit 0.125 the value
    written has PL1's field (bits 14..0) equal to 360 and bit 15 set, and
    bits 46..32 and bit 47 as in the value read; in general an absent
    wattage leaves that limit's field and enable bit as they were read.
    This holds of the value encoded, of every value a run hands to
    [write_msr], and of the registers themselves: on a machine whose MSR
    devices work and whose power-limit register holds [r] (the register
    is one per package, so CPU 0 and every online CPU read [r]), the 45 W
    call returns normally, reads CPU 0 once, writes one value to every
    online CPU, and afterwards the register of every online CPU has
    bits 14..0 = 360, bit 15 = 1 and bits 46..32 and 47 as in [r]; with
    any first argument and an absent second one, bits 46..32 and 47 of
    every online CPU's register are after the call what they were in
    [r], and likewise bits 14..0 and 15 with an absent first argument. *)
Theorem write_pl_watts_frame :
  (forall raw w, exists v,
      encode_pl_watts raw (Some 45%Q) None (1 # 8) w = (Ok v, w) /\
      bits v 14 0 = 360 /\ bits v 15 15 = 1 /\
      bits v 46 32 = bits raw 46 32 /\ bits v 47 47 = bits raw 47 47) /\
  (forall w,
      Forall (fun v => bits v 14 0 = 360 /\ bits v 15 15 = 1 /\
                       bits v 46 32 = bits (pkg_limit_cpu0 w) 46 32 /\
                       bits v 47 47 = bits (pkg_limit_cpu0 w) 47 47)
             (broadcasts (write_pl_watts (Some 45%Q) None (1 # 8)) w)) /\
  (forall pl1 pu w,
      Forall (fun v => bits v 46 32 = bits (pkg_limit_cpu0 w) 46 32 /\
                       bits v 47 47 = bits (pkg_limit_cpu0 w) 47 47)
             (broadcasts (write_pl_watts pl1 None pu) w)) /\
  (forall pl2 pu w,
      Forall (fun v => bits v 14 0 = bits (pkg_limit_cpu0 w) 14 0 /\
                       bits v 15 15 = bits (pkg_limit_cpu0 w) 15 15)
             (broadcasts (write_pl_watts None pl2 pu) w)) /\
  (forall r w entries,
      msr_io_works w -> dev_cpu w = Some entries ->
      let cpus := sorted (map py_int (filter isdigit entries)) in
      let reg := fun (w : World) (c : Z) =>
                   le_combine (msr_data w c MSR_PKG_POWER_LIMIT) in
      (forall c, c = 0 \/ In c cpus -> reg w c = r) ->
      (exists v w',
          write_pl_watts (Some 45%Q) None (1 # 8) w = (Ok tt, w') /\
          new_events w w'
          = MsrRead 0 MSR_PKG_POWER_LIMIT
            :: map (fun c => MsrWrite c MSR_PKG_POWER_LIMIT v) cpus /\
          forall c, In c cpus ->
                    reg w' c = v /\
                    bits (reg w' c) 14 0 = 360 /\
                    bits (reg w' c) 15 15 = 1 /\
                    bits (reg w' c) 46 32 = bits r 46 32 /\
                    bits (reg w' c) 47 47 = bits r 47 47) /\
      (forall pl1 pu c,
          In c cpus ->
          let w' := snd (write_pl_watts pl1 None pu w) in
          bits (reg w' c) 46 32 = bits r 46 32 /\
          bits (reg w' c) 47 47 = bits r 47 47) /\
      (forall pl2 pu c,
          In c cpus ->
          let w' := snd (write_pl_watts None pl2 pu w) in
          bits (reg w' c) 14 0 = bits r 14 0 /\
          bits (reg w' c) 15 15 = bits r 15 15)).
Proof.
  split; [|split; [|split; [|split]]].
  - intros raw w. apply encode_45_watts.
  - intros w. apply broadcasts_write_pl_watts. intros v _ Henc.
    destruct (encode_45_watts (pkg_limit_cpu0 w) w) as [v' [Hv' Hbits]].
    rewrite Hv' in Henc. cbn in Henc. injection Henc as <-. exact Hbits.
  - intros pl1 pu w. apply broadcasts_write_pl_watts. intros v _.
    apply encode_keeps_pl2.
  - intros pl2 pu w. apply broadcasts_write_pl_watts. intros v _.
    apply encode_keeps_pl1.
  - intros r w entries Hw Hdev. cbn beta zeta. intros Hreg.
    pose proof (Hreg 0 (or_introl eq_refl)) as Hr0.
    split; [|split].
    + destruct (encode_45_watts r w) as [v [Henc Hbits]].
      pose proof (write_pl_watts_run (Some 45%Q) None (1 # 8) w entries Hw Hdev)
        as Hrun.
      cbn zeta in Hrun. rewrite Hr0, Henc in Hrun. cbn [fst] in Hrun.
      destruct Hrun as [w' [Hrun [Hv [Hev Hall]]]].
      exists v, w'. split; [exact Hrun|]. split; [exact Hev|].
      intros c Hin. rewrite (Hall c Hin), le_combine_split.
      rewrite Z.mod_small by exact Hv. split; [reflexivity | exact Hbits].
    + intros pl1 pu c Hin.
      pose proof (register_after_write pl1 None pu w entries c Hw Hdev Hin)
        as Hafter.
      cbn beta zeta in Hafter. rewrite Hr0 in Hafter.
      destruct (fst (encode_pl_watts r pl1 None pu w)) as [v|e] eqn:Henc;
        rewrite Hafter.
      * now apply (encode_keeps_pl2 r pl1 pu w).
      * rewrite (Hreg c (or_intror Hin)). split; reflexivity.
    + intros pl2 pu c Hin.
      pose proof (register_after_write None pl2 pu w entries c Hw Hdev Hin)
        as Hafter.
      cbn beta zeta in Hafter. rewrite Hr0 in Hafter.
      destruct (fst (encode_pl_watts r None pl2 pu w)) as [v|e] eqn:Henc;
        rewrite Hafter.
      * now apply (encode_keeps_pl1 r pl2 pu w).
      * rewrite (Hreg c (or_intror Hin)). split; reflexivity.
Qed.

Lemma write_pl_watts_frame_witness :
  let entries := ["0"; "1"]%string in
  let r := 0x81B800000118 in
  let w := quiet_world entries r "auto" in
  let reg := fun (w : World) (c : Z) =>
               le_combine (msr_data w c MSR_PKG_POWER_LIMIT) in
  (msr_io_works w /\ dev_cpu w = Some entries /\
   forall c, c = 0 \/ In c [0; 1] -> reg w c = r) /\
  exists v w',
    write_pl_watts (Some 45%Q) None (1 # 8) w = (Ok tt, w') /\
    new_events w w'
    = [MsrRead 0 MSR_PKG_POWER_LIMIT;
       MsrWrite 0 MSR_PKG_POWER_LIMIT v; MsrWrite 1 MSR_PKG_POWER_LIMIT v] /\
    bits (reg w' 1) 14 0 = 360 /\ bits (reg w' 1) 15 15 = 1 /\
    bits (reg w' 1) 46 32 = bits r 46 32 /\
    bits (reg w' 1) 47 47 = bits r 47 47.
Proof.
  intros entries r w reg.
  assert (Hw : msr_io_works w) by (repeat split).
  assert (Hreg : forall c, c = 0 \/ In c [0; 1] -> reg w c = r)
    by (intros c _; reflexivity).
  split; [split; [exact Hw | split; [reflexivity | exact Hreg]]|].
  destruct (proj1 (proj2 (proj2 (proj2 (proj2 write_pl_watts_frame)))
                     r w entries Hw eq_refl Hreg))
    as [v [w' [Hrun [Hev Hall]]]].
  exists v, w'. split; [exact Hrun|]. split; [exact Hev|].
  destruct (Hall 1 (or_intror (or_introl eq_refl))) as [_ H]. exact H.
Defined.

(** * Further properties of the register layer *)

(** ** Bit-field codec *)

(** X1. An extracted field fits its width: for [0 <= lo <= hi],
    [bits] returns a value in [0, 2^(hi-lo+1)), whatever the input. *)
Theorem bits_in_range (v hi lo : Z) :
  0 <= lo -> lo <= hi -> 0 <= bits v hi lo < 2 ^ (hi - lo + 1).
Proof. intros Hlo Hhi. apply bits_range; lia. Qed.

Lemma bits_in_range_witness :
  (0 <= 8 /\ 8 <= 15) /\ 0 <= bits (-1) 15 8 < 2 ^ (15 - 8 + 1).
Proof. split; [lia | apply bits_in_range; lia]. Defined.

(** X2. [set_bits] changes nothing outside the range it writes: every bit
    below [lo] or above [hi] is as in the original, so any field on a
    disjoint range reads the same before and after, and a 64-bit value
    stays a 64-bit value when [hi <= 63]. *)
Theorem set_bits_leaves_rest (v hi lo f : Z) :
  0 <= lo -> lo <= hi ->
  (forall i, 0 <= i -> i < lo \/ hi < i ->
             Z.testbit (set_bits v hi lo f) i = Z.testbit v i) /\
  (forall hi' lo', 0 <= lo' -> lo' <= hi' -> hi < lo' \/ hi' < lo ->
                   bits (set_bits v hi lo f) hi' lo' = bits v hi' lo') /\
  (hi <= 63 -> 0 <= v < 2 ^ 64 -> 0 <= set_bits v hi lo f < 2 ^ 64).
Proof.
  intros Hlo Hhi. split; [|split].
  - intros i Hi Hout. rewrite testbit_set_bits by lia.
    destruct (Z.leb_spec lo i), (Z.leb_spec i hi); cbn [andb];
      try reflexivity; lia.
  - intros hi' lo' Hlo' Hhi' Hdisj. apply bits_set_bits_other; lia.
  - intros H63 Hv. apply set_bits_u64; lia.
Qed.

Lemma set_bits_leaves_rest_witness :
  (0 <= 38 /\ 38 <= 38) /\
  bits (set_bits 0x850089 38 38 1) 22 0 = bits 0x850089 22 0.
Proof.
  split; [lia|].
  apply (proj1 (proj2 (set_bits_leaves_rest 0x850089 38 38 1
                         ltac:(lia) ltac:(lia)))); lia.
Defined.

(** X3. Writing back the field just extracted is the identity:
    [set_bits(v, hi, lo, bits(v, hi, lo)) = v] for [0 <= lo <= hi]. *)
Theorem set_bits_of_bits (v hi lo : Z) :
  0 <= lo -> lo <= hi -> set_bits v hi lo (bits v hi lo) = v.
Proof. apply set_bits_same_field. Qed.

Lemma set_bits_of_bits_witness :
  (0 <= 32 /\ 32 <= 46) /\
  set_bits 0x00DD8000005F8168 46 32 (bits 0x00DD8000005F8168 46 32)
  = 0x00DD8000005F8168.
Proof. split; [lia | apply set_bits_of_bits; lia]. Defined.

(** ** Register I/O *)

Lemma unpack_pack (v : Z) :
  0 <= v < 2 ^ 64 -> le_combine (firstn 8 (le_split 8 v)) = v.
Proof.
  intros Hv. rewrite firstn_all2 by (rewrite length_le_split; lia).
  rewrite le_combine_split. apply Z.mod_small. exact Hv.
Qed.

Lemma in_u64 (v : Z) :
  (0 <=? v) && (v <? 2 ^ 64) = true <-> 0 <= v < 2 ^ 64.
Proof. rewrite andb_true_iff, Z.leb_le, Z.ltb_lt. reflexivity. Qed.

(** X4. A [write_msr] that returns normally was given a 64-bit value and
    leaves exactly that value in the register of that CPU, every other
    register as it was; a [read_msr] of the same register (if the device
    can be read) then returns the value written. *)
Theorem write_then_read_msr (msr v cpu : Z) (w w1 : World) :
  write_msr msr v cpu w = (Ok tt, w1) ->
  0 <= v < 2 ^ 64 /\
  msr_data w1 cpu msr = le_split 8 v /\
  (forall c a, c <> cpu \/ a <> msr -> msr_data w1 c a = msr_data w c a) /\
  (msr_read_err w cpu msr = None -> fst (read_msr msr cpu w1) = Ok v).
Proof.
  rewrite write_msr_eq. cbn zeta.
  destruct (msr_open_err w cpu); [discriminate|].
  destruct ((0 <=? v) && (v <? 2 ^ 64)) eqn:Hv; [|discriminate].
  destruct (msr_write_err w cpu msr); [discriminate|].
  intros [= <-]. apply in_u64 in Hv. split; [exact Hv|].
  assert (Hdata : msr_data (store_msr cpu msr (le_split 8 v)
                              (emit (MsrWrite cpu msr v) w)) cpu msr
                  = le_split 8 v).
  { cbn [store_msr msr_data]. now rewrite !Z.eqb_refl. }
  split; [exact Hdata|]. split.
  - intros c a Hne. cbn [store_msr msr_data emit].
    destruct (Z.eqb_spec c cpu), (Z.eqb_spec a msr); cbn [andb];
      try reflexivity.
    destruct Hne; contradiction.
  - intros Hread. rewrite read_msr_eq. cbn zeta.
    change (msr_read_err (store_msr cpu msr (le_split 8 v)
                            (emit (MsrWrite cpu msr v) w)) cpu msr)
      with (msr_read_err w cpu msr).
    rewrite Hread, Hdata.
    rewrite firstn_all2 by (rewrite length_le_split; lia).
    rewrite length_le_split. cbn [Nat.eqb fst].
    rewrite le_combine_split. f_equal. apply Z.mod_small. exact Hv.
Qed.

Lemma write_then_read_msr_witness :
  let w := quiet_world ["0"; "1"]%string 0 "auto" in
  let w1 := snd (write_msr MSR_TURBO_RATIO_LIMIT 0x1E1F2021 1 w) in
  write_msr MSR_TURBO_RATIO_LIMIT 0x1E1F2021 1 w = (Ok tt, w1) /\
  fst (read_msr MSR_TURBO_RATIO_LIMIT 1 w1) = Ok 0x1E1F2021.
Proof.
  intros w w1. split; [reflexivity|].
  apply (write_then_read_msr MSR_TURBO_RATIO_LIMIT 0x1E1F2021 1 w w1 eq_refl).
  reflexivity.
Defined.

(** X5. A [write_msr] that raises has not changed any register; and a
    value that does not fit 64 bits makes it raise [struct.error] once the
    device is open, before anything is written. *)
Theorem write_msr_failure_keeps_registers (msr v cpu : Z) (w : World) :
  (forall e w1, write_msr msr v cpu w = (Raise e, w1) ->
                forall c a, msr_data w1 c a = msr_data w c a) /\
  (v < 0 \/ 2 ^ 64 <= v -> msr_open_err w cpu = None ->
   write_msr msr v cpu w = (Raise StructError, emit (MsrWrite cpu msr v) w)).
Proof.
  split.
  - intros e w1. rewrite write_msr_eq. cbn zeta.
    destruct (msr_open_err w cpu); [now intros [= _ <-]|].
    destruct ((0 <=? v) && (v <? 2 ^ 64)); [|now intros [= _ <-]].
    destruct (msr_write_err w cpu msr); [now intros [= _ <-] | discriminate].
  - intros Hwide Hopen. rewrite write_msr_eq. cbn zeta. rewrite Hopen.
    destruct ((0 <=? v) && (v <? 2 ^ 64)) eqn:Hv; [|reflexivity].
    apply in_u64 in Hv. lia.
Qed.

Lemma write_msr_failure_keeps_registers_witness :
  let w := quiet_world ["0"%string] 7 "auto" in
  (2 ^ 64 <= 2 ^ 64) /\
  write_msr MSR_PKG_POWER_LIMIT (2 ^ 64) 0 w
  = (Raise StructError, emit (MsrWrite 0 MSR_PKG_POWER_LIMIT (2 ^ 64)) w).
Proof.
  intros w. split; [lia|].
  apply (proj2 (write_msr_failure_keeps_registers
                  MSR_PKG_POWER_LIMIT (2 ^ 64) 0 w)); [right; lia | reflexivity].
Defined.

(** X6. [read_msr] either raises or returns a value in [0, 2^64); it
    raises [struct.error] when the device hands back fewer than 8 bytes;
    and it never changes a register. *)
Theorem read_msr_outcome (msr cpu : Z) (w : World) :
  (forall v, fst (read_msr msr cpu w) = Ok v -> 0 <= v < 2 ^ 64) /\
  (msr_read_err w cpu msr = None ->
   (List.length (msr_data w cpu msr) < 8)%nat ->
   fst (read_msr msr cpu w) = Raise StructError) /\
  (forall c a, msr_data (snd (read_msr msr cpu w)) c a = msr_data w c a).
Proof.
  split; [|split].
  - intros v. apply read_msr_u64.
  - intros Herr Hshort. rewrite read_msr_eq. cbn zeta. rewrite Herr.
    rewrite firstn_all2 by lia.
    destruct (Nat.eqb_spec (List.length (msr_data w cpu msr)) 8);
      [lia | reflexivity].
  - intros c a. rewrite read_msr_eq. cbn zeta.
    destruct (msr_read_err w cpu msr); [reflexivity|].
    destruct (List.length _ =? 8)%nat; reflexivity.
Qed.

Lemma read_msr_outcome_witness :
  let w := with_msr_data (fun _ _ => le_split 4 0x11223344)
                         (quiet_world ["0"%string] 0 "auto") in
  (List.length (msr_data w 0 IA32_PERF_STATUS) < 8)%nat /\
  fst (read_msr IA32_PERF_STATUS 0 w) = Raise StructError.
Proof.
  intros w. split; [vm_compute; lia|].
  apply (proj1 (proj2 (read_msr_outcome IA32_PERF_STATUS 0 w)));
    [reflexivity | vm_compute; lia].
Defined.

(** ** Broadcast writes *)

Lemma broadcast_partial (msr v : Z) (pre : list Z) :
  0 <= v < 2 ^ 64 ->
  forall w c post e,
    (forall x, In x pre ->
               msr_open_err w x = None /\ msr_write_err w x msr = None) ->
    msr_open_err w c = Some e ->
    exists w',
      for_each (pre ++ c :: post) (fun cpu => write_msr msr v cpu) w
      = (Raise e, w') /\
      log w' = log w ++ map (fun x => MsrWrite x msr v) (pre ++ [c]) /\
      (forall x, In x pre -> msr_data w' x msr = le_split 8 v) /\
      (forall x a, ~ In x pre \/ a <> msr -> msr_data w' x a = msr_data w x a).
Proof.
  intros Hv. induction pre as [|p pre IH]; intros w c post e Hpre Hc.
  - cbn [app for_each]. unfold bind. rewrite write_msr_eq. cbn zeta. rewrite Hc.
    eexists. split; [reflexivity|]. split; [reflexivity|].
    split; [intros x []|]. intros x a _. reflexivity.
  - cbn [app for_each]. unfold bind. rewrite write_msr_eq. cbn zeta.
    destruct (Hpre p (or_introl eq_refl)) as [Hop Hwr]. rewrite Hop, Hwr.
    replace ((0 <=? v) && (v <? 2 ^ 64)) with true
      by (symmetry; now apply in_u64).
    set (w1 := store_msr p msr (le_split 8 v) (emit (MsrWrite p msr v) w)).
    destruct (IH w1 c post e) as [w' [Hrun [Hlog [Hin Hframe]]]].
    { intros x Hx. apply Hpre. now right. }
    { exact Hc. }
    exists w'. split; [exact Hrun|]. split.
    { rewrite Hlog. cbn [map app]. unfold w1. cbn [log store_msr emit].
      now rewrite <- app_assoc. }
    split.
    + intros x [<- | Hx]; [|now apply Hin].
      destruct (in_dec Z.eq_dec p pre) as [Hp | Hp]; [now apply Hin|].
      rewrite Hframe by now left.
      unfold w1. cbn [msr_data store_msr]. now rewrite !Z.eqb_refl.
    + intros x a Hout. rewrite Hframe.
      * unfold w1. cbn [msr_data store_msr emit].
        destruct (Z.eqb_spec x p) as [-> | Hne]; cbn [andb]; [|reflexivity].
        destruct (Z.eqb_spec a msr) as [-> | Hne]; [|reflexivity].
        destruct Hout as [Hout | Hout]; [elim Hout; now left | now elim Hout].
      * destruct Hout as [Hout | Hout]; [left | now right].
        intros Hx. apply Hout. now right.
Qed.

(** X7. [write_msr_all_cpus] is not transactional: when the device of some
    online CPU cannot be opened, the call raises that error, the CPUs before
    it in the list already hold the new value, no write is attempted for the
    CPUs after it, and every register of every other CPU is as it was. *)
Theorem write_msr_all_cpus_partial (msr v : Z) (w : World)
        (pre post : list Z) (c : Z) (e : exn) :
  0 <= v < 2 ^ 64 ->
  fst (online_cpus w) = Ok (pre ++ c :: post) ->
  (forall x, In x pre ->
             msr_open_err w x = None /\ msr_write_err w x msr = None) ->
  msr_open_err w c = Some e ->
  exists w',
    write_msr_all_cpus msr v w = (Raise e, w') /\
    new_events w w' = map (fun x => MsrWrite x msr v) (pre ++ [c]) /\
    (forall x, In x pre -> msr_data w' x msr = le_split 8 v) /\
    (forall x a, ~ In x pre \/ a <> msr -> msr_data w' x a = msr_data w x a).
Proof.
  intros Hv Hon Hpre Hc. rewrite write_msr_all_cpus_eq, Hon.
  destruct (broadcast_partial msr v pre Hv w c post e Hpre Hc)
    as [w' [Hrun [Hlog [Hin Hframe]]]].
  exists w'. split; [exact Hrun|]. split; [now apply new_events_app|].
  split; assumption.
Qed.

Lemma write_msr_all_cpus_partial_witness :
  let w0 := quiet_world ["0"; "1"; "2"; "3"]%string 0x11 "auto" in
  let w := mkWorld (dev_cpu w0) (msr_read_err w0) (msr_data w0)
                   (fun c => if c =? 2 then Some PermissionError else None)
                   (msr_write_err w0) (fan_write_err w0) (fan_level w0)
                   (fan_watchdog w0) (confirm_yes w0) (log w0) in
  let w' := snd (write_msr_all_cpus MSR_PKG_POWER_LIMIT 0x22 w) in
  fst (online_cpus w) = Ok ([0; 1] ++ 2 :: [3]) /\
  fst (write_msr_all_cpus MSR_PKG_POWER_LIMIT 0x22 w) = Raise PermissionError /\
  map (fun c => le_combine (msr_data w' c MSR_PKG_POWER_LIMIT)) [0; 1; 2; 3]
  = [0x22; 0x22; 0x11; 0x11].
Proof.
  intros w0 w w'. split; [reflexivity|].
  destruct (write_msr_all_cpus_partial
              MSR_PKG_POWER_LIMIT 0x22 w [0; 1] [3] 2 PermissionError)
    as [w1 [Hrun _]].
  - lia.
  - reflexivity.
  - intros x [<- | [<- | []]]; split; reflexivity.
  - reflexivity.
  - split; [now rewrite Hrun | vm_compute; reflexivity].
Defined.

(** X8. On a machine whose MSR devices work, [write_msr_all_cpus] of a
    64-bit value returns normally, writes once per online CPU in ascending
    CPU order, leaves the value in that register of every online CPU and
    leaves the registers at every other address alone. *)
Theorem write_msr_all_cpus_ascending (msr v : Z) (w : World)
        (entries : list string) :
  0 <= v < 2 ^ 64 -> msr_io_works w -> dev_cpu w = Some entries ->
  exists cpus w',
    write_msr_all_cpus msr v w = (Ok tt, w') /\
    Sorted Z.le cpus /\
    Permutation cpus (map py_int (filter isdigit entries)) /\
    new_events w w' = map (fun c => MsrWrite c msr v) cpus /\
    (forall c, In c cpus -> msr_data w' c msr = le_split 8 v) /\
    (forall c a, a <> msr -> msr_data w' c a = msr_data w c a).
Proof.
  intros Hv Hw Hdev.
  exists (sorted (map py_int (filter isdigit entries))).
  destruct (broadcast_works msr v (sorted (map py_int (filter isdigit entries)))
                            Hv w Hw) as [w' [Hrun _]].
  exists w'. rewrite write_msr_all_cpus_eq, (online_cpus_listing w entries Hdev).
  cbn [fst]. split; [exact Hrun|].
  split; [apply sorted_sorted|]. split; [apply sorted_perm|].
  apply broadcast_loop in Hrun.
  destruct Hrun as [[done [Hlog Hdone]] [_ [Hframe Hall]]].
  rewrite (Hdone eq_refl) in Hlog.
  split; [now apply new_events_app|]. split; [now apply Hall|].
  intros c a Ha. destruct (Hframe c a) as [H | [H _]]; [exact H | contradiction].
Qed.

Lemma write_msr_all_cpus_ascending_witness :
  let w := quiet_world ["3"; "1"; "microcode"; "0"; "2"]%string 0 "auto" in
  (0 <= 0x55 < 2 ^ 64) /\
  log (snd (write_msr_all_cpus MSR_PKG_POWER_LIMIT 0x55 w))
  = map (fun c => MsrWrite c MSR_PKG_POWER_LIMIT 0x55) [0; 1; 2; 3].
Proof.
  intros w. split; [lia|].
  destruct (write_msr_all_cpus_ascending
              MSR_PKG_POWER_LIMIT 0x55 w
              ["3"; "1"; "microcode"; "0"; "2"]%string)
    as [cpus [w' [Hrun _]]].
  - lia.
  - repeat split.
  - reflexivity.
  - vm_compute. reflexivity.
Defined.

(** ** CPU enumeration *)

Lemma int_digits_nonneg (s : string) :
  forall acc, 0 <= acc -> all_digits s = true -> 0 <= int_digits acc s.
Proof.
  induction s as [|c rest IH]; intros acc Hacc Hd; cbn [int_digits];
    [exact Hacc|].
  cbn [all_digits] in Hd. apply andb_true_iff in Hd. destruct Hd as [Hc Hrest].
  apply IH; [|exact Hrest]. unfold is_digit_char in Hc. cbn zeta in Hc.
  apply andb_true_iff in Hc. destruct Hc as [Hlo _]. apply Z.leb_le in Hlo. lia.
Qed.

Lemma py_int_nonneg (s : string) : isdigit s = true -> 0 <= py_int s.
Proof.
  intros H. unfold py_int. apply int_digits_nonneg; [lia|].
  destruct s; [discriminate | exact H].
Qed.

(** X9. The CPU ids [online_cpus] returns are exactly the values of the
    all-digit entry names (one id per such entry, so two names with the same
    value give the id twice), and every id is non-negative; names that are
    empty or contain another character contribute nothing. *)
Theorem online_cpus_members (w : World) (entries : list string) (cpus : list Z) :
  dev_cpu w = Some entries ->
  fst (online_cpus w) = Ok cpus ->
  (forall n, In n cpus <->
             exists entry, In entry entries /\ isdigit entry = true /\
                           py_int entry = n) /\
  Forall (fun n => 0 <= n) cpus /\
  List.length cpus = List.length (filter isdigit entries).
Proof.
  intros Hdev Hrun. rewrite (online_cpus_listing w entries Hdev) in Hrun.
  cbn [fst] in Hrun. injection Hrun as <-.
  pose proof (sorted_perm (map py_int (filter isdigit entries))) as Hperm.
  assert (Hin : forall n, In n (sorted (map py_int (filter isdigit entries))) <->
                          exists entry, In entry entries /\
                                        isdigit entry = true /\ py_int entry = n).
  { intros n. split.
    - intros H. apply (Permutation_in _ Hperm) in H. apply in_map_iff in H.
      destruct H as [entry [Hval Hentry]]. apply filter_In in Hentry.
      exists entry. tauto.
    - intros [entry [Hentry [Hdig Hval]]].
      apply (Permutation_in _ (Permutation_sym Hperm)). apply in_map_iff.
      exists entry. split; [exact Hval|]. apply filter_In. tauto. }
  split; [exact Hin|]. split.
  - apply Forall_forall. intros n Hn. apply Hin in Hn.
    destruct Hn as [entry [_ [Hdig <-]]]. now apply py_int_nonneg.
  - rewrite (Permutation_length Hperm). apply length_map.
Qed.

Lemma online_cpus_members_witness :
  let entries := ["1"; "0"; "01"; "cpu0"; "-1"; ""; "microcode"]%string in
  let w := quiet_world entries 0 "auto" in
  dev_cpu w = Some entries /\ fst (online_cpus w) = Ok [0; 1; 1] /\
  Forall (fun n => 0 <= n) [0; 1; 1].
Proof.
  intros entries w. split; [reflexivity|]. split; [reflexivity|].
  apply (online_cpus_members w entries [0; 1; 1] eq_refl eq_refl).
Defined.

(** ** Turbo enable *)

Lemma set_bits_idempotent (v hi lo f : Z) :
  0 <= lo -> lo <= hi ->
  set_bits (set_bits v hi lo f) hi lo f = set_bits v hi lo f.
Proof.
  intros Hlo Hhi. apply Z.bits_inj'. intros i Hi.
  rewrite !testbit_set_bits by lia.
  destruct ((lo <=? i) && (i <=? hi)); reflexivity.
Qed.

Lemma msr_io_works_u64 (w : World) (c a : Z) :
  msr_io_works w -> 0 <= le_combine (msr_data w c a) < 2 ^ 64.
Proof. intros [_ [_ [_ Hlen]]]. apply le_combine_u64, Hlen. Qed.

Lemma combine_split_u64 (v : Z) :
  0 <= v < 2 ^ 64 -> le_combine (le_split 8 v) = v.
Proof. intros Hv. rewrite le_combine_split. now apply Z.mod_small. Qed.

(** one turn of the loop of [set_turbo_enabled] on a working machine *)
Lemma turbo_step (b : Z) (cpu : Z) (w : World) :
  msr_io_works w ->
  let val := set_bits (le_combine (msr_data w cpu IA32_MISC_ENABLE)) 38 38 b in
  let w1 := store_msr cpu IA32_MISC_ENABLE (le_split 8 val)
              (emit (MsrWrite cpu IA32_MISC_ENABLE val)
                    (emit (MsrRead cpu IA32_MISC_ENABLE) w)) in
  (val0 <- read_msr IA32_MISC_ENABLE cpu ;;
   write_msr IA32_MISC_ENABLE (set_bits val0 38 38 b) cpu) w = (Ok tt, w1) /\
  msr_io_works w1.
Proof.
  intros Hw. cbn zeta. unfold bind. rewrite (read_msr_works _ _ _ Hw).
  rewrite write_msr_eq. cbn zeta.
  pose proof (msr_io_works_u64 w cpu IA32_MISC_ENABLE Hw) as Hraw.
  destruct Hw as [Hr [Ho [Hwr Hlen]]].
  change (msr_open_err (emit (MsrRead cpu IA32_MISC_ENABLE) w) cpu)
    with (msr_open_err w cpu).
  change (msr_write_err (emit (MsrRead cpu IA32_MISC_ENABLE) w) cpu
                        IA32_MISC_ENABLE)
    with (msr_write_err w cpu IA32_MISC_ENABLE).
  rewrite Ho, Hwr.
  replace ((0 <=? set_bits (le_combine (msr_data w cpu IA32_MISC_ENABLE)) 38 38 b)
           && (set_bits (le_combine (msr_data w cpu IA32_MISC_ENABLE)) 38 38 b
               <? 2 ^ 64)) with true
    by (symmetry; apply in_u64; apply set_bits_u64; lia).
  split; [reflexivity|]. repeat split; try assumption.
  intros c a. cbn [store_msr emit msr_data].
  destruct ((c =? cpu) && (a =? IA32_MISC_ENABLE));
    [apply length_le_split | apply Hlen].
Qed.

Lemma turbo_loop (enable : bool) (cpus : list Z) :
  let b := if enable then 0 else 1 in
  forall w,
    msr_io_works w ->
    exists w',
      for_each cpus
        (fun cpu =>
           val <- read_msr IA32_MISC_ENABLE cpu ;;
           (let val := if enable then set_bits val 38 38 0
                       else set_bits val 38 38 1 in
            write_msr IA32_MISC_ENABLE val cpu)) w = (Ok tt, w') /\
      msr_io_works w' /\
      (forall c, In c cpus ->
                 le_combine (msr_data w' c IA32_MISC_ENABLE)
                 = set_bits (le_combine (msr_data w c IA32_MISC_ENABLE)) 38 38 b) /\
      (forall c a, ~ In c cpus \/ a <> IA32_MISC_ENABLE ->
                   msr_data w' c a = msr_data w c a).
Proof.
  cbn zeta. induction cpus as [|x rest IH]; intros w Hw.
  - exists w. split; [reflexivity|]. split; [exact Hw|].
    split; [intros c []|]. intros c a _. reflexivity.
  - cbn [for_each]. unfold bind at 1.
    destruct (turbo_step (if enable then 0 else 1) x w Hw) as [Hstep Hw1].
    cbn zeta in Hstep.
    replace (fun val0 : Z =>
               write_msr IA32_MISC_ENABLE
                         (if enable then set_bits val0 38 38 0
                          else set_bits val0 38 38 1) x)
      with (fun val0 : Z =>
              write_msr IA32_MISC_ENABLE
                        (set_bits val0 38 38 (if enable then 0 else 1)) x)
      by (destruct enable; reflexivity).
    rewrite Hstep.
    set (val := set_bits (le_combine (msr_data w x IA32_MISC_ENABLE)) 38 38
                         (if enable then 0 else 1)) in *.
    set (w1 := store_msr x IA32_MISC_ENABLE (le_split 8 val) _) in *.
    assert (Hval : 0 <= val < 2 ^ 64).
    { apply set_bits_u64; try lia. now apply msr_io_works_u64. }
    assert (Hx : le_combine (msr_data w1 x IA32_MISC_ENABLE) = val).
    { unfold w1. cbn [store_msr msr_data]. rewrite !Z.eqb_refl. cbn [andb].
      now apply combine_split_u64. }
    assert (Hother : forall c a, c <> x \/ a <> IA32_MISC_ENABLE ->
                                 msr_data w1 c a = msr_data w c a).
    { intros c a Hne. unfold w1. cbn [store_msr msr_data emit].
      destruct (Z.eqb_spec c x), (Z.eqb_spec a IA32_MISC_ENABLE); cbn [andb];
        try reflexivity.
      destruct Hne; contradiction. }
    destruct (IH w1 Hw1) as [w' [Hrun [Hw' [Hin Hframe]]]].
    exists w'. split; [exact Hrun|]. split; [exact Hw'|]. split.
    + intros c Hc. destruct (in_dec Z.eq_dec c rest) as [Hrest | Hrest].
      * rewrite (Hin c Hrest). destruct (Z.eq_dec c x) as [-> | Hne].
        -- rewrite Hx. unfold val. apply set_bits_idempotent; lia.
        -- rewrite Hother by now left. reflexivity.
      * destruct Hc as [<- | Hc]; [|contradiction].
        rewrite Hframe by now left. exact Hx.
    + intros c a Hout. rewrite Hframe.
      * apply Hother. destruct Hout as [Hout | Hout]; [left | now right].
        intros ->. apply Hout. now left.
      * destruct Hout as [Hout | Hout]; [left | now right].
        intros Hc. apply Hout. now right.
Qed.

Lemma set_turbo_enabled_run (enable : bool) (w : World) (entries : list string) :
  msr_io_works w -> dev_cpu w = Some entries ->
  let cpus := sorted (map py_int (filter isdigit entries)) in
  let b := if enable then 0 else 1 in
  exists w',
    set_turbo_enabled enable w = (Ok tt, w') /\
    msr_io_works w' /\
    (forall c, In c cpus ->
               le_combine (msr_data w' c IA32_MISC_ENABLE)
               = set_bits (le_combine (msr_data w c IA32_MISC_ENABLE)) 38 38 b) /\
    (forall c a, ~ In c cpus \/ a <> IA32_MISC_ENABLE ->
                 msr_data w' c a = msr_data w c a).
Proof.
  intros Hw Hdev. cbn zeta. unfold set_turbo_enabled, bind at 1.
  rewrite (online_cpus_listing w entries Hdev).
  apply (turbo_loop enable _ w Hw).
Qed.

(** X10. On a machine whose MSR devices work, [set_turbo_enabled] changes
    bit 38 of IA32_MISC_ENABLE on every online CPU (0 to enable, 1 to
    disable) by a read-modify-write of that CPU's own register: all other
    bits of each CPU's register are kept as that CPU had them, and no other
    register and no CPU that is not listed is touched. *)
Theorem set_turbo_enabled_frame (enable : bool) (w : World)
        (entries : list string) :
  msr_io_works w -> dev_cpu w = Some entries ->
  exists w',
    set_turbo_enabled enable w = (Ok tt, w') /\
    (forall c, In c (sorted (map py_int (filter isdigit entries))) ->
       forall i, 0 <= i ->
         Z.testbit (le_combine (msr_data w' c IA32_MISC_ENABLE)) i =
         if i =? 38 then negb enable
         else Z.testbit (le_combine (msr_data w c IA32_MISC_ENABLE)) i) /\
    (forall c a,
        ~ In c (sorted (map py_int (filter isdigit entries)))
        \/ a <> IA32_MISC_ENABLE ->
        msr_data w' c a = msr_data w c a).
Proof.
  intros Hw Hdev.
  destruct (set_turbo_enabled_run enable w entries Hw Hdev)
    as [w' [Hrun [_ [Hin Hframe]]]].
  exists w'. split; [exact Hrun|]. split; [|exact Hframe].
  intros c Hc i Hi. rewrite (Hin c Hc), testbit_set_bits by lia.
  destruct (Z.eqb_spec i 38) as [-> | Hne].
  - cbn. destruct enable; reflexivity.
  - destruct (Z.leb_spec 38 i), (Z.leb_spec i 38); cbn [andb];
      try reflexivity; lia.
Qed.

Lemma set_turbo_enabled_frame_witness :
  let entries := ["0"; "1"]%string in
  let w := with_msr_data
             (fun c _ => if c =? 0 then le_split 8 0x850089
                         else le_split 8 0x4000850089)
             (quiet_world entries 0 "auto") in
  (msr_io_works w /\ dev_cpu w = Some entries) /\
  exists w',
    set_turbo_enabled false w = (Ok tt, w') /\
    (forall c, In c (sorted (map py_int (filter isdigit entries))) ->
       forall i, 0 <= i ->
         Z.testbit (le_combine (msr_data w' c IA32_MISC_ENABLE)) i =
         if i =? 38 then negb false
         else Z.testbit (le_combine (msr_data w c IA32_MISC_ENABLE)) i) /\
    (forall c a,
        ~ In c (sorted (map py_int (filter isdigit entries)))
        \/ a <> IA32_MISC_ENABLE ->
        msr_data w' c a = msr_data w c a).
Proof.
  intros entries w.
  assert (Hw : msr_io_works w).
  { repeat split. intros c a. cbn [w with_msr_data msr_data].
    destruct (c =? 0); apply length_le_split. }
  split; [split; [exact Hw | reflexivity]|].
  exact (set_turbo_enabled_frame false w entries Hw eq_refl).
Defined.

(** Disabling turbo on two CPUs whose registers differ: each keeps its own
    other bits. *)
Example set_turbo_enabled_per_cpu :
  let w := with_msr_data
             (fun c _ => if c =? 0 then le_split 8 0x850089
                         else le_split 8 0x850088)
             (quiet_world ["0"; "1"]%string 0 "auto") in
  map (fun c => le_combine (msr_data (snd (set_turbo_enabled false w)) c
                                     IA32_MISC_ENABLE)) [0; 1]
  = [0x4000850089; 0x4000850088].
Proof. vm_compute. reflexivity. Qed.

(** X11. After [set_turbo_enabled(enable)] on a working machine on which
    CPU 0 is online, [read_turbo_enabled] returns [enable]. *)
Theorem turbo_enabled_round_trip (enable : bool) (w : World)
        (entries : list string) :
  msr_io_works w -> dev_cpu w = Some entries ->
  In 0 (sorted (map py_int (filter isdigit entries))) ->
  exists w',
    set_turbo_enabled enable w = (Ok tt, w') /\
    fst (read_turbo_enabled w') = Ok enable.
Proof.
  intros Hw Hdev H0.
  destruct (set_turbo_enabled_run enable w entries Hw Hdev)
    as [w' [Hrun [Hw' [Hin _]]]].
  exists w'. split; [exact Hrun|].
  unfold read_turbo_enabled, bind. rewrite (read_msr_works _ _ _ Hw').
  unfold ret. cbn [fst]. rewrite (Hin 0 H0), bits_of_set_bits by lia.
  destruct enable; reflexivity.
Qed.

Lemma turbo_enabled_round_trip_witness :
  let entries := ["0"; "1"]%string in
  let w := quiet_world entries 0x850089 "auto" in
  (msr_io_works w /\ dev_cpu w = Some entries /\
   In 0 (sorted (map py_int (filter isdigit entries)))) /\
  fst (read_turbo_enabled (snd (set_turbo_enabled false w))) = Ok false.
Proof.
  intros entries w.
  assert (Hw : msr_io_works w) by (repeat split).
  assert (H0 : In 0 (sorted (map py_int (filter isdigit entries))))
    by (now left).
  split; [split; [exact Hw | split; [reflexivity | exact H0]]|].
  destruct (turbo_enabled_round_trip false w entries Hw eq_refl H0)
    as [w' [Hrun Hread]].
  rewrite Hrun. exact Hread.
Defined.

(** X12. [read_perf_status] returns bits 15..8 of the register: a value in
    0..255, equal to [(raw // 256) % 256]. *)
Theorem read_perf_status_byte (cpu : Z) (w : World) (r : Z) :
  fst (read_perf_status cpu w) = Ok r ->
  0 <= r < 256 /\
  r = (le_combine (firstn 8 (msr_data w cpu IA32_PERF_STATUS)) / 256) mod 256.
Proof.
  unfold read_perf_status, bind. rewrite read_msr_eq. cbn zeta.
  destruct (msr_read_err w cpu IA32_PERF_STATUS); [discriminate|].
  destruct (List.length _ =? 8)%nat; [|discriminate].
  unfold ret. cbn [fst]. intros [= <-]. split.
  - apply (bits_range _ 15 8); lia.
  - unfold bits. change (Z.shiftl 1 (15 - 8 + 1) - 1) with (Z.ones 8).
    rewrite Z.land_ones, Z.shiftr_div_pow2 by lia. reflexivity.
Qed.

Lemma read_perf_status_byte_witness :
  let w := quiet_world ["0"%string] 0x1D0000002400 "auto" in
  fst (read_perf_status 0 w) = Ok 0x24 /\ 0 <= 0x24 < 256.
Proof.
  intros w. split; [reflexivity|].
  apply (read_perf_status_byte 0 w 0x24). reflexivity.
Defined.

(** ** Turbo ratio table *)

Ltac field_bit :=
  rewrite testbit_bits by lia;
  match goal with
  | |- context [Z.testbit ?r (?i - ?lo + ?lo)] =>
      replace (i - lo + lo) with i by lia
  end;
  match goal with
  | |- context [?a <? ?b] => destruct (Z.ltb_spec a b); [reflexivity | lia]
  end.

Ltac peel_set_bits :=
  rewrite testbit_set_bits by lia;
  match goal with
  | |- context [(?lo <=? ?i) && (?i <=? ?hi)] =>
      destruct (Z.leb_spec lo i), (Z.leb_spec i hi); cbn [andb];
      try lia; try field_bit
  end.

Lemma encode_decoded_table (raw : Z) :
  0 <= raw < 2 ^ 64 ->
  encode_ratios 0 (map (fun i => bits raw (i * 8 + 7) (i * 8))
                       [0; 1; 2; 3; 4; 5; 6; 7]) 0 = raw.
Proof.
  intros Hraw. cbn -[set_bits bits Z.pow].
  apply Z.bits_inj'. intros i Hi.
  do 8 peel_set_bits.
  all: rewrite Z.testbit_0_l; symmetry; apply (testbit_high_false raw 64); lia.
Qed.

Lemma decoded_entries_bytes (raw : Z) :
  Forall (fun r => 0 <= r < 256)
         (map (fun i => bits raw (i * 8 + 7) (i * 8)) [0; 1; 2; 3; 4; 5; 6; 7]).
Proof.
  cbn -[bits]. repeat constructor;
    match goal with
    | |- _ <= bits _ ?hi ?lo => apply (proj1 (bits_range raw hi lo ltac:(lia) ltac:(lia)))
    | |- bits _ ?hi ?lo < _ => apply (proj2 (bits_range raw hi lo ltac:(lia) ltac:(lia)))
    end.
Qed.

(** X13. What [read_turbo_ratios] returns is the register split into its
    eight bytes, lowest first: a list of 8 entries, each in 0..255, that
    [write_turbo_ratios] would encode back to the very value read. *)
Theorem read_turbo_ratios_table (w : World) (ratios : list Z) :
  fst (read_turbo_ratios w) = Ok ratios ->
  List.length ratios = 8%nat /\
  Forall (fun r => 0 <= r < 256) ratios /\
  encode_ratios 0 ratios 0
  = le_combine (firstn 8 (msr_data w 0 MSR_TURBO_RATIO_LIMIT)).
Proof.
  unfold read_turbo_ratios, bind.
  destruct (read_msr MSR_TURBO_RATIO_LIMIT 0 w) as [[raw|e] w1] eqn:Hread;
    [|discriminate].
  assert (Hfst : fst (read_msr MSR_TURBO_RATIO_LIMIT 0 w) = Ok raw)
    by now rewrite Hread.
  pose proof (read_msr_u64 _ _ _ _ Hfst) as Hraw.
  assert (Hval : raw = le_combine (firstn 8 (msr_data w 0 MSR_TURBO_RATIO_LIMIT))).
  { revert Hfst. rewrite read_msr_eq. cbn zeta.
    destruct (msr_read_err w 0 MSR_TURBO_RATIO_LIMIT); [discriminate|].
    destruct (List.length _ =? 8)%nat; [|discriminate].
    cbn. now intros [= <-]. }
  unfold ret. cbn [fst]. intros [= <-].
  split; [reflexivity|]. split; [apply decoded_entries_bytes|].
  rewrite <- Hval. now apply encode_decoded_table.
Qed.

Lemma read_turbo_ratios_table_witness :
  let w := quiet_world ["0"%string] 0x1E1E1E1E20212223 "auto" in
  fst (read_turbo_ratios w) = Ok [35; 34; 33; 32; 30; 30; 30; 30] /\
  encode_ratios 0 [35; 34; 33; 32; 30; 30; 30; 30] 0
  = le_combine (firstn 8 (msr_data w 0 MSR_TURBO_RATIO_LIMIT)).
Proof.
  intros w. split; [reflexivity|].
  apply (read_turbo_ratios_table w [35; 34; 33; 32; 30; 30; 30; 30]).
  reflexivity.
Defined.

Lemma eight_entries (l : list Z) :
  List.length l = 8%nat ->
  exists t0 t1 t2 t3 t4 t5 t6 t7, l = [t0; t1; t2; t3; t4; t5; t6; t7].
Proof.
  intros H.
  do 8 (destruct l as [|? l]; [discriminate|]).
  destruct l; [|discriminate]. repeat eexists.
Qed.

Lemma land_byte_all (l : list Z) :
  Forall (fun t => 0 <= t < 256) l -> map (fun t => Z.land t 255) l = l.
Proof.
  induction 1 as [|t l Ht _ IH]; [reflexivity|].
  cbn [map]. now rewrite IH, land_byte_small.
Qed.

(** X14. Write-then-read of the table: on a working machine with CPU 0
    online, [write_turbo_ratios] of eight entries in 0..255 returns
    normally and a following [read_turbo_ratios] returns the same eight
    entries. *)
Theorem turbo_ratios_round_trip (ratios : list Z) (w : World)
        (entries : list string) :
  List.length ratios = 8%nat ->
  Forall (fun t => 0 <= t < 256) ratios ->
  msr_io_works w -> dev_cpu w = Some entries ->
  In 0 (sorted (map py_int (filter isdigit entries))) ->
  exists w',
    write_turbo_ratios ratios w = (Ok tt, w') /\
    fst (read_turbo_ratios w') = Ok ratios.
Proof.
  intros Hlen Hbytes Hw Hdev H0.
  destruct (eight_entries ratios Hlen)
    as [t0 [t1 [t2 [t3 [t4 [t5 [t6 [t7 ->]]]]]]]].
  destruct (encode_ratios_table t0 t1 t2 t3 t4 t5 t6 t7) as [Hv Htable].
  set (v := encode_ratios 0 [t0; t1; t2; t3; t4; t5; t6; t7] 0) in *.
  destruct (broadcast_works MSR_TURBO_RATIO_LIMIT v
              (sorted (map py_int (filter isdigit entries))) Hv w Hw)
    as [w' [Hrun Hw']].
  exists w'. unfold write_turbo_ratios. fold v.
  rewrite write_msr_all_cpus_eq, (online_cpus_listing w entries Hdev).
  cbn [fst]. split; [exact Hrun|].
  apply broadcast_loop in Hrun. destruct Hrun as [_ [_ [_ Hall]]].
  unfold read_turbo_ratios, bind. rewrite (read_msr_works _ _ _ Hw').
  unfold ret. cbn [fst]. rewrite (Hall eq_refl 0 H0).
  rewrite (combine_split_u64 v Hv), Htable. f_equal. now apply land_byte_all.
Qed.

Lemma turbo_ratios_round_trip_witness :
  let ratios := [36; 35; 34; 33; 30; 30; 30; 30] in
  let entries := ["0"; "1"]%string in
  let w := quiet_world entries 0 "auto" in
  (List.length ratios = 8%nat /\ Forall (fun t => 0 <= t < 256) ratios /\
   msr_io_works w /\ dev_cpu w = Some entries) /\
  exists w',
    write_turbo_ratios ratios w = (Ok tt, w') /\
    fst (read_turbo_ratios w') = Ok ratios.
Proof.
  intros ratios entries w.
  assert (Hb : Forall (fun t => 0 <= t < 256) ratios)
    by (repeat constructor; lia).
  assert (Hw : msr_io_works w) by (repeat split).
  split; [repeat split; assumption|].
  apply (turbo_ratios_round_trip ratios w entries eq_refl Hb Hw eq_refl).
  now left.
Defined.

(** X15. [write_turbo_ratios] builds the value from 0, so a list shorter
    than 8 writes zero into the entries it does not mention: the encoded
    value of [n <= 8] entries decodes to their low bytes followed by
    [8 - n] zeros. *)
Theorem short_table_zeroes_rest (ratios : list Z) :
  (List.length ratios <= 8)%nat ->
  let v := encode_ratios 0 ratios 0 in
  0 <= v < 2 ^ 64 /\
  map (fun i => bits v (i * 8 + 7) (i * 8)) [0; 1; 2; 3; 4; 5; 6; 7]
  = map (fun t => Z.land t 255) ratios
    ++ repeat 0 (8 - List.length ratios).
Proof.
  intros Hlen. cbn zeta.
  do 9 (destruct ratios as [|? ratios];
        [cbn -[set_bits bits Z.pow Z.land]; split;
         [repeat (apply set_bits_u64; try lia); lia
         |repeat (apply (f_equal2 (@cons Z));
                  [rewrite ?bits_set_bits_other by lia;
                   first [rewrite bits_of_set_bits by lia; reflexivity
                         | reflexivity]|]);
          reflexivity]|]).
  cbn in Hlen. lia.
Qed.

Lemma short_table_zeroes_rest_witness :
  (List.length [36; 35; 34; 33] <= 8)%nat /\
  map (fun i => bits (encode_ratios 0 [36; 35; 34; 33] 0) (i * 8 + 7) (i * 8))
      [0; 1; 2; 3; 4; 5; 6; 7]
  = map (fun t => Z.land t 255) [36; 35; 34; 33]
    ++ repeat 0 (8 - List.length [36; 35; 34; 33]).
Proof.
  split; [cbn; lia|].
  apply (short_table_zeroes_rest [36; 35; 34; 33]). cbn. lia.
Defined.

(** X16. A ninth entry does not fit the register: when its low byte is not
    zero the encoded value is 2^64 or more, and [write_turbo_ratios] raises
    [struct.error] at the first online CPU without changing any register. *)
Theorem ninth_entry_raises (t0 t1 t2 t3 t4 t5 t6 t7 t8 : Z) (w : World)
        (c : Z) (rest : list Z) :
  Z.land t8 255 <> 0 ->
  fst (online_cpus w) = Ok (c :: rest) ->
  msr_open_err w c = None ->
  let ratios := [t0; t1; t2; t3; t4; t5; t6; t7; t8] in
  2 ^ 64 <= encode_ratios 0 ratios 0 /\
  fst (write_turbo_ratios ratios w) = Raise StructError /\
  forall x a, msr_data (snd (write_turbo_ratios ratios w)) x a = msr_data w x a.
Proof.
  intros Hbyte Hon Hopen. cbn zeta.
  set (v := encode_ratios 0 [t0; t1; t2; t3; t4; t5; t6; t7; t8] 0).
  assert (Hbits : bits v 71 64 = Z.land t8 255).
  { unfold v. cbn -[set_bits bits Z.land].
    rewrite bits_of_set_bits by lia. reflexivity. }
  assert (Hnn : 0 <= v).
  { unfold v. cbn -[set_bits]. repeat (apply set_bits_nonneg; try lia). }
  assert (Hbig : 2 ^ 64 <= v).
  { destruct (Z.le_gt_cases (2 ^ 64) v) as [H | H]; [exact H|].
    exfalso. apply Hbyte. rewrite <- Hbits.
    apply Z.bits_inj'. intros i Hi. rewrite testbit_bits by lia.
    rewrite (testbit_high_false v 64) by lia.
    rewrite Z.testbit_0_l. apply andb_false_r. }
  split; [exact Hbig|].
  unfold write_turbo_ratios. fold v.
  rewrite write_msr_all_cpus_eq, Hon. cbn [for_each]. unfold bind.
  rewrite write_msr_eq. cbn zeta. rewrite Hopen.
  destruct ((0 <=? v) && (v <? 2 ^ 64)) eqn:Hv.
  - apply in_u64 in Hv. lia.
  - split; [reflexivity|]. intros x a. reflexivity.
Qed.

Lemma ninth_entry_raises_witness :
  let w := quiet_world ["0"; "1"]%string 0x1E1E1E1E20212223 "auto" in
  (Z.land 1 255 <> 0 /\ fst (online_cpus w) = Ok (0 :: [1])) /\
  fst (write_turbo_ratios [36; 35; 34; 33; 30; 30; 30; 30; 1] w)
  = Raise StructError.
Proof.
  intros w. split; [split; [discriminate | reflexivity]|].
  apply (ninth_entry_raises 36 35 34 33 30 30 30 30 1 w 0 [1]);
    [discriminate | reflexivity | reflexivity].
Defined.

(** ** RAPL units and power limits *)

Lemma unit_at_most_one (k : Z) : 0 <= k -> (1 / inject_Z (Z.shiftl 1 k) <= 1)%Q.
Proof.
  intros Hk. rewrite Z.shiftl_1_l.
  assert (H : (1 <= inject_Z (2 ^ k))%Q).
  { change 1%Q with (inject_Z 1). rewrite <- Zle_Qle.
    pose proof (Z.pow_pos_nonneg 2 k). lia. }
  apply Qle_shift_div_r; lra.
Qed.

(** X17. The units [read_rapl_units] returns are [1/2^k] with [k] the
    4-bit exponent read from bits 3..0 (power) and 19..16 (time) of CPU 0's
    unit register: each lies in (0, 1]; with power exponent 3 the power
    unit is 0.125 W. *)
Theorem rapl_units_powers_of_two (w w' : World) (pu tu : Q) :
  read_rapl_units w = (Ok (pu, tu), w') ->
  let raw := le_combine (firstn 8 (msr_data w 0 MSR_RAPL_POWER_UNIT)) in
  (0 <= bits raw 3 0 <= 15 /\ 0 <= bits raw 19 16 <= 15) /\
  (pu == 1 / inject_Z (2 ^ bits raw 3 0))%Q /\
  (tu == 1 / inject_Z (2 ^ bits raw 19 16))%Q /\
  (0 < pu <= 1)%Q /\ (0 < tu <= 1)%Q /\
  (bits raw 3 0 = 3 -> (pu == 1 # 8)%Q).
Proof.
  unfold read_rapl_units, bind. rewrite read_msr_eq. cbn zeta.
  destruct (msr_read_err w 0 MSR_RAPL_POWER_UNIT); [discriminate|].
  destruct (List.length _ =? 8)%nat; [|discriminate].
  unfold ret. intros H. cbn zeta.
  set (raw := le_combine (firstn 8 (msr_data w 0 MSR_RAPL_POWER_UNIT))) in *.
  assert (Hpu : pu = (1 / inject_Z (Z.shiftl 1 (bits raw 3 0)))%Q) by congruence.
  assert (Htu : tu = (1 / inject_Z (Z.shiftl 1 (bits raw 19 16)))%Q) by congruence.
  clear H. subst pu tu.
  pose proof (bits_range raw 3 0 ltac:(lia) ltac:(lia)) as Hp.
  pose proof (bits_range raw 19 16 ltac:(lia) ltac:(lia)) as Ht.
  change (2 ^ (3 - 0 + 1)) with 16 in Hp. change (2 ^ (19 - 16 + 1)) with 16 in Ht.
  split; [lia|].
  split; [now rewrite Z.shiftl_1_l|]. split; [now rewrite Z.shiftl_1_l|].
  split; [split; [apply unit_positive | apply unit_at_most_one]; lia|].
  split; [split; [apply unit_positive | apply unit_at_most_one]; lia|].
  intros ->. reflexivity.
Qed.

Lemma rapl_units_powers_of_two_witness :
  let w := quiet_world ["0"%string] 0xA1003 "auto" in
  read_rapl_units w
  = (Ok ((1 / inject_Z (Z.shiftl 1 3))%Q, (1 / inject_Z (Z.shiftl 1 10))%Q),
     emit (MsrRead 0 MSR_RAPL_POWER_UNIT) w) /\
  (1 / inject_Z (Z.shiftl 1 3) == 1 # 8)%Q.
Proof.
  intros w. split; [reflexivity|].
  apply (rapl_units_powers_of_two
           w (emit (MsrRead 0 MSR_RAPL_POWER_UNIT) w)
           (1 / inject_Z (Z.shiftl 1 3))%Q (1 / inject_Z (Z.shiftl 1 10))%Q
           eq_refl).
  reflexivity.
Defined.

Lemma py_bool_bit (raw n : Z) :
  0 <= n -> py_bool (bits raw n n) = Z.testbit raw n.
Proof.
  intros Hn. unfold py_bool.
  assert (H : bits raw n n = Z.b2z (Z.testbit raw n)).
  { unfold bits. replace (n - n + 1) with 1 by lia.
    change (Z.shiftl 1 1 - 1) with (Z.ones 1).
    rewrite Z.land_ones, Z.shiftr_div_pow2 by lia.
    change (2 ^ 1) with 2. rewrite <- Z.bit0_mod.
    rewrite <- Z.shiftr_div_pow2, Z.shiftr_spec by lia. reflexivity. }
  rewrite H. destruct (Z.testbit raw n); reflexivity.
Qed.

Lemma time_window_bounds (field : Z) (tu : Q) :
  (0 < tu)%Q ->
  (tu <= _decode_time_window field tu)%Q /\
  (_decode_time_window field tu <= 2147483648 * (7 # 4) * tu)%Q.
Proof.
  intros Htu. unfold _decode_time_window.
  assert (Hy : 0 <= Z.land field 0x1F < 32).
  { change 0x1F with (Z.ones 5). rewrite Z.land_ones by lia.
    apply Z.mod_pos_bound. lia. }
  assert (Hz : 0 <= Z.land (Z.shiftr field 5) 0x3 < 4).
  { change 0x3 with (Z.ones 2). rewrite Z.land_ones by lia.
    apply Z.mod_pos_bound. lia. }
  set (y := Z.land field 0x1F) in *. set (z := Z.land (Z.shiftr field 5) 0x3) in *.
  assert (HA : (1 <= inject_Z (2 ^ y) <= 2147483648)%Q).
  { change 1%Q with (inject_Z 1). change 2147483648%Q with (inject_Z (2 ^ 31)).
    rewrite <- !Zle_Qle. split.
    - pose proof (Z.pow_pos_nonneg 2 y). lia.
    - apply Z.pow_le_mono_r; lia. }
  assert (HB : (1 <= 1 + inject_Z z / 4 <= 7 # 4)%Q).
  { assert (H0 : (0 <= inject_Z z <= 3)%Q).
    { change 0%Q with (inject_Z 0). change 3%Q with (inject_Z 3).
      rewrite <- !Zle_Qle. lia. }
    unfold Qdiv. change (/ 4)%Q with (1 # 4)%Q. lra. }
  set (A := inject_Z (2 ^ y)) in *. set (B := (1 + inject_Z z / 4)%Q) in *.
  assert (H1 : (1 <= A * B)%Q) by nra.
  assert (H2 : (A * B <= 2147483648 * (7 # 4))%Q) by nra.
  set (C := (A * B)%Q) in *. split; nra.
Qed.

(** X18. What [read_power_limits] decodes is bounded by the field widths:
    for positive units each wattage lies in [0, 32768 * power_unit) and
    each time window in [time_unit, 2^31 * 1.75 * time_unit]; the three
    flags are bits 15, 47 and 63 of the register. *)
Theorem decode_power_limits_bounds (raw : Z) (pu tu : Q) :
  (0 < pu)%Q -> (0 < tu)%Q ->
  let d := decode_power_limits raw pu tu in
  (0 <= pl1_w d < 32768 * pu)%Q /\ (0 <= pl2_w d < 32768 * pu)%Q /\
  (tu <= pl1_time d <= 2147483648 * (7 # 4) * tu)%Q /\
  (tu <= pl2_time d <= 2147483648 * (7 # 4) * tu)%Q /\
  pl1_enabled d = Z.testbit raw 15 /\
  pl2_enabled d = Z.testbit raw 47 /\
  locked d = Z.testbit raw 63.
Proof.
  intros Hpu Htu. cbn zeta. unfold decode_power_limits.
  cbn [pl1_w pl2_w pl1_time pl2_time pl1_enabled pl2_enabled locked].
  assert (Hw : forall hi lo, 0 <= lo -> hi - lo + 1 = 15 ->
                 (0 <= inject_Z (bits raw hi lo) * pu < 32768 * pu)%Q).
  { intros hi lo Hlo Hwidth.
    pose proof (bits_range raw hi lo Hlo ltac:(lia)) as Hb.
    rewrite Hwidth in Hb. change (2 ^ 15) with 32768 in Hb.
    assert (H0 : (0 <= inject_Z (bits raw hi lo))%Q).
    { change 0%Q with (inject_Z 0). rewrite <- Zle_Qle. lia. }
    assert (H1 : (inject_Z (bits raw hi lo) < 32768)%Q).
    { change 32768%Q with (inject_Z 32768). rewrite <- Zlt_Qlt. lia. }
    set (n := inject_Z (bits raw hi lo)) in *. split; nra. }
  split; [apply Hw; lia|]. split; [apply Hw; lia|].
  split; [apply time_window_bounds; assumption|].
  split; [apply time_window_bounds; assumption|].
  rewrite !py_bool_bit by lia. repeat split.
Qed.

Lemma decode_power_limits_bounds_witness :
  ((0 < 1 # 8)%Q /\ (0 < 1 # 1024)%Q) /\
  let d := decode_power_limits 0x8000815800DD8118 (1 # 8) (1 # 1024) in
  (0 <= pl1_w d < 32768 * (1 # 8))%Q /\ (0 <= pl2_w d < 32768 * (1 # 8))%Q /\
  ((1 # 1024) <= pl1_time d <= 2147483648 * (7 # 4) * (1 # 1024))%Q /\
  ((1 # 1024) <= pl2_time d <= 2147483648 * (7 # 4) * (1 # 1024))%Q /\
  pl1_enabled d = Z.testbit 0x8000815800DD8118 15 /\
  pl2_enabled d = Z.testbit 0x8000815800DD8118 47 /\
  locked d = Z.testbit 0x8000815800DD8118 63.
Proof.
  split; [split; reflexivity|].
  apply (decode_power_limits_bounds 0x8000815800DD8118 (1 # 8) (1 # 1024));
    reflexivity.
Defined.

Lemma field_of_multiple (n : Z) (pu : Q) :
  (0 < pu)%Q -> pl_field (Some (inject_Z n * pu)%Q) pu = Ok (Some n).
Proof.
  intros Hpu. unfold pl_field. rewrite (Qeq_bool_pos pu Hpu).
  now rewrite round_trip_field.
Qed.

Lemma pl_field_defined (a : option Q) (pu : Q) :
  (0 < pu)%Q -> exists f, pl_field a pu = Ok f /\ (a = None -> f = None).
Proof.
  intros Hpu. destruct a as [a|]; cbn [pl_field].
  - rewrite (Qeq_bool_pos pu Hpu). eexists. split; [reflexivity | discriminate].
  - exists None. split; reflexivity.
Qed.

Lemma low15 (n : Z) : Z.land n (Z.shiftl 1 (14 - 0 + 1) - 1) = n mod 32768.
Proof.
  change (Z.shiftl 1 (14 - 0 + 1) - 1) with (Z.ones 15).
  now rewrite Z.land_ones by lia.
Qed.

(** X19. Write-then-decode of a wattage: writing [n * power_unit] watts as
    PL1 (resp. PL2) and decoding the value written gives back
    [(n mod 32768) * power_unit] watts, with that limit enabled and the
    lock flag clear; so every wattage whose raw field fits 15 bits comes
    back unchanged, and a larger one wraps around. *)
Theorem written_watts_decode (raw n : Z) (other : option Q) (pu tu : Q)
        (w : World) :
  (0 < pu)%Q ->
  (exists v,
      encode_pl_watts raw (Some (inject_Z n * pu)%Q) other pu w = (Ok v, w) /\
      let d := decode_power_limits v pu tu in
      (pl1_w d == inject_Z (n mod 32768) * pu)%Q /\
      pl1_enabled d = true /\ locked d = false) /\
  (exists v,
      encode_pl_watts raw other (Some (inject_Z n * pu)%Q) pu w = (Ok v, w) /\
      let d := decode_power_limits v pu tu in
      (pl2_w d == inject_Z (n mod 32768) * pu)%Q /\
      pl2_enabled d = true /\ locked d = false).
Proof.
  intros Hpu. destruct (pl_field_defined other pu Hpu) as [f [Hf _]]. split.
  - eexists. split.
    { rewrite encode_pl_watts_eq, (field_of_multiple n pu Hpu), Hf. reflexivity. }
    cbn zeta. unfold decode_power_limits. cbn [pl1_w pl1_enabled locked].
    cbn [apply_limit]. split; [|split].
    + replace (bits _ 14 0) with (n mod 32768); [reflexivity|].
      destruct f as [f|]; cbn [apply_limit];
        rewrite ?bits_set_bits_other by lia;
        rewrite bits_of_set_bits by lia; now rewrite low15.
    + replace (bits _ 15 15) with 1; [reflexivity|].
      destruct f as [f|]; cbn [apply_limit];
        rewrite ?bits_set_bits_other by lia;
        rewrite bits_of_set_bits by lia; reflexivity.
    + rewrite bits_of_set_bits by lia. reflexivity.
  - eexists. split.
    { rewrite encode_pl_watts_eq, Hf, (field_of_multiple n pu Hpu). reflexivity. }
    cbn zeta. unfold decode_power_limits. cbn [pl2_w pl2_enabled locked].
    cbn [apply_limit]. split; [|split].
    + replace (bits _ 46 32) with (n mod 32768); [reflexivity|].
      rewrite ?bits_set_bits_other by lia.
      rewrite bits_of_set_bits by lia.
      change (Z.shiftl 1 (46 - 32 + 1) - 1) with (Z.ones 15).
      now rewrite Z.land_ones by lia.
    + replace (bits _ 47 47) with 1; [reflexivity|].
      rewrite ?bits_set_bits_other by lia.
      rewrite bits_of_set_bits by lia; reflexivity.
    + rewrite bits_of_set_bits by lia. reflexivity.
Qed.

Lemma written_watts_decode_witness :
  (0 < 1 # 8)%Q /\
  exists v,
    encode_pl_watts 0x8000815800DD8118 (Some (inject_Z 360 * (1 # 8))%Q) None
                    (1 # 8) (quiet_world ["0"%string] 0 "auto")
    = (Ok v, quiet_world ["0"%string] 0 "auto") /\
    let d := decode_power_limits v (1 # 8) (1 # 1024) in
    (pl1_w d == inject_Z (360 mod 32768) * (1 # 8))%Q /\
    pl1_enabled d = true /\ locked d = false.
Proof.
  split; [reflexivity|].
  apply (proj1 (written_watts_decode
                  0x8000815800DD8118 360 None (1 # 8) (1 # 1024)
                  (quiet_world ["0"%string] 0 "auto") eq_refl)).
Defined.

Lemma encode_pl_watts_value (raw : Z) (pl1 pl2 : option Q) (pu : Q) (w : World)
      (v : Z) :
  fst (encode_pl_watts raw pl1 pl2 pu w) = Ok v ->
  exists f1 f2,
    pl_field pl1 pu = Ok f1 /\ pl_field pl2 pu = Ok f2 /\
    v = set_bits (apply_limit (apply_limit raw 14 0 15 f1) 46 32 47 f2) 63 63 0.
Proof.
  rewrite encode_pl_watts_eq.
  destruct (pl_field pl1 pu) as [f1|]; [|discriminate].
  destruct (pl_field pl2 pu) as [f2|]; [|discriminate].
  cbn [fst]. intros [= <-]. exists f1, f2. repeat split.
Qed.

Lemma bits_apply_limit_other (raw hi lo en : Z) (f : option Z) (hi' lo' : Z) :
  0 <= lo -> lo <= hi -> 0 <= en -> 0 <= lo' -> lo' <= hi' ->
  (hi < lo' \/ hi' < lo) -> (en < lo' \/ hi' < en) ->
  bits (apply_limit raw hi lo en f) hi' lo' = bits raw hi' lo'.
Proof.
  intros Hlo Hhi Hen Hlo' Hhi' H1 H2. destruct f as [f|]; [|reflexivity].
  unfold apply_limit. now rewrite !bits_set_bits_other by lia.
Qed.

Lemma testbit_apply_limit_other (raw hi lo en : Z) (f : option Z) (i : Z) :
  0 <= lo -> lo <= hi -> 0 <= en -> 0 <= i ->
  (i < lo \/ hi < i) -> i <> en ->
  Z.testbit (apply_limit raw hi lo en f) i = Z.testbit raw i.
Proof.
  intros Hlo Hhi Hen Hi Hout Hne. destruct f as [f|]; [|reflexivity].
  unfold apply_limit. rewrite !testbit_set_bits by lia.
  destruct (Z.leb_spec en i), (Z.leb_spec i en); cbn [andb]; try lia;
    destruct (Z.leb_spec lo i), (Z.leb_spec i hi); cbn [andb]; try lia;
      reflexivity.
Qed.

(** X20. [write_pl_watts] preserves the fields it does not own: whatever
    wattages are passed, bits 16..31, 48..62 and everything above bit 63
    of the value written are those of the value read, so both time-window
    fields, and the time windows decoded from them, are unchanged. *)
Theorem write_keeps_other_fields (raw : Z) (pl1 pl2 : option Q) (pu : Q)
        (w : World) (v : Z) :
  fst (encode_pl_watts raw pl1 pl2 pu w) = Ok v ->
  (forall i, 16 <= i <= 31 \/ 48 <= i <= 62 \/ 64 <= i ->
             Z.testbit v i = Z.testbit raw i) /\
  bits v 23 17 = bits raw 23 17 /\
  bits v 55 49 = bits raw 55 49 /\
  (forall tu, pl1_time (decode_power_limits v pu tu)
              = pl1_time (decode_power_limits raw pu tu) /\
              pl2_time (decode_power_limits v pu tu)
              = pl2_time (decode_power_limits raw pu tu)).
Proof.
  intros Henc. apply encode_pl_watts_value in Henc.
  destruct Henc as [f1 [f2 [_ [_ ->]]]].
  assert (H1 : bits (set_bits (apply_limit (apply_limit raw 14 0 15 f1)
                                           46 32 47 f2) 63 63 0) 23 17
               = bits raw 23 17).
  { rewrite bits_set_bits_other by lia.
    rewrite !bits_apply_limit_other by lia. reflexivity. }
  assert (H2 : bits (set_bits (apply_limit (apply_limit raw 14 0 15 f1)
                                           46 32 47 f2) 63 63 0) 55 49
               = bits raw 55 49).
  { rewrite bits_set_bits_other by lia.
    rewrite !bits_apply_limit_other by lia. reflexivity. }
  split; [|split; [exact H1 | split; [exact H2|]]].
  - intros i Hi. rewrite testbit_set_bits by lia.
    destruct (Z.leb_spec 63 i), (Z.leb_spec i 63); cbn [andb]; try lia;
      rewrite !testbit_apply_limit_other by lia; reflexivity.
  - intros tu. unfold decode_power_limits. cbn [pl1_time pl2_time].
    rewrite H1, H2. split; reflexivity.
Qed.

Lemma write_keeps_other_fields_witness :
  fst (encode_pl_watts 0x8000815800DD8118 (Some 45%Q) (Some 55%Q) (1 # 8)
                       (quiet_world ["0"%string] 0 "auto"))
  = Ok 0x000081B800DD8168 /\
  bits 0x000081B800DD8168 23 17 = bits 0x8000815800DD8118 23 17 /\
  bits 0x000081B800DD8168 55 49 = bits 0x8000815800DD8118 55 49.
Proof.
  split; [vm_compute; reflexivity|].
  destruct (write_keeps_other_fields
              0x8000815800DD8118 (Some 45%Q) (Some 55%Q) (1 # 8)
              (quiet_world ["0"%string] 0 "auto") 0x000081B800DD8168)
    as [_ [H1 [H2 _]]]; [vm_compute; reflexivity|].
  split; assumption.
Defined.

(** X21. A zero power unit with a wattage present makes [write_pl_watts]
    raise [ZeroDivisionError] right after the read of CPU 0 (if that read
    succeeds): no write is attempted and no register changes. *)
Theorem zero_power_unit_raises (pl1 pl2 : option Q) (pu : Q) (w : World)
        (raw : Z) :
  (pu == 0)%Q -> pl1 <> None \/ pl2 <> None ->
  fst (read_msr MSR_PKG_POWER_LIMIT 0 w) = Ok raw ->
  write_pl_watts pl1 pl2 pu w
  = (Raise ZeroDivisionError, emit (MsrRead 0 MSR_PKG_POWER_LIMIT) w).
Proof.
  intros Hpu Hsome Hread. rewrite write_pl_watts_eq. cbn zeta. rewrite Hread.
  rewrite encode_pl_watts_eq.
  assert (Hz : Qeq_bool pu 0 = true) by now apply Qeq_eq_bool.
  destruct pl1 as [a|]; cbn [pl_field]; rewrite ?Hz; [reflexivity|].
  destruct pl2 as [b|]; cbn [pl_field]; rewrite ?Hz; [reflexivity|].
  destruct Hsome as [H | H]; now elim H.
Qed.

Lemma zero_power_unit_raises_witness :
  let w := quiet_world ["0"%string] 0xDD8118 "auto" in
  ((0 == 0)%Q /\ fst (read_msr MSR_PKG_POWER_LIMIT 0 w) = Ok 0xDD8118) /\
  write_pl_watts (Some 45%Q) None 0 w
  = (Raise ZeroDivisionError, emit (MsrRead 0 MSR_PKG_POWER_LIMIT) w).
Proof.
  intros w. split; [split; reflexivity|].
  apply (zero_power_unit_raises (Some 45%Q) None 0 w 0xDD8118);
    [reflexivity | left; discriminate | reflexivity].
Defined.

(** ** Power-limit callbacks *)

Lemma write_pl_watts_log_ext (pl1 pl2 : option Q) (pu : Q) (w : World) :
  exists evs, log (snd (write_pl_watts pl1 pl2 pu w)) = log w ++ evs.
Proof.
  rewrite write_pl_watts_eq. cbn zeta.
  destruct (fst (read_msr MSR_PKG_POWER_LIMIT 0 w)) as [raw|e];
    [|eexists; reflexivity].
  destruct (fst (encode_pl_watts raw pl1 pl2 pu w)) as [v|e];
    [|eexists; reflexivity].
  rewrite write_msr_all_cpus_eq.
  destruct (fst (online_cpus _)) as [cpus|e]; [|eexists; reflexivity].
  destruct (for_each cpus _ _) as [res w'] eqn:Hrun.
  apply broadcast_loop in Hrun. destruct Hrun as [[done [Hlog _]] _].
  cbn [snd]. rewrite Hlog. cbn [log emit]. rewrite <- app_assoc.
  eexists. reflexivity.
Qed.

Lemma written_values_app (msr : Z) (a b : list event) :
  written_values msr (a ++ b) = written_values msr a ++ written_values msr b.
Proof.
  induction a as [|e a IH]; [reflexivity|].
  destruct e; cbn [app written_values]; try exact IH.
  destruct (msr0 =? msr); cbn [app]; now rewrite IH.
Qed.

Lemma apply_power_limits_eq (self : Gui) (s1 s2 : Z) (w : World) :
  fst (_apply_power_limits self s1 s2 w) = Ok tt /\
  broadcasts (_apply_power_limits self s1 s2) w
  = broadcasts (write_pl_watts (Some (inject_Z s1)) (Some (inject_Z s2))
                               (power_unit self)) w.
Proof.
  unfold _apply_power_limits, try_except, broadcasts.
  destruct (write_pl_watts_log_ext (Some (inject_Z s1)) (Some (inject_Z s2))
                                   (power_unit self) w) as [evs Hlog].
  destruct (write_pl_watts _ _ _ w) as [[[]|e] w'] eqn:Hrun; cbn [fst snd] in *.
  - split; reflexivity.
  - unfold tell. cbn [fst snd]. split; [reflexivity|].
    rewrite (new_events_app w w' evs Hlog).
    rewrite (new_events_app w (emit (Dialog Critical "Error") w')
                            (evs ++ [Dialog Critical "Error"])).
    + rewrite written_values_app. cbn [written_values]. apply app_nil_r.
    + cbn [log emit]. rewrite Hlog. now rewrite <- app_assoc.
Qed.

Lemma round_of_slider (s k : Z) :
  0 <= k ->
  py_round (inject_Z s / (1 / inject_Z (Z.shiftl 1 k))) = s * 2 ^ k.
Proof.
  intros Hk. apply py_round_inject_Z. rewrite Z.shiftl_1_l.
  rewrite inject_Z_mult. unfold Qdiv. rewrite Qmult_1_l, Qinv_involutive.
  reflexivity.
Qed.

Lemma slider_unit_field (s k : Z) :
  0 <= k ->
  pl_field (Some (inject_Z s)) (1 / inject_Z (Z.shiftl 1 k))
  = Ok (Some (s * 2 ^ k)).
Proof.
  intros Hk. unfold pl_field.
  rewrite (Qeq_bool_pos _ (unit_positive k Hk)).
  now rewrite round_of_slider.
Qed.

(** X22. [_apply_power_limits] never raises (a failure ends in an error
    box); every value it broadcasts has both enable bits set and the lock
    bit clear; and with a session power unit [1/2^k] the two fields hold
    the slider values times [2^k] (modulo the 15-bit width). *)
Theorem apply_power_limits_spec (self : Gui) (s1 s2 : Z) (w : World) :
  fst (_apply_power_limits self s1 s2 w) = Ok tt /\
  Forall (fun v => bits v 15 15 = 1 /\ bits v 47 47 = 1 /\
                   Z.testbit v 63 = false)
         (broadcasts (_apply_power_limits self s1 s2) w) /\
  (forall k, 0 <= k ->
     power_unit self = (1 / inject_Z (Z.shiftl 1 k))%Q ->
     Forall (fun v => bits v 14 0 = (s1 * 2 ^ k) mod 32768 /\
                      bits v 46 32 = (s2 * 2 ^ k) mod 32768)
            (broadcasts (_apply_power_limits self s1 s2) w)).
Proof.
  destruct (apply_power_limits_eq self s1 s2 w) as [Hok Hb].
  split; [exact Hok|]. rewrite Hb. split.
  - apply broadcasts_write_pl_watts. intros v _ Henc.
    pose proof (encode_pl_watts_lock _ _ _ _ _ _ Henc) as Hlock.
    apply encode_pl_watts_value in Henc.
    destruct Henc as [f1 [f2 [Hf1 [Hf2 ->]]]].
    destruct f1 as [f1|]; [|cbn in Hf1; destruct (Qeq_bool _ 0); discriminate].
    destruct f2 as [f2|]; [|cbn in Hf2; destruct (Qeq_bool _ 0); discriminate].
    unfold apply_limit. split; [|split; [|exact Hlock]].
    + rewrite !bits_set_bits_other by lia.
      rewrite bits_of_set_bits by lia. reflexivity.
    + rewrite !bits_set_bits_other by lia.
      rewrite bits_of_set_bits by lia. reflexivity.
  - intros k Hk Hpu. rewrite Hpu.
    apply broadcasts_write_pl_watts. intros v _ Henc.
    apply encode_pl_watts_value in Henc.
    destruct Henc as [f1 [f2 [Hf1 [Hf2 ->]]]].
    rewrite slider_unit_field in Hf1, Hf2 by assumption.
    injection Hf1 as <-. injection Hf2 as <-.
    unfold apply_limit. split.
    + rewrite !bits_set_bits_other by lia.
      rewrite bits_of_set_bits by lia. apply low15.
    + rewrite !bits_set_bits_other by lia.
      rewrite bits_of_set_bits by lia.
      change (Z.shiftl 1 (46 - 32 + 1) - 1) with (Z.ones 15).
      now rewrite Z.land_ones by lia.
Qed.

Lemma apply_power_limits_spec_witness :
  let self := mkGui (1 / inject_Z (Z.shiftl 1 3)) (1 # 1024) true [] 0 0 in
  let w := quiet_world ["0"; "1"]%string 0x8000815800DD8118 "auto" in
  (0 <= 3 /\ power_unit self = (1 / inject_Z (Z.shiftl 1 3))%Q) /\
  broadcasts (_apply_power_limits self 45 55) w
  = [0x81B800DD8168; 0x81B800DD8168] /\
  Forall (fun v => bits v 14 0 = (45 * 2 ^ 3) mod 32768 /\
                   bits v 46 32 = (55 * 2 ^ 3) mod 32768)
         (broadcasts (_apply_power_limits self 45 55) w).
Proof.
  intros self w. split; [split; [lia | reflexivity]|].
  split; [vm_compute; reflexivity|].
  apply (proj2 (proj2 (apply_power_limits_spec self 45 55 w)) 3);
    [lia | reflexivity].
Defined.

Lemma pl_clamped_range (q : Q) : 20 <= pl_clamped q <= 60.
Proof. unfold pl_clamped. lia. Qed.

(** X23. The slider position derived from a decoded wattage always lies
    in 20..60; and applying a slider value [s] in 20..60 with a session
    power unit [1/2^k], [k <= 9], then decoding the value written, puts
    the slider back on [s] (for PL1 and for PL2). *)
Theorem slider_round_trip (raw s1 s2 k : Z) (tu : Q) (w : World) :
  0 <= k <= 9 -> 20 <= s1 <= 60 -> 20 <= s2 <= 60 ->
  let pu := (1 / inject_Z (Z.shiftl 1 k))%Q in
  (forall q, 20 <= pl_clamped q <= 60) /\
  exists v,
    encode_pl_watts raw (Some (inject_Z s1)) (Some (inject_Z s2)) pu w
    = (Ok v, w) /\
    pl_clamped (pl1_w (decode_power_limits v pu tu)) = s1 /\
    pl_clamped (pl2_w (decode_power_limits v pu tu)) = s2.
Proof.
  intros Hk H1 H2. cbn zeta. split; [exact pl_clamped_range|].
  assert (Hpow : 1 <= 2 ^ k <= 512).
  { split; [pose proof (Z.pow_pos_nonneg 2 k); lia|].
    change 512 with (2 ^ 9). apply Z.pow_le_mono_r; lia. }
  assert (Hback : forall s, 20 <= s <= 60 ->
            pl_clamped (inject_Z (s * 2 ^ k) * (1 / inject_Z (Z.shiftl 1 k)))
            = s).
  { intros s Hs. unfold pl_clamped.
    rewrite (py_round_inject_Z _ s); [lia|].
    rewrite Z.shiftl_1_l, inject_Z_mult. field.
    intros H0. change 0%Q with (inject_Z 0) in H0.
    apply (proj1 (inject_Z_injective _ _)) in H0. lia. }
  eexists. split.
  { rewrite encode_pl_watts_eq, !slider_unit_field by lia. reflexivity. }
  unfold decode_power_limits. cbn [pl1_w pl2_w apply_limit]. split.
  - rewrite !bits_set_bits_other by lia. rewrite bits_of_set_bits by lia.
    rewrite low15, Z.mod_small by nia. now apply Hback.
  - rewrite !bits_set_bits_other by lia. rewrite bits_of_set_bits by lia.
    change (Z.shiftl 1 (46 - 32 + 1) - 1) with (Z.ones 15).
    rewrite Z.land_ones by lia. change (2 ^ 15) with 32768.
    rewrite Z.mod_small by nia. now apply Hback.
Qed.

Lemma slider_round_trip_witness :
  (0 <= 3 <= 9 /\ 20 <= 45 <= 60 /\ 20 <= 55 <= 60) /\
  exists v,
    encode_pl_watts 0x8000815800DD8118 (Some (inject_Z 45)) (Some (inject_Z 55))
                    (1 / inject_Z (Z.shiftl 1 3))
                    (quiet_world ["0"%string] 0 "auto")
    = (Ok v, quiet_world ["0"%string] 0 "auto") /\
    pl_clamped (pl1_w (decode_power_limits v (1 / inject_Z (Z.shiftl 1 3))
                                           (1 # 1024))) = 45 /\
    pl_clamped (pl2_w (decode_power_limits v (1 / inject_Z (Z.shiftl 1 3))
                                           (1 # 1024))) = 55.
Proof.
  split; [lia|].
  apply (proj2 (slider_round_trip
                  0x8000815800DD8118 45 55 3 (1 # 1024)
                  (quiet_world ["0"%string] 0 "auto")
                  ltac:(lia) ltac:(lia) ltac:(lia))).
Defined.

(** ** Turbo-ratio callback, all inputs *)

Lemma collect_ratios_cases (edits : list ratio_text) :
  forall acc w,
    (exists ns, edits = map TextInt ns /\ forallb ratio_in_range ns = true /\
                collect_ratios edits acc w = (Ok (Some (acc ++ ns)), w)) \/
    collect_ratios edits acc w
    = (Ok None, emit (Dialog Warning "Input Error") w) \/
    collect_ratios edits acc w = (Raise ValueError, w).
Proof.
  induction edits as [|edit rest IH]; intros acc w.
  - left. exists []. cbn. rewrite app_nil_r. repeat split.
  - destruct edit as [|n|]; cbn [collect_ratios].
    + right. left. reflexivity.
    + destruct ((n <? 20) || (n >? 42)) eqn:Hn.
      * right. left. reflexivity.
      * destruct (IH (acc ++ [n]) w) as [[ns [Hns [Hr Hrun]]] | [H | H]].
        -- left. exists (n :: ns). cbn [map forallb].
           rewrite Hrun, <- app_assoc, Hns.
           unfold ratio_in_range at 1. rewrite Hn, Hr. cbn [negb andb].
           repeat split.
        -- right. left. exact H.
        -- right. right. exact H.
    + right. right. reflexivity.
Qed.

Lemma range_forall (ns : list Z) :
  forallb ratio_in_range ns = true -> Forall (fun n => 20 <= n <= 42) ns.
Proof.
  intros H. apply Forall_forall. intros n Hn.
  rewrite forallb_forall in H. specialize (H n Hn).
  unfold ratio_in_range in H. rewrite Z.gtb_ltb in H.
  apply negb_true_iff, orb_false_iff in H. destruct H as [Hlo Hhi].
  apply Z.ltb_ge in Hlo, Hhi. lia.
Qed.

Lemma order_ok_sorted (ns : list Z) :
  order_violated ns = false -> Sorted Z.ge ns.
Proof.
  induction ns as [|a [|b rest] IH]; intros H.
  - constructor.
  - repeat constructor.
  - cbn [order_violated] in H. apply orb_false_iff in H.
    destruct H as [Hab Hrest]. apply Z.ltb_ge in Hab.
    constructor; [now apply IH|]. constructor. lia.
Qed.

Lemma new_events_same (w : World) : new_events w w = [].
Proof. apply new_events_app. now rewrite app_nil_r. Qed.

Lemma new_events_one (w : World) (e : event) : new_events w (emit e w) = [e].
Proof. now apply new_events_app. Qed.

(** X24. [_apply_ratios] reaches the registers only through validation:
    for any content of the line edits, if the call performs any
    [read_msr] or [write_msr] then every edit held an integer, every
    integer lies in 20..42 and the sequence is non-increasing. *)
Theorem apply_ratios_touches_only_valid (self : Gui) (w : World) :
  touches_msr (new_events w (snd (_apply_ratios self w))) = true ->
  exists ns,
    ratio_inputs self = map TextInt ns /\
    Forall (fun n => 20 <= n <= 42) ns /\
    Sorted Z.ge ns.
Proof.
  unfold _apply_ratios, bind at 1.
  destruct (collect_ratios_cases (ratio_inputs self) [] w)
    as [[ns [Hns [Hr Hrun]]] | [H | H]]; rewrite ?Hrun, ?H; cbn [app snd].
  - destruct (order_violated ns) eqn:Hord.
    + unfold tell. cbn [snd]. rewrite new_events_one. discriminate.
    + intros _. exists ns. split; [exact Hns|].
      split; [now apply range_forall | now apply order_ok_sorted].
  - unfold ret. cbn [snd]. rewrite new_events_one. discriminate.
  - rewrite new_events_same. discriminate.
Qed.

Lemma apply_ratios_touches_only_valid_witness :
  let self := mkGui (1 # 8) (1 # 1024) true
                    (map TextInt [36; 35; 34; 33]) 0 0 in
  let w := quiet_world ["0"%string] 0x1E1E1E1E20212223 "auto" in
  touches_msr (new_events w (snd (_apply_ratios self w))) = true /\
  exists ns,
    ratio_inputs self = map TextInt ns /\
    Forall (fun n => 20 <= n <= 42) ns /\ Sorted Z.ge ns.
Proof.
  intros self w.
  assert (H : touches_msr (new_events w (snd (_apply_ratios self w))) = true)
    by (vm_compute; reflexivity).
  split; [exact H|]. exact (apply_ratios_touches_only_valid self w H).
Defined.

Lemma collect_ratios_prefix (ns : list Z) (rest : list ratio_text) :
  forallb ratio_in_range ns = true ->
  forall acc w,
    collect_ratios (map TextInt ns ++ rest) acc w
    = collect_ratios rest (acc ++ ns) w.
Proof.
  induction ns as [|n ns IH]; intros Hr acc w.
  - cbn. now rewrite app_nil_r.
  - cbn [forallb] in Hr. apply andb_true_iff in Hr. destruct Hr as [Hn Hr].
    cbn [map app collect_ratios]. unfold ratio_in_range in Hn.
    apply negb_true_iff in Hn. rewrite Hn, (IH Hr), <- app_assoc. reflexivity.
Qed.

(** X25. With integers in every line edit (however many, whatever their
    values), [_apply_ratios] returns normally: a rejected input ends in a
    warning box and a failing register access in an error box.  A text
    that is not an integer, met after integers within range, makes the
    call raise [ValueError], with nothing done. *)
Theorem apply_ratios_outcomes (self : Gui) (w : World) :
  (forall ns, ratio_inputs self = map TextInt ns ->
              fst (_apply_ratios self w) = Ok tt) /\
  (forall ns rest,
      ratio_inputs self = map TextInt ns ++ TextNotInt :: rest ->
      forallb ratio_in_range ns = true ->
      _apply_ratios self w = (Raise ValueError, w)).
Proof.
  split.
  - intros ns Hin. unfold _apply_ratios, bind at 1.
    rewrite Hin, collect_ratios_ints.
    destruct (forallb ratio_in_range ns); [|reflexivity].
    destruct (order_violated ([] ++ ns)); [reflexivity|].
    unfold try_except.
    match goal with
    | |- fst (let (r, w') := ?m in _) = _ => destruct m as [[[]|e] w']
    end; reflexivity.
  - intros ns rest Hin Hr. unfold _apply_ratios, bind at 1.
    rewrite Hin, (collect_ratios_prefix ns _ Hr). reflexivity.
Qed.

Lemma apply_ratios_outcomes_witness :
  let self := mkGui (1 # 8) (1 # 1024) true
                    (map TextInt [36; 35] ++ TextNotInt :: [TextInt 33]) 0 0 in
  let w := quiet_world ["0"%string] 0x1E1E1E1E20212223 "auto" in
  ratio_inputs self = map TextInt [36; 35] ++ TextNotInt :: [TextInt 33] /\
  _apply_ratios self w = (Raise ValueError, w).
Proof.
  intros self w. split; [reflexivity|].
  apply (proj2 (apply_ratios_outcomes self w) [36; 35] [TextInt 33]);
    reflexivity.
Defined.

(** ** Fan mode selection *)

(** X26. The selection [_load_current_values] makes from a level is the
    inverse of the level [_apply_fan_setting] writes: for combo index
    0..3 and a manual slider value 0..7, the level text written maps back
    to the same index, and in manual mode to the same slider value. *)
Theorem fan_selection_round_trip (index slider : Z) :
  0 <= index <= 3 -> 0 <= slider <= 7 ->
  fan_selection (level_of_index index slider)
  = (index, if index =? 1 then Some slider else None).
Proof.
  intros Hi Hs.
  assert (Hic : index = 0 \/ index = 1 \/ index = 2 \/ index = 3) by lia.
  assert (Hsc : slider = 0 \/ slider = 1 \/ slider = 2 \/ slider = 3 \/
                slider = 4 \/ slider = 5 \/ slider = 6 \/ slider = 7) by lia.
  destruct Hic as [-> | [-> | [-> | ->]]]; try reflexivity.
  destruct Hsc as [-> | [-> | [-> | [-> | [-> | [-> | [-> | ->]]]]]]];
    reflexivity.
Qed.

Lemma fan_selection_round_trip_witness :
  (0 <= 1 <= 3 /\ 0 <= 5 <= 7) /\
  fan_selection (level_of_index 1 5) = (1, if 1 =? 1 then Some 5 else None).
Proof. split; [lia | apply fan_selection_round_trip; lia]. Defined.

(** ** Reading the fan file *)

Lemma lstrip_length (s : string) :
  (String.length (lstrip s) <= String.length s)%nat.
Proof.
  induction s as [|c s IH]; cbn [lstrip String.length]; [lia|].
  destruct (is_space c); cbn [String.length]; lia.
Qed.

Lemma lstrip_fixed (c : ascii) (s : string) :
  lstrip (String c s) = String c s -> is_space c = false.
Proof.
  cbn [lstrip]. destruct (is_space c); [|reflexivity].
  intros H. pose proof (lstrip_length s) as Hl. rewrite H in Hl.
  cbn [String.length] in Hl. lia.
Qed.

Lemma lstrip_pad (pad s : string) :
  all_space pad = true -> lstrip (pad ++ s) = lstrip s.
Proof.
  induction pad as [|c pad IH]; cbn [all_space String.append lstrip];
    [reflexivity|].
  intros H. apply andb_true_iff in H. destruct H as [Hc Hp].
  rewrite Hc. now apply IH.
Qed.

Lemma lstrip_spaces (t : string) : all_space t = true -> lstrip t = EmptyString.
Proof.
  induction t as [|c t IH]; cbn [all_space lstrip]; [reflexivity|].
  intros H. apply andb_true_iff in H. destruct H as [Hc Ht].
  now rewrite Hc, (IH Ht).
Qed.

Lemma rstrip_spaces (t : string) : all_space t = true -> rstrip t = EmptyString.
Proof.
  induction t as [|c t IH]; cbn [all_space rstrip]; [reflexivity|].
  intros H. apply andb_true_iff in H. destruct H as [Hc Ht].
  now rewrite (IH Ht), Hc.
Qed.

Lemma rstrip_trail (v t : string) :
  all_space t = true -> rstrip (v ++ t) = rstrip v.
Proof.
  intros Ht. induction v as [|c v IH]; cbn [String.append rstrip].
  - now apply rstrip_spaces.
  - now rewrite IH.
Qed.

Lemma strip_padded (pad v trail : string) :
  all_space pad = true -> all_space trail = true ->
  lstrip v = v -> rstrip v = v ->
  strip (pad ++ v ++ trail) = v.
Proof.
  intros Hp Ht Hl Hr. unfold strip. rewrite (lstrip_pad _ _ Hp).
  destruct v as [|c v].
  - cbn [String.append]. now rewrite (lstrip_spaces _ Ht).
  - pose proof (lstrip_fixed _ _ Hl) as Hc.
    cbn [String.append lstrip]. rewrite Hc.
    change (String c (v ++ trail)) with (String c v ++ trail)%string.
    now rewrite (rstrip_trail _ _ Ht).
Qed.

Lemma has_colon_key (k rest : string) :
  has_colon (k ++ String colon rest) = true.
Proof.
  induction k as [|c k IH]; cbn [String.append has_colon].
  - now rewrite Ascii.eqb_refl.
  - rewrite IH. apply orb_true_r.
Qed.

Lemma partition_colon_key (k rest : string) :
  has_colon k = false ->
  partition_colon (k ++ String colon rest) = (k, rest).
Proof.
  induction k as [|c k IH]; cbn [String.append has_colon partition_colon].
  - now rewrite Ascii.eqb_refl.
  - intros H. apply orb_false_iff in H. destruct H as [Hc Hk].
    now rewrite Hc, (IH Hk).
Qed.

Lemma prefix_key (p k rest : string) :
  has_colon p = false -> has_colon k = false ->
  String.prefix (p ++ String colon EmptyString) (k ++ String colon rest) = true ->
  k = p.
Proof.
  revert k. induction p as [|a p IH]; intros k Hp Hk.
  - destruct k as [|c k]; [reflexivity|].
    cbn [String.append String.prefix]. cbn [has_colon] in Hk.
    apply orb_false_iff in Hk. destruct Hk as [Hc _].
    destruct (ascii_dec colon c) as [<-|_]; [|discriminate].
    now rewrite Ascii.eqb_refl in Hc.
  - cbn [has_colon] in Hp. apply orb_false_iff in Hp. destruct Hp as [Ha Hp].
    destruct k as [|c k]; cbn [String.append String.prefix].
    + destruct (ascii_dec a colon) as [->|_]; [|discriminate].
      now rewrite Ascii.eqb_refl in Ha.
    + cbn [has_colon] in Hk. apply orb_false_iff in Hk. destruct Hk as [_ Hk].
      destruct (ascii_dec a c) as [<-|_]; [|discriminate].
      intros H. now rewrite (IH k Hp Hk H).
Qed.

Lemma fan_status_line_entry (d : dict) (k pad v trail : string) :
  has_colon k = false -> k <> "commands"%string ->
  lstrip k = k -> rstrip k = k ->
  all_space pad = true -> all_space trail = true ->
  lstrip v = v -> rstrip v = v ->
  fan_status_line d (k ++ String colon (pad ++ v ++ trail)) = dict_set d k v.
Proof.
  intros Hk Hne Hkl Hkr Hp Ht Hvl Hvr. unfold fan_status_line.
  destruct (String.prefix "commands:" _) eqn:Hpre.
  - exfalso. apply Hne.
    exact (prefix_key "commands" k _ eq_refl Hk Hpre).
  - rewrite has_colon_key, (partition_colon_key _ _ Hk).
    rewrite (strip_padded pad v trail Hp Ht Hvl Hvr).
    unfold strip. now rewrite Hkl, Hkr.
Qed.

Lemma fan_status_skips (lines : list string) (d : dict) :
  Forall (fun line => String.prefix "commands:" line = true
                      \/ has_colon line = false) lines ->
  fold_left fan_status_line lines d = d.
Proof.
  induction 1 as [|line lines Hline _ IH]; cbn [fold_left]; [reflexivity|].
  rewrite <- IH at 2. f_equal. unfold fan_status_line.
  destruct Hline as [-> | Hc]; [reflexivity|].
  rewrite Hc. now destruct (String.prefix _ _).
Qed.

Lemma dict_get_set (d : dict) (k v : string) :
  dict_get (dict_set d k v) k = Some v.
Proof.
  induction d as [|[k' v'] d IH]; cbn [dict_set dict_get].
  - now rewrite String.eqb_refl.
  - destruct (String.eqb k' k) eqn:He; cbn [dict_get]; now rewrite He.
Qed.

Lemma dict_get_set_other (d : dict) (k v k' : string) :
  k' <> k -> dict_get (dict_set d k v) k' = dict_get d k'.
Proof.
  intros Hne. induction d as [|[k0 v0] d IH]; cbn [dict_set dict_get].
  - destruct (String.eqb_spec k k'); [congruence | reflexivity].
  - destruct (String.eqb_spec k0 k) as [->|Hk]; cbn [dict_get].
    + destruct (String.eqb_spec k k'); [congruence | reflexivity].
    + now rewrite IH.
Qed.

(** X27. [read_fan_status] on a readable file: a line [key: value] (key
    without a colon and other than [commands], white space allowed after
    the colon and at the end of the line, the value may itself contain
    colons) that is followed only by [commands:] lines and lines without
    a colon gives the dictionary entry [key -> value]; every other key
    keeps the value the earlier lines gave it; the world is untouched. *)
Theorem read_fan_status_entry
    (before after : list string) (k pad v trail : string) (w : World) :
  has_colon k = false -> k <> "commands"%string ->
  lstrip k = k -> rstrip k = k ->
  all_space pad = true -> all_space trail = true ->
  lstrip v = v -> rstrip v = v ->
  Forall (fun line => String.prefix "commands:" line = true
                      \/ has_colon line = false) after ->
  exists d,
    read_fan_status
      (Ok (before ++ (k ++ String colon (pad ++ v ++ trail))%string :: after)) w
    = (Ok d, w) /\
    dict_get d k = Some v /\
    forall k', k' <> k ->
      dict_get d k' = dict_get (fold_left fan_status_line before []) k'.
Proof.
  intros Hk Hne Hkl Hkr Hp Ht Hvl Hvr Hafter.
  eexists. split; [reflexivity|].
  rewrite fold_left_app. cbn [fold_left].
  rewrite (fan_status_skips _ _ Hafter).
  rewrite (fan_status_line_entry _ k pad v trail Hk Hne Hkl Hkr Hp Ht Hvl Hvr).
  split; [apply dict_get_set|].
  intros k' Hk'. now apply dict_get_set_other.
Qed.

Lemma read_fan_status_entry_witness :
  let tab := String (ascii_of_nat 9) EmptyString in
  let before := [("status:" ++ tab ++ tab ++ "enabled" ++ nl)%string;
                 ("speed:" ++ tab ++ tab ++ "3481" ++ nl)%string] in
  let after := [("commands:" ++ tab ++ "level <level>" ++ nl)%string;
                ("commands:" ++ tab ++ "watchdog <timeout>" ++ nl)%string] in
  let w := quiet_world ["0"%string] 0 "auto" in
  exists d,
    read_fan_status
      (Ok (before ++ ("level" ++ String colon ((tab ++ tab) ++ "full-speed" ++ nl))%string
                  :: after)) w
    = (Ok d, w) /\
    dict_get d "level" = Some "full-speed"%string /\
    forall k', k' <> "level"%string ->
      dict_get d k' = dict_get (fold_left fan_status_line before []) k'.
Proof.
  intros tab before after w.
  apply (read_fan_status_entry before after "level" (tab ++ tab) "full-speed" nl w);
    try reflexivity.
  - discriminate.
  - repeat constructor.
Defined.

(** ** Periodic fan refresh *)

(** X28. [_refresh_fan_status], on any machine and whatever the fan file
    holds: the call never raises; it writes [watchdog 30] exactly when
    the fan interface is available, the file could be read and the level
    it reports (["?"] when the file has no level line) is not [auto],
    and it writes nothing else; it never changes the fan level. *)
Theorem refresh_fan_status_keep_alive
    (self : Gui) (file : result (list string)) (w : World) :
  let run := _refresh_fan_status self file w in
  let armed :=
    match file with
    | Ok lines =>
        fan_available self &&
        negb (String.eqb
                (dict_get_default (fold_left fan_status_line lines [])
                                  "level" "?") "auto")
    | Raise _ => false
    end in
  (exists labels, fst run = Ok labels) /\
  fan_writes (new_events w (snd run))
  = (if armed then [("watchdog 30" ++ nl)%string] else []) /\
  fan_level (snd run) = fan_level w.
Proof.
  unfold _refresh_fan_status.
  destruct (fan_available self); cbn [negb andb].
  2:{ unfold ret. cbn [fst snd]. rewrite new_events_same.
      destruct file; repeat split; eauto. }
  destruct file as [lines | e];
    unfold try_except, bind, read_fan_status, ret, raise; cbn [fst snd].
  2:{ rewrite new_events_same. repeat split; eauto. }
  destruct (String.eqb _ "auto"); cbn [negb fst snd].
  - rewrite new_events_same. repeat split; eauto.
  - unfold write_fan_watchdog, fan_write.
    destruct (fan_write_err w (log w) _); cbn [fst snd];
      (split; [eauto|]); (split; [|reflexivity]);
      erewrite new_events_app by (cbn [log emit set_fan_watchdog]; reflexivity);
      reflexivity.
Qed.

(** ** Turbo checkbox *)

Lemma write_msr_refused (msr value cpu : Z) (w : World) :
  msr_open_err w cpu <> None \/ msr_write_err w cpu msr <> None ->
  exists e, write_msr msr value cpu w
            = (Raise e, emit (MsrWrite cpu msr value) w).
Proof.
  intros H. rewrite write_msr_eq. cbn zeta.
  destruct (msr_open_err w cpu) as [e|]; [now exists e|].
  destruct H as [H | H]; [congruence|].
  destruct ((0 <=? value) && (value <? 2 ^ 64)); [|now exists StructError].
  destruct (msr_write_err w cpu msr) as [e|]; [now exists e | congruence].
Qed.

Lemma read_msr_readable (msr cpu : Z) (w : World) :
  msr_read_err w cpu msr = None ->
  List.length (msr_data w cpu msr) = 8%nat ->
  read_msr msr cpu w
  = (Ok (le_combine (msr_data w cpu msr)), emit (MsrRead cpu msr) w).
Proof.
  intros Hr Hlen. rewrite read_msr_eq. cbn zeta. rewrite Hr.
  rewrite firstn_all2 by (rewrite Hlen; lia). rewrite Hlen. reflexivity.
Qed.

(** X29. [_on_turbo_toggled] on a machine whose registers can be read but
    where the first online CPU refuses the write (opening the device for
    writing or the write itself fails): the call returns normally, after
    one read and one attempted write on that CPU it shows an error box,
    reads IA32_MISC_ENABLE of CPU 0 once more and sets the checkbox to
    the turbo state that register shows (bit 38 clear); no register has
    changed. *)
Theorem turbo_toggle_refused (state : Z) (w : World)
        (entries : list string) (c : Z) (rest : list Z) :
  dev_cpu w = Some entries ->
  sorted (map py_int (filter isdigit entries)) = c :: rest ->
  (forall cpu a, msr_read_err w cpu a = None) ->
  (forall cpu a, List.length (msr_data w cpu a) = 8%nat) ->
  msr_open_err w c <> None \/ msr_write_err w c IA32_MISC_ENABLE <> None ->
  exists w',
    _on_turbo_toggled state w
    = (Ok (Some (negb (Z.testbit
                         (le_combine (msr_data w 0 IA32_MISC_ENABLE)) 38))),
       w') /\
    msr_data w' = msr_data w /\
    new_events w w'
    = [MsrRead c IA32_MISC_ENABLE;
       MsrWrite c IA32_MISC_ENABLE
                (set_bits (le_combine (msr_data w c IA32_MISC_ENABLE)) 38 38
                          (if state =? 2 then 0 else 1));
       Dialog Critical "Error";
       MsrRead 0 IA32_MISC_ENABLE].
Proof.
  intros Hdev Hcpus Hr Hlen Hdeny.
  set (raw := le_combine (msr_data w c IA32_MISC_ENABLE)).
  set (val := set_bits raw 38 38 (if state =? 2 then 0 else 1)).
  set (w1 := emit (MsrRead c IA32_MISC_ENABLE) w).
  destruct (write_msr_refused IA32_MISC_ENABLE val c w1 Hdeny) as [e He].
  assert (Hset : set_turbo_enabled (state =? 2) w
                 = (Raise e, emit (MsrWrite c IA32_MISC_ENABLE val) w1)).
  { unfold set_turbo_enabled, bind at 1.
    rewrite (online_cpus_listing w entries Hdev), Hcpus.
    cbn [for_each]. unfold bind at 1. unfold bind at 1.
    rewrite (read_msr_readable _ _ _ (Hr _ _) (Hlen _ _)).
    fold raw w1.
    replace (if state =? 2 then set_bits raw 38 38 0 else set_bits raw 38 38 1)
      with val by (unfold val; now destruct (state =? 2)).
    now rewrite He. }
  set (w2 := emit (Dialog Critical "Error")
                  (emit (MsrWrite c IA32_MISC_ENABLE val) w1)).
  exists (emit (MsrRead 0 IA32_MISC_ENABLE) w2).
  split; [|split].
  - unfold _on_turbo_toggled. cbn zeta. unfold try_except at 1, bind at 1.
    rewrite Hset. unfold bind at 1, tell. fold w2.
    unfold try_except, read_turbo_enabled, bind.
    rewrite (read_msr_readable IA32_MISC_ENABLE 0 w2 (Hr _ _) (Hlen _ _)).
    unfold ret. rewrite py_bool_bit by lia. reflexivity.
  - reflexivity.
  - apply new_events_app. unfold w2, w1. cbn [log emit].
    now rewrite <- !app_assoc.
Qed.

Lemma turbo_toggle_refused_witness :
  let entries := ["0"; "1"]%string in
  let w := mkWorld (Some entries) (fun _ _ => None)
                   (fun _ _ => le_split 8 0x4000850089)
                   (fun _ => Some PermissionError) (fun _ _ => None)
                   (fun _ _ => None) "auto" 0 true [] in
  exists w',
    _on_turbo_toggled 2 w = (Ok (Some false), w') /\
    msr_data w' = msr_data w /\
    new_events w w'
    = [MsrRead 0 IA32_MISC_ENABLE;
       MsrWrite 0 IA32_MISC_ENABLE 0x850089;
       Dialog Critical "Error";
       MsrRead 0 IA32_MISC_ENABLE].
Proof.
  intros entries w.
  apply (turbo_toggle_refused 2 w entries 0 [1]).
  - reflexivity.
  - reflexivity.
  - reflexivity.
  - reflexivity.
  - left. discriminate.
Defined.

(** X30. [_on_turbo_toggled] on a working machine on which CPU 0 is
    online: the call does what [set_turbo_enabled] does and nothing more
    (no error box, the checkbox is left alone), and afterwards
    [read_turbo_enabled] reports turbo enabled exactly when the state
    passed was [Qt.Checked] (2); any other state disables it. *)
Theorem turbo_toggle_applies (state : Z) (w : World) (entries : list string) :
  msr_io_works w -> dev_cpu w = Some entries ->
  In 0 (sorted (map py_int (filter isdigit entries))) ->
  _on_turbo_toggled state w
  = (Ok None, snd (set_turbo_enabled (state =? 2) w)) /\
  fst (read_turbo_enabled (snd (_on_turbo_toggled state w)))
  = Ok (state =? 2).
Proof.
  intros Hw Hdev H0.
  destruct (set_turbo_enabled_run (state =? 2) w entries Hw Hdev)
    as [w' [Hrun [Hw' [Hin _]]]].
  assert (Hcall : _on_turbo_toggled state w = (Ok None, w')).
  { unfold _on_turbo_toggled. cbn zeta. unfold try_except at 1, bind at 1.
    now rewrite Hrun. }
  rewrite Hcall, Hrun. split; [reflexivity|]. cbn [snd].
  unfold read_turbo_enabled, bind. rewrite (read_msr_works _ _ _ Hw').
  unfold ret. cbn [fst]. rewrite (Hin 0 H0), bits_of_set_bits by lia.
  destruct (state =? 2); reflexivity.
Qed.

Lemma turbo_toggle_applies_witness :
  let entries := ["0"; "1"]%string in
  let w := quiet_world entries 0x850089 "auto" in
  (msr_io_works w /\ dev_cpu w = Some entries /\
   In 0 (sorted (map py_int (filter isdigit entries)))) /\
  fst (read_turbo_enabled (snd (_on_turbo_toggled 0 w))) = Ok false.
Proof.
  intros entries w.
  assert (Hw : msr_io_works w) by (repeat split).
  assert (H0 : In 0 (sorted (map py_int (filter isdigit entries))))
    by (now left).
  split; [split; [exact Hw | split; [reflexivity | exact H0]]|].
  exact (proj2 (turbo_toggle_applies 0 w entries Hw eq_refl H0)).
Defined.
